(** * humioctl search: polling, de-duplication and rendering

    A shallow embedding of [cmd/humioctl/search.go]: the query-job poller,
    the two result printers, the progress reporters and the control flow of
    the [search] command, with the properties the specification states
    about them. *)

From Stdlib Require Import ZArith Lia Bool List Ascii String.
From Stdlib Require Import Sorting.Sorted Sorting.Permutation.
From Stdlib Require Import Floats.SpecFloat.
From stdpp Require Import base option list gmap strings.

Local Open Scope Z_scope.

(** ** Machine integers *)

Definition minInt64 : Z := - 2 ^ 63.
Definition maxInt64 : Z := 2 ^ 63 - 1.
Definition maxUint64 : Z := 2 ^ 64 - 1.

(** Two's-complement wrap-around of an [int64] result. *)
Definition wrap64 (z : Z) : Z := (z + 2 ^ 63) mod 2 ^ 64 - 2 ^ 63.

Definition inInt64 (z : Z) : Prop := minInt64 <= z <= maxInt64.

(** ** Package [strconv] *)
Module strconv.

Definition digit (d : Z) : ascii := ascii_of_nat (48 + Z.to_nat d).

Fixpoint digitsOf (fuel : nat) (n : Z) (acc : string) : string :=
  match fuel with
  | O => acc
  | S fuel' =>
      if n <? 10 then String (digit n) acc
      else digitsOf fuel' (n / 10) (String (digit (n mod 10)) acc)
  end.

(** The decimal digits of a natural number. *)
Definition digits (n : Z) : string :=
  digitsOf (S (Z.to_nat (Z.log2 n))) n "".

(** [strconv.Itoa]. *)
Definition Itoa (n : Z) : string :=
  if n <? 0 then String "-" (digits (- n)) else digits n.

(** The digits of [n], padded with zeros on the left to [width]. *)
Definition zeroPadded (width : nat) (n : Z) : string :=
  let s := digits n in
  String.concat "" (repeat "0"%string (width - String.length s)) ++ s.

Fixpoint stripZeros (n : Z) (fuel : nat) : Z :=
  match fuel with
  | O => n
  | S fuel' =>
      if (0 <? n) && (n mod 10 =? 0) then stripZeros (n / 10) fuel' else n
  end.

(** A decimal: the digits [dig] (an integer without trailing zeros) and
    the position [dp] of the decimal point, for the value
    [0.dig * 10 ^ dp]. *)
Record decimal := { dig : Z; dp : Z }.

Definition mkDecimal (d : Z) (exp10 : Z) : decimal :=
  let d' := stripZeros d 400 in
  {| dig := d'; dp := Z.of_nat (String.length (digits d)) + exp10 |}.

(** The rational [num / den] times [10 ^ k]. *)
Definition scale10 (num den k : Z) : Z * Z :=
  if 0 <=? k then (num * 10 ^ k, den) else (num, den * 10 ^ (- k)).

(** The shortest decimal that identifies the binary64 value [m * 2 ^ e]
    among its neighbours, and the closest to it among those (ties to the
    even digit): what [FormatFloat] computes for precision [-1].
    [lo4] and [hi4] are the midpoints to the neighbours and [v4] is the
    value, counted in quarters of the unit in the last place. *)
Section Shortest.

Variables (m : positive) (e : Z).

Let v4 : Z := 4 * Zpos m.
Let hi4 : Z := v4 + 2.
Let lo4 : Z :=
  if (Zpos m =? 2 ^ 52) && (-1074 <? e) then v4 - 1 else v4 - 2.
Let inclusive : bool := Z.even (Zpos m).

(** One quarter of the unit in the last place, as a rational. *)
Let quarter : Z * Z :=
  if 0 <=? e - 2 then (2 ^ (e - 2), 1) else (1, 2 ^ (2 - e)).

(** The number of decimal digits in front of the decimal point (zero
    or negative for a value below one tenth). *)
Definition pointPosition : Z :=
  let s := Z.max 0 (2 - e) in
  let '(n, d) := scale10 (v4 * fst quarter) (snd quarter) s in
  Z.of_nat (String.length (digits (n / d))) - s.

Definition inside (cand un ud : Z) : bool :=
  if inclusive then (lo4 * un <=? cand * ud) && (cand * ud <=? hi4 * un)
  else (lo4 * un <? cand * ud) && (cand * ud <? hi4 * un).

Fixpoint shortestFrom (fuel : nat) (n : Z) : decimal :=
  let exp10 := pointPosition - n in
  let '(un, ud) := scale10 (fst quarter) (snd quarter) (- exp10) in
  let down := (v4 * un) / ud in
  let rem := (v4 * un) mod ud in
  let up := down + 1 in
  let okdown := inside down un ud in
  let okup := inside up un ud in
  let nearest :=
    if 2 * rem <? ud then down
    else if ud <? 2 * rem then up
    else if Z.even down then down else up in
  match fuel with
  | O => mkDecimal nearest exp10
  | S fuel' =>
      if okdown && okup then mkDecimal nearest exp10
      else if okdown then mkDecimal down exp10
      else if okup then mkDecimal up exp10
      else shortestFrom fuel' (n + 1)
  end.

Definition shortest : decimal := shortestFrom 17 1.

(** The decimal rounded to [prec] digits after the point, half to
    even: what [FormatFloat] computes for format ['f']. *)
Definition fixed (prec : Z) : Z :=
  let '(un, ud) := scale10 (fst quarter) (snd quarter) prec in
  let down := (v4 * un) / ud in
  let rem := (v4 * un) mod ud in
  if 2 * rem <? ud then down
  else if ud <? 2 * rem then down + 1
  else if Z.even down then down else down + 1.

End Shortest.

Definition zeros (n : Z) : string :=
  String.concat "" (repeat "0"%string (Z.to_nat n)).

Definition signed (neg : bool) (s : string) : string :=
  if neg then String "-" s else s.

(** [%e] with all the digits of [d]: [d.ddde+XX]. *)
Definition fmtE (d : decimal) : string :=
  let ds := digits (dig d) in
  let exp := dp d - 1 in
  let mant :=
    match ds with
    | String c EmptyString => String c EmptyString
    | String c rest => String c (String "." rest)
    | EmptyString => "0"%string
    end in
  mant ++ "e" ++ (if exp <? 0 then "-" else "+")
       ++ zeroPadded 2 (Z.abs exp).

(** [%f] with all the digits of [d]. *)
Definition fmtF (d : decimal) : string :=
  let ds := digits (dig d) in
  let nd := Z.of_nat (String.length ds) in
  if dp d <=? 0 then "0." ++ zeros (- dp d) ++ ds
  else if nd <=? dp d then ds ++ zeros (dp d - nd)
  else substring 0 (Z.to_nat (dp d)) ds ++ "."
       ++ substring (Z.to_nat (dp d)) (Z.to_nat (nd - dp d)) ds.

(** [FormatFloat(f, 'g', -1, 64)]: the shortest digits, with an exponent
    when it is below [-4] or at least [6]. *)
Definition FormatFloat_g (f : spec_float) : string :=
  match f with
  | S754_nan => "NaN"
  | S754_infinity s => if s then "-Inf" else "+Inf"
  | S754_zero s => signed s "0"
  | S754_finite s m e =>
      let d := shortest m e in
      signed s (if (dp d - 1 <? -4) || (6 <=? dp d - 1) then fmtE d
                else fmtF d)
  end.

(** [FormatFloat(f, 'f', 1, 64)]: one digit after the point. *)
Definition FormatFloat_f1 (f : spec_float) : string :=
  match f with
  | S754_nan => "NaN"
  | S754_infinity s => if s then "-Inf" else "+Inf"
  | S754_zero s => signed s "0.0"
  | S754_finite s m e =>
      let tenths := fixed m e 1 in
      signed s (digits (tenths / 10) ++ "." ++ digits (tenths mod 10))
  end.

End strconv.

(** ** Package [time]

    A [time.Time] is an instant, counted in nanoseconds from the Unix epoch;
    a [time.Duration] is an [int64] count of nanoseconds. *)
Module time.

Definition Time := Z.
Definition Duration := Z.

Definition Millisecond : Duration := 1000000.

(** The zero [Time]: January 1, year 1, 00:00:00 UTC. *)
Definition zero : Time := - 62135596800 * 1000000000.

(** [t.Sub(u)]: the difference, clamped to the range of [Duration]. *)
Definition Sub (t u : Time) : Duration :=
  Z.max minInt64 (Z.min maxInt64 (t - u)).

(** [time.Until(t)], read when the clock shows [now]. *)
Definition Until (now t : Time) : Duration := Sub t now.

(** [t.Add(d)]. *)
Definition Add (t : Time) (d : Duration) : Time := t + d.

(** [time.After(d)], started when the clock shows [now]: the instant at
    which the channel delivers.  A timer never fires early; [lag] is how
    late it is. *)
Definition After (now : Time) (d : Duration) (lag : Z) : Time :=
  now + Z.max 0 d + lag.

(** [time.Unix(sec, nsec)]. *)
Definition Unix (sec nsec : Z) : Time := sec * 1000000000 + nsec.

(** The civil date of the day [days] days after 1970-01-01, in the
    proleptic Gregorian calendar. *)
Definition civil (days : Z) : Z * Z * Z :=
  let z := days + 719468 in
  let era := z / 146097 in
  let doe := z mod 146097 in
  let yoe := (doe - doe / 1460 + doe / 36524 - doe / 146096) / 365 in
  let doy := doe - (365 * yoe + yoe / 4 - yoe / 100) in
  let mp := (5 * doy + 2) / 153 in
  let d := doy - (153 * mp + 2) / 5 + 1 in
  let m := if mp <? 10 then mp + 3 else mp - 9 in
  let y := yoe + era * 400 + (if m <=? 2 then 1 else 0) in
  (y, m, d).

(** [appendInt(b, x, width)]: zero-padded, with the sign in front. *)
Definition appendInt (x : Z) (width : nat) : string :=
  if x <? 0 then String "-" (strconv.zeroPadded width (- x))
  else strconv.zeroPadded width x.

(** The fraction of a second for the layout [.999999999]: trailing zeros
    are dropped, and so is the point when nothing is left. *)
Definition appendNano (nsec : Z) : string :=
  if nsec =? 0 then EmptyString
  else
    let trimmed := strconv.stripZeros nsec 9 in
    let dropped := (String.length (strconv.digits nsec)
                    - String.length (strconv.digits trimmed))%nat in
    String "." (strconv.zeroPadded (9 - dropped)%nat trimmed).

(** A [*time.Location]: the offset, in seconds east of UTC, in force at
    a Unix time. *)
Definition Location := Z -> Z.

Definition UTC : Location := fun _ => 0.

(** [t.Format(time.RFC3339Nano)] for an instant shown in [loc]. *)
Definition FormatRFC3339Nano (loc : Location) (t : Time) : string :=
  let unixSec := t / 1000000000 in
  let nsec := t mod 1000000000 in
  let offset := loc unixSec in
  let localSec := unixSec + offset in
  let '(y, m, d) := civil (localSec / 86400) in
  let secOfDay := localSec mod 86400 in
  let date := appendInt y 4 +:+ "-" +:+ appendInt m 2 +:+ "-"
              +:+ appendInt d 2 in
  let clock := appendInt (secOfDay / 3600) 2 +:+ ":"
               +:+ appendInt (secOfDay mod 3600 / 60) 2 +:+ ":"
               +:+ appendInt (secOfDay mod 60) 2 in
  let zone :=
    if offset =? 0 then "Z"
    else
      let minutes := Z.quot offset 60 in
      (if minutes <? 0 then "-" else "+")
      +:+ appendInt (Z.abs minutes / 60) 2 +:+ ":"
      +:+ appendInt (Z.abs minutes mod 60) 2 in
  date +:+ "T" +:+ clock +:+ appendNano nsec +:+ zone.

End time.

(** ** Package [api]: query results *)

Inductive error : Type :=
  | context_Canceled
  | QueryError (msg : string)
  | otherError (msg : string).

#[global] Instance error_eq_dec : EqDecision error.
Proof. solve_decision. Defined.

(** A decoded JSON scalar, the dynamic type behind [interface{}] in an
    event: [nil], [bool], [float64] or [string]. *)
Inductive Value : Type :=
  | VNil
  | VBool (b : bool)
  | VFloat (f : spec_float)
  | VString (s : string).

(** An event is a [map[string]interface{}].  It is kept as the list of its
    entries, in the order in which a [range] over the map visits them; map
    keys are distinct, and a lookup finds the entry of the key. *)
Definition Event := list (string * Value).

Fixpoint index (e : Event) (k : string) : option Value :=
  match e with
  | [] => None
  | (k', v) :: e' => if String.eqb k' k then Some v else index e' k
  end.

(** [m[k]]: the value, or [nil] for a key that is not there. *)
Definition at_key (e : Event) (k : string) : Value :=
  match index e k with Some v => v | None => VNil end.

(** Modelled from the spec: the declaration of [api.QueryResult] and of its
    metadata (package [internal/api] is not part of the sources), with the
    fields section 3 of the specification lists and [search.go] reads.
    Unsigned 64-bit counters are integers in [0, maxUint64]. *)
Record QueryResultMetadata := {
  IsAggregate : bool;
  TotalWork : Z;
  WorkDone : Z;
  TimeMillis : Z;
  ProcessedEvents : Z;
  ProcessedBytes : Z;
  EventCount : Z;
  PollAfter : Z;
  FieldOrder : list string;
  QueryStart : Z;
  QueryEnd : Z
}.

Record QueryResult := {
  Done : bool;
  Metadata : QueryResultMetadata;
  Events : list Event
}.

(** The zero values [api.QueryResultMetadata{}] and [api.QueryResult{}]. *)
Definition emptyMetadata : QueryResultMetadata :=
  {| IsAggregate := false; TotalWork := 0; WorkDone := 0; TimeMillis := 0;
     ProcessedEvents := 0; ProcessedBytes := 0; EventCount := 0;
     PollAfter := 0; FieldOrder := []; QueryStart := 0; QueryEnd := 0 |}.

Definition emptyResult : QueryResult :=
  {| Done := false; Metadata := emptyMetadata; Events := [] |}.

(** ** The poller *)

(** [queryJobPoller]; the job client, repository and id are fixed for a
    session and play no part in the timing. *)
Record queryJobPoller := {
  repository : string;
  id : string;
  nextPoll : time.Time
}.

Definition newPoller (repo jobId : string) : queryJobPoller :=
  {| repository := repo; id := jobId; nextPoll := time.zero |}.

(** What the world contributes to one call of [WaitAndPollContext]. *)
Record PollEnv := {
  timerLag : Z;          (* lateness of the timer channel *)
  timerWinsTie : bool;   (* the case [select] picks when both are ready *)
  pollLatency : Z;       (* duration of the poll request *)
  pollReply : QueryResult * option error  (* what [PollContext] returns *)
}.

(** What one call of [WaitAndPollContext] leaves behind: the poller, the
    returned pair, the instants at which poll requests were issued, and the
    instant of the return. *)
Record PollOutcome := {
  poller : queryJobPoller;
  result : QueryResult;
  err : option error;
  requests : list time.Time;
  returned : time.Time
}.

(** The instant at which the timer case of the [select] is ready. *)
Definition timerReady (q : queryJobPoller) (now : time.Time) (env : PollEnv)
  : time.Time :=
  time.After now (time.Until now (nextPoll q)) (timerLag env).

(** The instant at which [ctx.Done()] is ready for a call entered at [now],
    for a context cancelled at [c]. *)
Definition doneReady (now c : time.Time) : time.Time := Z.max now c.

(** The [select]: [true] when the timer case runs, [false] when the
    cancellation case does. *)
Definition selectTimer (q : queryJobPoller) (ctxDone : option time.Time)
    (now : time.Time) (env : PollEnv) : bool :=
  match ctxDone with
  | None => true
  | Some c =>
      if doneReady now c <? timerReady q now env then false
      else if doneReady now c =? timerReady q now env then timerWinsTie env
      else true
  end.

(** [WaitAndPollContext], for a context that is cancelled at [ctxDone] (or
    never), entered when the clock shows [now]. *)
Definition WaitAndPollContext (q : queryJobPoller) (ctxDone : option time.Time)
    (now : time.Time) (env : PollEnv) : PollOutcome :=
  if selectTimer q ctxDone now env then
    let issued := timerReady q now env in
    let answered := issued + pollLatency env in
    let '(res, e) := pollReply env in
    match e with
    | Some _ =>
        {| poller := q; result := res; err := e;
           requests := [issued]; returned := answered |}
    | None =>
        let d := wrap64 (PollAfter (Metadata res) * time.Millisecond) in
        {| poller := {| repository := repository q; id := id q;
                        nextPoll := time.Add answered d |};
           result := res; err := None;
           requests := [issued]; returned := answered |}
    end
  else
    {| poller := q; result := emptyResult; err := Some context_Canceled;
       requests := [];
       returned := match ctxDone with
                   | Some c => doneReady now c
                   | None => now
                   end |}.

(** A poller can be waited on at [now] when the distance to its next poll
    fits a [Duration]: then [time.Until] is exact. *)
Definition schedulable (q : queryJobPoller) (now : time.Time) : Prop :=
  nextPoll q - now <= maxInt64.

(** [PollAfter] milliseconds fit a [Duration]. *)
Definition delayFits (r : QueryResult) : Prop :=
  inInt64 (PollAfter (Metadata r) * time.Millisecond).

Definition sane (env : PollEnv) : Prop :=
  0 <= timerLag env /\ 0 <= pollLatency env.

(** ** Package [sort]

    [sort.Slice] sorts in place with an algorithm the library does not fix
    and does not promise to be stable.  Its contract: the result is a
    rearrangement of the input and, when [less] is a strict weak order on
    the elements, no element is less than one that precedes it. *)

Record StrictWeakOrderOn {A} (dom : A -> Prop) (less : A -> A -> bool)
  : Prop := {
  swo_irrefl : forall a, dom a -> less a a = false;
  swo_trans : forall a b c, dom a -> dom b -> dom c ->
    less a b = true -> less b c = true -> less a c = true;
  swo_cotrans : forall a b c, dom a -> dom b -> dom c ->
    less a c = true -> less a b = true \/ less b c = true
}.

Class SortSlice := {
  sort_Slice : forall {A}, (A -> A -> bool) -> list A -> list A;
  sort_Slice_perm : forall A (less : A -> A -> bool) (l : list A),
    Permutation (sort_Slice less l) l;
  sort_Slice_sorted : forall A (less : A -> A -> bool) (l : list A),
    StrictWeakOrderOn (fun a => In a l) less ->
    StronglySorted (fun a b => less b a = false) (sort_Slice less l)
}.

(** The insertion sort [sort.Slice] runs on short slices
    ([insertionSortLessFunc]): each element in turn is swapped leftwards
    while it is less than its left neighbour.  [sortedRev] is the part
    already sorted, last element first. *)
Fixpoint insertLeftwards {A} (less : A -> A -> bool) (x : A)
    (sortedRev : list A) : list A :=
  match sortedRev with
  | [] => [x]
  | y :: rest =>
      if less x y then y :: insertLeftwards less x rest
      else x :: y :: rest
  end.

Definition insertionSort {A} (less : A -> A -> bool) (l : list A) : list A :=
  rev (fold_left (fun acc x => insertLeftwards less x acc) l []).

(** Another sort within the contract: the insertion sort run from the far
    end of the slice.  It leaves equal elements in reverse order. *)
Definition insertionSortFromEnd {A} (less : A -> A -> bool) (l : list A)
  : list A :=
  insertionSort less (rev l).

(** ** The event-list printer *)

(** The type assertions [v.(float64)] and [v.(string)]. *)
Definition asFloat64 (v : Value) : option spec_float :=
  match v with VFloat f => Some f | _ => None end.

Definition asString (v : Value) : option string :=
  match v with VString s => Some s | _ => None end.

Definition timestampOf (e : Event) : option spec_float :=
  asFloat64 (at_key e "@timestamp").

Definition idOf (e : Event) : option string :=
  asString (at_key e "@id").

(** The [less] function [print] hands to [sort.Slice]. *)
Definition lessByTimestamp (ei ej : Event) : bool :=
  match timestampOf ei, timestampOf ej with
  | Some tsI, Some tsJ => SFltb tsI tsJ
  | _, None => false
  | None, Some _ => true
  end.

Record eventListPrinter := {
  printedIds : gmap string bool;
  printFields : list string;
  printEventFunc : Event -> option string;  (* the text written to [w] *)
  fmt : string
}.

(** [m[id]] on a [map[string]bool]: [false] for a key that is not there. *)
Definition isPrinted (ids : gmap string bool) (k : string) : bool :=
  default false (ids !! k).

(** The loop of [print] over the sorted events: the events handed to
    [printEventFunc], in order, and the set of printed ids afterwards. *)
Fixpoint emit (ids : gmap string bool) (evs : list Event)
  : list Event * gmap string bool :=
  match evs with
  | [] => ([], ids)
  | e :: rest =>
      match idOf e with
      | Some k =>
          if negb (isPrinted ids k) then
            let '(out, ids') := emit (<[k := true]> ids) rest in
            (e :: out, ids')
          else emit ids rest
      | None =>
          let '(out, ids') := emit ids rest in (e :: out, ids')
      end
  end.

(** An event without a string under ["@id"]. *)
Definition hasNoId (e : Event) : bool :=
  match idOf e with Some _ => false | None => true end.

(** The text of one line after the other; [None] when a line is outside
    the model of [fmt]. *)
Fixpoint writeAll (write : Event -> option string) (evs : list Event)
  : option string :=
  match evs with
  | [] => Some EmptyString
  | e :: rest =>
      match write e, writeAll write rest with
      | Some line, Some more => Some (line +:+ more)
      | _, _ => None
      end
  end.

Section EventList.

Context `{SortSlice}.

(** The events one call of [print] hands to [printEventFunc]. *)
Definition printed (p : eventListPrinter) (r : QueryResult) : list Event :=
  fst (emit (printedIds p) (sort_Slice lessByTimestamp (Events r))).

(** [eventListPrinter.print]: the printer afterwards and the text written
    to [w]. *)
Definition eventListPrinter_print (p : eventListPrinter) (r : QueryResult)
  : eventListPrinter * option string :=
  let '(out, ids') :=
    emit (printedIds p) (sort_Slice lessByTimestamp (Events r)) in
  ({| printedIds := ids'; printFields := printFields p;
      printEventFunc := printEventFunc p; fmt := fmt p |},
   writeAll (printEventFunc p) out).

(** A session: [print] on one snapshot after the other.  The events
    printed for each snapshot, and the printer at the end. *)
Fixpoint printSession (p : eventListPrinter) (rs : list QueryResult)
  : list (list Event) * eventListPrinter :=
  match rs with
  | [] => ([], p)
  | r :: rs' =>
      let '(outs, p') := printSession (fst (eventListPrinter_print p r)) rs' in
      (printed p r :: outs, p')
  end.

(** The texts the calls of a session write, one for each snapshot. *)
Fixpoint writeSession (p : eventListPrinter) (rs : list QueryResult)
  : list (option string) :=
  match rs with
  | [] => []
  | r :: rs' =>
      snd (eventListPrinter_print p r)
      :: writeSession (fst (eventListPrinter_print p r)) rs'
  end.

End EventList.

(** The events [evs] are printed by [write] as [lines], line for line. *)
Definition linesOf (write : Event -> option string) (evs : list Event)
    (lines : list string) : Prop :=
  Forall2 (fun e line => write e = Some line) evs lines.

(** Events whose timestamp, when there is one, is a number: a decoded JSON
    number is never a NaN. *)
Definition timestampIsNumber (e : Event) : Prop :=
  timestampOf e <> Some S754_nan.

(** The order in which [print] leaves two events [a], [b] with [a] first:
    an event without a numeric timestamp before one with, and timestamps
    ascending. *)
Definition inPrintOrder (a b : Event) : Prop :=
  match timestampOf a, timestampOf b with
  | Some ta, Some tb => SFleb ta tb = true
  | Some _, None => False
  | None, _ => True
  end.


(** ** [float64] *)

(** The conversion [float64(n)] of an integer: the nearest binary64 value,
    ties to even. *)
Definition float64_of_Z (n : Z) : spec_float :=
  binary_normalize 53 1024 n 0 false.

Definition float64_mul : spec_float -> spec_float -> spec_float :=
  SFmul 53 1024.

Definition float64_div : spec_float -> spec_float -> spec_float :=
  SFdiv 53 1024.

Definition isNaN (f : spec_float) : bool :=
  match f with S754_nan => true | _ => false end.

(** The conversion [int64(f)]: truncation toward zero.  For a value that
    does not fit, the result is left to the implementation by the language;
    amd64 gives the smallest [int64]. *)
Definition int64_of_float64 (f : spec_float) : Z :=
  match f with
  | S754_zero _ => 0
  | S754_finite s m e =>
      let mag := if 0 <=? e then Zpos m * 2 ^ e else Zpos m / 2 ^ (- e) in
      let z := if s then - mag else mag in
      if (minInt64 <=? z) && (z <=? maxInt64) then z else minInt64
  | _ => minInt64
  end.

(** ** Package [unicode/utf8] *)
Module utf8.

Definition byte (c : ascii) : Z := Z.of_nat (nat_of_ascii c).

(** The number of bytes the encoding that starts with [c] announces, and
    the range its second byte has to be in; [None] for a byte that starts
    no encoding. *)
Definition first (c : ascii) : option (nat * Z * Z) :=
  let b := byte c in
  if b <? 194 then None
  else if b <? 224 then Some (1%nat, 128, 191)
  else if b =? 224 then Some (2%nat, 160, 191)
  else if b =? 237 then Some (2%nat, 128, 159)
  else if b <? 240 then Some (2%nat, 128, 191)
  else if b =? 240 then Some (3%nat, 144, 191)
  else if b <? 244 then Some (3%nat, 128, 191)
  else if b =? 244 then Some (3%nat, 128, 143)
  else None.

(** [pending] bytes of a started encoding are still to come, the next one
    between [lo] and [hi]; [consumed] bytes of it are read.  An encoding
    that breaks off counts as one rune for each of its bytes. *)
Fixpoint count (pending consumed : nat) (lo hi : Z) (s : string) : nat :=
  match s with
  | EmptyString => consumed
  | String c rest =>
      let fresh :=
        if byte c <? 128 then S (count 0 0 0 0 rest)
        else match first c with
             | None => S (count 0 0 0 0 rest)
             | Some (more, lo', hi') => count more 1 lo' hi' rest
             end in
      match pending with
      | O => (consumed + fresh)%nat
      | S pending' =>
          if (lo <=? byte c) && (byte c <=? hi) then
            match pending' with
            | O => S (count 0 0 0 0 rest)
            | _ => count pending' (S consumed) 128 191 rest
            end
          else (consumed + fresh)%nat
      end
  end.

(** [utf8.RuneCountInString]. *)
Definition RuneCountInString (s : string) : nat := count 0 0 0 0 s.

End utf8.

(** ** Package [fmt] *)

Definition newline : string := String (ascii_of_nat 10) EmptyString.

(** [fmt.Sprint(v)] for a decoded JSON scalar. *)
Definition Sprint (v : Value) : string :=
  match v with
  | VNil => "<nil>"
  | VBool b => if b then "true" else "false"
  | VFloat f => strconv.FormatFloat_g f
  | VString s => s
  end.

Definition spaces (n : nat) : string := String.concat "" (repeat " "%string n).

(** [%s] under a width: padding with spaces up to [width] runes, on the
    right with the flag [-], else on the left. *)
Definition padString (minus : bool) (width : option Z) (s : string) : string :=
  match width with
  | None => s
  | Some w =>
      let fill := spaces (Z.to_nat (w - Z.of_nat (utf8.RuneCountInString s))) in
      if minus then s ++ fill else fill ++ s
  end.

(** Where the scan of a format string stands: in plain text, behind a [%]
    reading flags, or reading the digits of a width. *)
Inductive directive : Type :=
  | inText
  | inFlags (minus : bool)
  | inWidth (minus : bool) (w : Z).

Definition isDigit (c : ascii) : bool :=
  (48 <=? utf8.byte c) && (utf8.byte c <=? 57).

(** [fmt.Sprintf] on string operands, for the directives [%s], [%-s],
    [%Ns], [%-Ns] and [%%] among plain text.  [None] stands for every other
    use of [fmt]: other flags, verbs, precisions and argument indexes, a
    width of more than seven digits, a directive without operand or an
    operand without directive. *)
Fixpoint Sprintf_from (st : directive) (format : string) (args : list string)
  : option string :=
  match format with
  | EmptyString =>
      match st, args with
      | inText, [] => Some EmptyString
      | _, _ => None
      end
  | String c rest =>
      let verb (minus : bool) (width : option Z) : option string :=
        if Ascii.eqb c "s" then
          match args with
          | a :: args' =>
              option_map (String.append (padString minus width a))
                         (Sprintf_from inText rest args')
          | [] => None
          end
        else if Ascii.eqb c "%" then
          option_map (String "%") (Sprintf_from inText rest args)
        else None in
      match st with
      | inText =>
          if Ascii.eqb c "%" then Sprintf_from (inFlags false) rest args
          else option_map (String c) (Sprintf_from inText rest args)
      | inFlags minus =>
          if Ascii.eqb c "-" then Sprintf_from (inFlags true) rest args
          else if Ascii.eqb c "0" then None
          else if isDigit c then
            Sprintf_from (inWidth minus (utf8.byte c - 48)) rest args
          else verb minus None
      | inWidth minus w =>
          if isDigit c then
            if 1000000 <? w then None
            else Sprintf_from (inWidth minus (w * 10 + (utf8.byte c - 48)))
                              rest args
          else verb minus (Some w)
      end
  end.

Definition Sprintf (format : string) (args : list string) : option string :=
  Sprintf_from inText format args.

(** ** The format string of the event-list printer *)

(** [strings.Contains(field, ":")] with [strings.SplitN(field, ":", 2)]:
    the text before the first colon and the text behind it; no colon, no
    argument. *)
Fixpoint splitField (inner : string) : string * string :=
  match inner with
  | EmptyString => (EmptyString, EmptyString)
  | String c rest =>
      if Ascii.eqb c ":" then (EmptyString, rest)
      else let '(field, arg) := splitField rest in (String c field, arg)
  end.

(** [re.ReplaceAllStringFunc] for the expression [(\{[^\}]+\})] with the
    function of [newEventListPrinter]: the compiled format and the fields,
    in the order of the matches.  [open] holds the text behind an opening
    brace that is not closed yet. *)
Fixpoint compileFrom (open : option string) (template : string)
  : string * list string :=
  match template with
  | EmptyString =>
      match open with
      | None => (EmptyString, [])
      | Some inner => (String "{" inner, [])
      end
  | String c rest =>
      match open with
      | None =>
          if Ascii.eqb c "{" then compileFrom (Some EmptyString) rest
          else let '(f, fields) := compileFrom None rest in
               (String c f, fields)
      | Some inner =>
          if Ascii.eqb c "}" then
            let '(f, fields) := compileFrom None rest in
            match inner with
            | EmptyString => ("{}" +:+ f, fields)
            | _ =>
                let '(field, arg) := splitField inner in
                ("%" +:+ arg +:+ "s" +:+ f, field :: fields)
            end
          else compileFrom (Some (inner +:+ String c EmptyString)) rest
      end
  end.

Definition compileFormat (template : string) : string * list string :=
  compileFrom None template.

Section EventListPrinter.

(** [time.Local], the time zone of the machine. *)
Variable Local : time.Location.

(** The printer registered for ["@timestamp"]. *)
Definition timestampPrinter (v : Value) : option string :=
  match asFloat64 v with
  | None => None
  | Some fv =>
      let sec := Z.quot (int64_of_float64 fv) 1000 in
      let msec := Z.rem (int64_of_float64 fv) 1000 in
      Some (time.FormatRFC3339Nano Local (time.Unix sec (msec * 1000000)))
  end.

Definition fieldPrinters : gmap string (Value -> option string) :=
  {[ "@timestamp" := timestampPrinter ]}.

(** The closure [initPrintFunc] builds for a field. *)
Definition fieldPrinter (f : string) : Event -> string :=
  match fieldPrinters !! f with
  | Some printer =>
      fun m =>
        match printer (at_key m f) with
        | Some str => str
        | None => Sprint (at_key m f)
        end
  | None => fun m => Sprint (at_key m f)
  end.

Definition initPrintFunc (compiled : string) (fields : list string)
  : Event -> option string :=
  let printers := map fieldPrinter fields in
  fun m =>
    Sprintf (compiled +:+ newline) (map (fun printer => printer m) printers).

Definition newEventListPrinter (template : string) : eventListPrinter :=
  let '(compiled, fields) := compileFormat template in
  {| printedIds := ∅; printFields := fields;
     printEventFunc := initPrintFunc compiled fields; fmt := compiled |}.

End EventListPrinter.

(** ** The aggregate printer *)

Record aggregatePrinter := {
  columns : list string;
  noWrap : bool
}.

Definition newAggregatePrinter (noWrap : bool) : aggregatePrinter :=
  {| columns := []; noWrap := noWrap |}.

(** The body of the loop over the keys of an event: [f] and [m]. *)
Definition scanKey (st : list string * gmap string bool) (k : string)
  : list string * gmap string bool :=
  let '(f, m) := st in
  if negb (isPrinted m k) then (f ++ [k], <[k := true]> m) else (f, m).

(** The columns [print] derives when the metadata gives no field order:
    [f] starts as the columns known so far, [m] starts empty. *)
Definition deriveColumns (known : list string) (evs : list Event)
  : list string :=
  fst (fold_left (fun st e => fold_left scanKey (map fst e) st) evs
         (known, (∅ : gmap string bool))).

(** What [print] writes: nothing, one bare value, or a table handed to
    [tablewriter] followed by an empty line. *)
Inductive aggregateOutput : Type :=
  | nothing
  | bareValue (line : string)
  | table (header : list string) (autoWrap : bool) (rows : list (list string)).

Definition tableRow (cols : list string) (e : Event) : list string :=
  map (fun c => match index e c with
                | Some v => Sprint v
                | None => EmptyString
                end) cols.

Definition aggregatePrinter_print (p : aggregatePrinter) (r : QueryResult)
  : aggregatePrinter * aggregateOutput :=
  let cols :=
    match FieldOrder (Metadata r) with
    | _ :: _ => FieldOrder (Metadata r)
    | [] => deriveColumns (columns p) (Events r)
    end in
  let p' := {| columns := cols; noWrap := noWrap p |} in
  match cols, Events r with
  | [], _ => (p', nothing)
  | [c], [e] => (p', bareValue (Sprint (at_key e c) +:+ newline))
  | _, evs => (p', table cols (negb (noWrap p)) (map (tableRow cols) evs))
  end.

(** ** Progress *)

Record queryResultProgressBar := {
  barWorkDone : Z;          (* what [b.bar.Set] was last given *)
  barTotalWork : Z;
  epsValue : spec_float;
  bpsValue : spec_float;
  hits : Z
}.

Definition newQueryResultProgressBar : queryResultProgressBar :=
  {| barWorkDone := 0; barTotalWork := 0;
     epsValue := S754_nan; bpsValue := S754_nan; hits := 0 |}.

(** [float64(quantity) / float64(timeMillis) * 1000]. *)
Definition perSecond (quantity timeMillis : Z) : spec_float :=
  float64_mul (float64_div (float64_of_Z quantity) (float64_of_Z timeMillis))
              (float64_of_Z 1000).

Definition Update (b : queryResultProgressBar) (r : QueryResult)
  : queryResultProgressBar :=
  let md := Metadata r in
  {| barWorkDone := WorkDone md;
     barTotalWork := TotalWork md;
     epsValue := if 0 <? TimeMillis md
                 then perSecond (ProcessedEvents md) (TimeMillis md)
                 else epsValue b;
     bpsValue := if 0 <? TimeMillis md
                 then perSecond (ProcessedBytes md) (TimeMillis md)
                 else bpsValue b;
     hits := EventCount md |}.

Section BarAnnotations.

(** [prompt.AddSISuffix]; package [prompt] is not part of the sources. *)
Variable AddSISuffix : spec_float -> bool -> spec_float * string.

Definition additionalInfoEps (b : queryResultProgressBar) : string :=
  if negb (isNaN (epsValue b)) then
    let '(v, suffix) := AddSISuffix (epsValue b) false in
    strconv.FormatFloat_f1 v +:+ " " +:+ suffix +:+ " events/s"
  else EmptyString.

Definition additionalInfoBps (b : queryResultProgressBar) : string :=
  if negb (isNaN (bpsValue b)) then
    let '(v, suffix) := AddSISuffix (bpsValue b) true in
    strconv.FormatFloat_f1 v +:+ " " +:+ suffix +:+ "B/s"
  else EmptyString.

Definition additionalInfoHits (b : queryResultProgressBar) : string :=
  let '(v, suffix) := AddSISuffix (float64_of_Z (hits b)) false in
  strconv.FormatFloat_f1 v +:+ " " +:+ suffix +:+ " events".

End BarAnnotations.

Record queryResultProgressJson := {
  json_Timestamp : Z;
  json_StartMillis : Z;
  json_Repo : string;
  json_QueryString : string;
  json_Start : Z;
  json_End : Z;
  json_TotalWork : Z;
  json_WorkDone : Z;
  json_TimeMillis : Z;
  json_EpsValue : spec_float;
  json_BpsValue : spec_float;
  json_EventCount : Z;
  json_Done : bool
}.

(** ** Package [encoding/json] *)
Module json.

Inductive value : Type :=
  | Int (n : Z)
  | Float (f : spec_float)
  | Str (s : string)
  | Bool (b : bool).

(** The text of a [float64]: none for NaN and the infinities, which
    [Marshal] refuses; else the shortest digits, with an exponent below
    [1e-6] and from [1e21] on. *)
Definition floatText (f : spec_float) : option string :=
  match f with
  | S754_nan | S754_infinity _ => None
  | S754_zero s => Some (strconv.signed s "0")
  | S754_finite s m e =>
      let d := strconv.shortest m e in
      let exp := strconv.dp d - 1 in
      Some (strconv.signed s
        (if (exp <? -6) || (21 <=? exp) then
           let ds := strconv.digits (strconv.dig d) in
           match ds with
           | String c EmptyString => String c EmptyString
           | String c rest => String c (String "." rest)
           | EmptyString => "0"
           end +:+ "e" +:+ (if exp <? 0 then "-" else "+")
               +:+ strconv.digits (Z.abs exp)
         else strconv.fmtF d))
  end.

(** The text of a number or boolean member. *)
Definition scalarText (v : value) : option string :=
  match v with
  | Int n => Some (strconv.Itoa n)
  | Float f => floatText f
  | Bool b => Some (if b then "true" else "false")
  | Str _ => None
  end.

(** [json.Marshal] of a [queryResultProgressJson]: the members of the
    object in the order of the fields, under the names of their tags; an
    error for a [float64] that is NaN or infinite. *)
Definition Marshal (r : queryResultProgressJson)
  : option (list (string * value)) :=
  match floatText (json_EpsValue r), floatText (json_BpsValue r) with
  | Some _, Some _ =>
      Some [
        ("timestamp", Int (json_Timestamp r));
        ("startMillis", Int (json_StartMillis r));
        ("repo", Str (json_Repo r));
        ("queryString", Str (json_QueryString r));
        ("start", Int (json_Start r));
        ("end", Int (json_End r));
        ("totalWork", Int (json_TotalWork r));
        ("workDone", Int (json_WorkDone r));
        ("timeMillis", Int (json_TimeMillis r));
        ("epsValue", Float (json_EpsValue r));
        ("bpsValue", Float (json_BpsValue r));
        ("eventCount", Int (json_EventCount r));
        ("done", Bool (json_Done r))
      ]
  | _, _ => None
  end.

End json.

(** The record [printQueryResultProgressJson] builds when the clock shows
    [now]. *)
Definition progressRecord (r : QueryResult) (repo queryString : string)
    (startMillis : Z) (now : time.Time) : queryResultProgressJson :=
  let md := Metadata r in
  {| json_Timestamp := now / 1000000;
     json_StartMillis := startMillis;
     json_Repo := repo;
     json_QueryString := queryString;
     json_Start := QueryStart md;
     json_End := QueryEnd md;
     json_TotalWork := TotalWork md;
     json_WorkDone := WorkDone md;
     json_TimeMillis := TimeMillis md;
     json_EpsValue := if 0 <? TimeMillis md
                      then perSecond (ProcessedEvents md) (TimeMillis md)
                      else S754_zero false;
     json_BpsValue := if 0 <? TimeMillis md
                      then perSecond (ProcessedBytes md) (TimeMillis md)
                      else S754_zero false;
     json_EventCount := EventCount md;
     json_Done := Done r |}.

(** [printQueryResultProgressJson]: the object [json.Marshal] encodes, or
    none on its error. *)
Definition printQueryResultProgressJson (r : QueryResult)
    (repo queryString : string) (startMillis : Z) (now : time.Time)
  : option (list (string * json.value)) :=
  json.Marshal (progressRecord r repo queryString startMillis now).

(** ** The [search] command *)

Record Flags := {
  flag_start : string;
  flag_end : string;
  flag_live : bool;
  flag_fmt : string;
  flag_noWrap : bool;
  flag_noProgress : bool;
  flag_jsonProgress : bool
}.

(** The value behind the interface [printer]. *)
Inductive resultPrinter : Type :=
  | aggregate (p : aggregatePrinter)
  | eventList (p : eventListPrinter).

(** What a run of the command shows or does, in order. *)
Inductive Output : Type :=
  | barStart                                      (* the bar appears *)
  | barUpdate (b : queryResultProgressBar)        (* [progress.Update] *)
  | barFinish                                     (* [progress.Finish] *)
  | jsonLine (line : option (list (string * json.value)))
                                                  (* a progress record *)
  | eventLines (text : option string)             (* the event printer *)
  | aggregateText (out : aggregateOutput)         (* the aggregate printer *)
  | jobDeleted                                    (* the deferred [Delete] *)
  | queryErrorText (msg : string)                 (* the query-error text *)
  | errorText (message : string) (e : error).     (* [exitOnError] *)

(** How far the function literal of [Run] got: it returned an error value,
    or it waits for a poll the world has not answered yet. *)
Inductive Progress : Type :=
  | returns (e : option error)
  | waiting.

(** The exit status of the process: the number the code hands to
    [os.Exit] (0 when the command returns), or the status [exitOnError]
    exits with, of which nothing is known but that it is not zero. *)
Inductive ExitStatus : Type :=
  | exited (code : Z)
  | exitedNonZero.

(** Modelled from the spec: [exitOnError], a helper of package [main] that
    is not part of the sources.  Section 7: an error is reported and the
    process exits with a non-zero status; without an error the command
    goes on. *)
Definition exitOnError (e : option error) (message : string)
  : list Output * option ExitStatus :=
  match e with
  | Some e' => ([errorText message e'], Some exitedNonZero)
  | None => ([], None)
  end.

Section Search.

Context `{SortSlice}.
Variable Local : time.Location.

Variables (repo queryString : string).
Variable ctxDone : option time.Time.     (* when the interrupt arrives *)
Variable startMillis : Z.

Definition print (pr : resultPrinter) (r : QueryResult)
  : resultPrinter * Output :=
  match pr with
  | aggregate p =>
      let '(p', out) := aggregatePrinter_print p r in
      (aggregate p', aggregateText out)
  | eventList p =>
      let '(p', text) := eventListPrinter_print p r in
      (eventList p', eventLines text)
  end.

Definition progressJson (r : QueryResult) (now : time.Time) : Output :=
  jsonLine (printQueryResultProgressJson r repo queryString startMillis now).

(** The loop of live mode: poll, print, again. *)
Fixpoint liveLoop (pr : resultPrinter) (q : queryJobPoller)
    (now : time.Time) (envs : list PollEnv) : list Output * Progress :=
  match envs with
  | [] => ([], waiting)
  | env :: envs' =>
      let o := WaitAndPollContext q ctxDone now env in
      match err o with
      | Some e => ([], returns (Some e))
      | None =>
          let '(pr', out) := print pr (result o) in
          let '(outs, st) := liveLoop pr' (poller o) (returned o) envs' in
          (out :: outs, st)
      end
  end.

(** From the end of the loop [for !result.Done] to the end of the
    function literal. *)
Definition finish (fl : Flags) (progress : option queryResultProgressBar)
    (pr : resultPrinter) (q : queryJobPoller) (now : time.Time)
    (r : QueryResult) (envs : list PollEnv) : list Output * Progress :=
  let bar := match progress with
             | Some b => [barUpdate (Update b r); barFinish]
             | None => []
             end in
  let json := if flag_jsonProgress fl then [progressJson r now] else [] in
  let '(pr', shown) :=
    if negb (flag_jsonProgress fl) then
      let '(pr', out) := print pr r in (pr', [out])
    else (pr, []) in
  let '(outs, st) :=
    if flag_live fl then liveLoop pr' q now envs
    else ([], returns None) in
  (bar ++ json ++ shown ++ outs, st).

(** The loop [for !result.Done], entered with the result of a poll, and
    what follows it. *)
Fixpoint pollLoop (fl : Flags) (progress : option queryResultProgressBar)
    (pr : resultPrinter) (q : queryJobPoller) (now : time.Time)
    (r : QueryResult) (envs : list PollEnv) : list Output * Progress :=
  if Done r then finish fl progress pr q now r envs
  else
    let progress' := option_map (fun b => Update b r) progress in
    let bar := match progress' with
               | Some b => [barUpdate b]
               | None => []
               end in
    let json := if flag_jsonProgress fl then [progressJson r now] else [] in
    match envs with
    | [] => (bar ++ json, waiting)
    | env :: envs' =>
        let o := WaitAndPollContext q ctxDone now env in
        match err o with
        | Some e => (bar ++ json, returns (Some e))
        | None =>
            let '(outs, st) :=
              pollLoop fl progress' pr (poller o) (returned o) (result o)
                       envs' in
            (bar ++ json ++ outs, st)
        end
    end.

(** The function literal of [Run]: create the job, poll, print; the job
    is deleted on the way out once it was created. *)
Definition searchBody (fl : Flags) (created : string * option error)
    (now : time.Time) (envs : list PollEnv) : list Output * Progress :=
  let noProgress := flag_noProgress fl || flag_jsonProgress fl in
  match created with
  | (_, Some e) => ([], returns (Some e))
  | (jobId, None) =>
      let progress :=
        if negb noProgress then Some newQueryResultProgressBar else None in
      let bar := match progress with Some _ => [barStart] | None => [] end in
      let '(outs, st) :=
        match envs with
        | [] => ([], waiting)
        | env :: envs' =>
            let o :=
              WaitAndPollContext (newPoller repo jobId) ctxDone now env in
            match err o with
            | Some e => ([], returns (Some e))
            | None =>
                let pr :=
                  if IsAggregate (Metadata (result o))
                  then aggregate (newAggregatePrinter (flag_noWrap fl))
                  else eventList (newEventListPrinter Local (flag_fmt fl)) in
                pollLoop fl progress pr (poller o) (returned o) (result o)
                         envs'
            end
        end in
      (bar ++ outs
       ++ match st with returns _ => [jobDeleted] | waiting => [] end,
       st)
  end.

(** [Run]: what is shown, and the exit status of the process once the
    command is over. *)
Definition Run (fl : Flags) (created : string * option error)
    (now : time.Time) (envs : list PollEnv)
  : list Output * option ExitStatus :=
  match searchBody fl created now envs with
  | (outs, waiting) => (outs, None)
  | (outs, returns e) =>
      let e := match e with
               | Some context_Canceled => None
               | _ => e
               end in
      match e with
      | Some (QueryError msg) =>
          (outs ++ [queryErrorText msg], Some (exited 1))
      | _ =>
          match exitOnError e "error running search" with
          | (shown, Some status) => (outs ++ shown, Some status)
          | (shown, None) => (outs ++ shown, Some (exited 0))
          end
      end
  end.

End Search.

(** ** What the specification says of the format string

    A template is a sequence of literal text and bracketed references; a
    reference names a field and may carry a modifier behind a colon. *)

Inductive segment : Type :=
  | literal (text : string)
  | reference (field : string) (modifier : option string).

Definition segmentText (seg : segment) : string :=
  match seg with
  | literal text => text
  | reference field None => "{" +:+ field +:+ "}"
  | reference field (Some m) => "{" +:+ (field +:+ String ":" m) +:+ "}"
  end.

Definition templateOf (segs : list segment) : string :=
  String.concat "" (map segmentText segs).

(** The formatting slot a segment turns into, and the fields recorded. *)
Definition slotOf (seg : segment) : string :=
  match seg with
  | literal text => text
  | reference _ None => "%s"
  | reference _ (Some m) => String "%" (m +:+ "s")
  end.

Definition fieldsOf (segs : list segment) : list string :=
  omap (fun seg => match seg with
                   | literal _ => None
                   | reference field _ => Some field
                   end) segs.

(** [c] does not occur in [s]. *)
Fixpoint lacks (c : ascii) (s : string) : bool :=
  match s with
  | EmptyString => true
  | String c' rest => negb (Ascii.eqb c' c) && lacks c rest
  end.

(** What makes the segments of a template the matches of the expression:
    literal text has no opening brace; a field name has no closing brace and
    no colon, a modifier has no closing brace, and the text between the
    braces is not empty. *)
Definition bracketed (seg : segment) : bool :=
  match seg with
  | literal text => lacks "{" text
  | reference field None =>
      lacks "}" field && lacks ":" field && negb (String.eqb field "")
  | reference field (Some m) =>
      lacks "}" field && lacks ":" field && lacks "}" m
  end.

(** A signed integer: the sign, and the digits of the width. *)
Definition signAndDigits (m : string) : bool * string :=
  match m with
  | String "-" ds => (true, ds)
  | _ => (false, m)
  end.

(** The number a string of decimal digits stands for, behind [w]. *)
Fixpoint scanDigits (w : Z) (ds : string) : Z :=
  match ds with
  | EmptyString => w
  | String c rest => scanDigits (w * 10 + (utf8.byte c - 48)) rest
  end.

(** Fixed-width alignment: a positive width aligns to the right and pads
    on the left, a negative one aligns to the left and pads on the right. *)
Definition aligned (modifier : option string) (s : string) : string :=
  match modifier with
  | None => s
  | Some m =>
      let '(leftAlign, ds) := signAndDigits m in
      let fill :=
        spaces (Z.to_nat (scanDigits 0 ds
                          - Z.of_nat (utf8.RuneCountInString s))) in
      if leftAlign then s +:+ fill else fill +:+ s
  end.

(** The text of a field: the timestamp as RFC 3339 with nanoseconds when
    the field is ["@timestamp"] and holds a number, the plain text of the
    value otherwise. *)
Definition fieldText (Local : time.Location) (e : Event) (field : string)
  : string :=
  match String.eqb field "@timestamp", at_key e field with
  | true, VFloat ms =>
      time.FormatRFC3339Nano Local
        (time.Unix (Z.quot (int64_of_float64 ms) 1000)
                   (Z.rem (int64_of_float64 ms) 1000 * 1000000))
  | _, v => Sprint v
  end.

Definition segmentOutput (Local : time.Location) (e : Event) (seg : segment)
  : string :=
  match seg with
  | literal text => text
  | reference field modifier => aligned modifier (fieldText Local e field)
  end.

Fixpoint allDigits (s : string) : bool :=
  match s with
  | EmptyString => true
  | String c rest => isDigit c && allDigits rest
  end.

(** A width the model of [fmt] covers: one to seven digits, the first not
    a zero. *)
Definition plainWidth (ds : string) : bool :=
  match ds with
  | EmptyString => false
  | String c _ =>
      negb (Ascii.eqb c "0") && allDigits ds
      && (Nat.leb (String.length ds) 7)
  end.

(** The templates whose output the model of [fmt] covers: literal text
    without percent sign, and modifiers that are signed integers. *)
Definition printable (seg : segment) : bool :=
  match seg with
  | literal text => lacks "%" text
  | reference _ None => true
  | reference _ (Some m) => plainWidth (snd (signAndDigits m))
  end.

(** An event without a numeric timestamp. *)
Definition hasNoTimestamp (e : Event) : bool :=
  match timestampOf e with Some _ => false | None => true end.

(** ** Predicates of the statements *)

(** The sorted part of an insertion sort, last element first: nothing is
    less than an element to its left. *)
Definition sortedRev {A} (less : A -> A -> bool) (acc : list A) : Prop :=
  StronglySorted (fun later earlier => less later earlier = false) acc.

Definition notNaN (f : spec_float) : Prop := f <> S754_nan.

(** The order C3 states for two events [a], [b] with [a] first: timestamps
    ascending, and no event without timestamp before one with. *)
Definition claimedOrder (a b : Event) : Prop :=
  match timestampOf a, timestampOf b with
  | Some ta, Some tb => SFleb ta tb = true
  | None, Some _ => False
  | _, None => True
  end.

(** The state of the loop that derives the columns: no column twice, and
    the map holds exactly the columns. *)
Definition columnsSeen (st : list string * gmap string bool) : Prop :=
  NoDup (fst st) /\
  forall k, isPrinted (snd st) k = true <-> In k (fst st).


(** The outputs of the progress bar. *)
Definition isBar (o : Output) : bool :=
  match o with
  | barStart | barUpdate _ | barFinish => true
  | _ => false
  end.

(** The outputs of a run that shows progress records and nothing else. *)
Definition isProgressRecord (o : Output) : bool :=
  match o with
  | jsonLine _ | jobDeleted => true
  | _ => false
  end.

(** ** Sample inputs *)

Definition number (n : Z) : Value := VFloat (float64_of_Z n).

Definition pollAfter500 : QueryResult :=
  {| Done := false;
     Metadata := {| IsAggregate := false; TotalWork := 10; WorkDone := 1;
                    TimeMillis := 20; ProcessedEvents := 0;
                    ProcessedBytes := 0; EventCount := 0; PollAfter := 500;
                    FieldOrder := []; QueryStart := 0; QueryEnd := 0 |};
     Events := [] |}.

Definition promptReply : PollEnv :=
  {| timerLag := 0; timerWinsTie := true; pollLatency := 7000000;
     pollReply := (pollAfter500, None) |}.

Definition failingReply : PollEnv :=
  {| timerLag := 0; timerWinsTie := true; pollLatency := 7000000;
     pollReply := (emptyResult, Some (otherError "connection refused")) |}.

Definition answering (r : QueryResult) : PollEnv :=
  {| timerLag := 0; timerWinsTie := true; pollLatency := 5000000;
     pollReply := (r, None) |}.

Definition aggregateSnapshot (evs : list Event) : QueryResult :=
  {| Done := true;
     Metadata := {| IsAggregate := true; TotalWork := 1; WorkDone := 1;
                    TimeMillis := 3; ProcessedEvents := 2;
                    ProcessedBytes := 64; EventCount := 1; PollAfter := 500;
                    FieldOrder := []; QueryStart := 0; QueryEnd := 0 |};
     Events := evs |}.

Definition eventSnapshot (evs : list Event) : QueryResult :=
  {| Done := true;
     Metadata := {| IsAggregate := false; TotalWork := 1; WorkDone := 1;
                    TimeMillis := 3; ProcessedEvents := 2;
                    ProcessedBytes := 64; EventCount := 2; PollAfter := 500;
                    FieldOrder := []; QueryStart := 0; QueryEnd := 0 |};
     Events := evs |}.

Definition stalledSnapshot : QueryResult :=
  {| Done := false;
     Metadata := {| IsAggregate := false; TotalWork := 10; WorkDone := 0;
                    TimeMillis := 0; ProcessedEvents := 0;
                    ProcessedBytes := 0; EventCount := 0; PollAfter := 500;
                    FieldOrder := []; QueryStart := 0; QueryEnd := 0 |};
     Events := [] |}.

Definition sampleEvent : Event :=
  [("@timestamp", number 1700000000000); ("@rawstring", VString "hello")].

Definition timestampTemplate : list segment :=
  [reference "@timestamp" (Some "40"); literal " ";
   reference "@rawstring" None].

Definition unstampedNamed (name : string) : Event :=
  [("@rawstring", VString name)].

Definition stamped (n : Z) : Event :=
  [("@timestamp", number n); ("@rawstring", VString "stamped")].

Definition unstamped : Event := [("@rawstring", VString "no timestamp")].

Definition firstEvent : Event :=
  [("@id", VString "e1"); ("@timestamp", number 1700000000000);
   ("@rawstring", VString "first")].

Definition secondEvent : Event :=
  [("@id", VString "e2"); ("@timestamp", number 1700000001000);
   ("@rawstring", VString "second")].

Definition defaultPrinter : eventListPrinter :=
  newEventListPrinter time.UTC "{@timestamp} {@rawstring}".

Definition plainFlags (live jsonProgress : bool) : Flags :=
  {| flag_start := "10m"; flag_end := ""; flag_live := live;
     flag_fmt := "{@timestamp} {@rawstring}"; flag_noWrap := false;
     flag_noProgress := false; flag_jsonProgress := jsonProgress |}.


(** ** Runs of the poller *)

(** The calls of [WaitAndPollContext] a loop of [Run] makes: each is
    entered when the one before has returned, and the first error ends the
    loop.  For every call: the poller and the clock it found, and what it
    left behind. *)
Fixpoint pollSession (q : queryJobPoller) (ctxDone : option time.Time)
    (now : time.Time) (envs : list PollEnv)
  : list (queryJobPoller * time.Time * PollOutcome) :=
  match envs with
  | [] => []
  | env :: envs' =>
      let o := WaitAndPollContext q ctxDone now env in
      (q, now, o)
      :: match err o with
         | Some _ => []
         | None => pollSession (poller o) ctxDone (returned o) envs'
         end
  end.

(** The instants of all the requests of a run, in the order of the calls. *)
Definition requestsOf (calls : list (queryJobPoller * time.Time * PollOutcome))
  : list time.Time :=
  concat (map (fun call => requests (snd call)) calls).



(** The outputs of the two result printers. *)
Definition isData (o : Output) : bool :=
  match o with
  | eventLines _ | aggregateText _ => true
  | _ => false
  end.

Definition isEventLines (o : Output) : bool :=
  match o with eventLines _ => true | _ => false end.

Definition isAggregateText (o : Output) : bool :=
  match o with aggregateText _ => true | _ => false end.

Definition isJobDeleted (o : Output) : bool :=
  match o with jobDeleted => true | _ => false end.


(** The snapshot on which the loop [for !result.Done] ends when it is
    entered with [r] and the polls are answered by [replies]: the first
    one that is [Done], unless a poll fails before. *)
Fixpoint firstDone (r : QueryResult) (replies : list PollEnv)
  : option QueryResult :=
  if Done r then Some r
  else match replies with
       | [] => None
       | env :: rest =>
           match snd (pollReply env) with
           | Some _ => None
           | None => firstDone (fst (pollReply env)) rest
           end
       end.

(** The printer [Run] makes for the first snapshot [r]. *)
Definition printerFor (Local : time.Location) (fl : Flags) (r : QueryResult)
  : resultPrinter :=
  if IsAggregate (Metadata r)
  then aggregate (newAggregatePrinter (flag_noWrap fl))
  else eventList (newEventListPrinter Local (flag_fmt fl)).

(** The output of the other kind of printer. *)
Definition foreignTo (pr : resultPrinter) (o : Output) : bool :=
  match pr with
  | aggregate _ => isEventLines o
  | eventList _ => isAggregateText o
  end.

(** * The migration of legacy alerts *)

Module alerts.

(** Go's [int], 64 bits wide: the operations wrap around. *)
Definition sub (x y : Z) : Z := wrap64 (x - y).
Definition mul (x y : Z) : Z := wrap64 (x * y).

(** ** [absDiff], [getClosest], [getValidSearchIntervalSeconds] *)

Definition absDiff (x y : Z) : Z :=
  if x <? y then sub y x else sub x y.

(** The body of the loop of [getClosest] for the index [i]. *)
Definition closer (n : Z) (input : list Z) (curr i : nat) : nat :=
  match input !! i, input !! curr with
  | Some a, Some b => if absDiff n a <? absDiff n b then i else curr
  | _, _ => curr
  end.

(** [getClosest]; [None] stands for the panic of [input[curr]] on an
    empty slice. *)
Definition getClosest (n : Z) (input : list Z) : option Z :=
  input !! fold_left (closer n input) (seq 0 (length input)) 0%nat.

(** Where the loop of [getClosest] stands when it has looked at the
    indexes below [k]: [curr] is the first index among them whose element
    compares closest. *)
Definition leading (n : Z) (input : list Z) (k curr : nat) : Prop :=
  (curr < Nat.max k 1)%nat /\
  forall c, input !! curr = Some c ->
    forall j v, (j < k)%nat -> input !! j = Some v ->
      absDiff n c <= absDiff n v /\
      ((j < curr)%nat -> absDiff n c < absDiff n v).

(** [for i := lo; i <= hi; i += step], the values of [i] in the body. *)
Fixpoint countFrom (fuel : nat) (i hi step : Z) : list Z :=
  match fuel with
  | O => []
  | S fuel' => if i <=? hi then i :: countFrom fuel' (i + step) hi step
               else []
  end.

Definition forLoop (lo hi step : Z) : list Z :=
  countFrom (Z.to_nat (hi - lo + 1)) lo hi step.

Definition getValidSearchIntervalSeconds : list Z :=
  map (fun i => mul i 60) (forLoop 1 80 1)
  ++ map (fun j => mul j 60) (forLoop 82 180 2)
  ++ map (fun k => mul (mul k 60) 60) (forLoop 4 24 1).

(** ** [getSecondsFromQueryStart] *)

Definition containsString (strings : list string) (s : string) : bool :=
  existsb (fun s' => String.eqb s' s) strings.

(** The longest run of decimal digits a string starts with, and what
    follows it. *)
Fixpoint spanDigits (s : string) : string * string :=
  match s with
  | EmptyString => (EmptyString, EmptyString)
  | String c rest =>
      if isDigit c then
        let '(ds, tail) := spanDigits rest in (String c ds, tail)
      else (EmptyString, s)
  end.

(** The texts the second group of the expression matches. *)
Definition unitTexts : list string :=
  ["years"; "year"; "y"; "yrs"; "yr";
   "quarters"; "quarter"; "q"; "qtrs"; "qtr";
   "months"; "month"; "mon";
   "weeks"; "week"; "w";
   "days"; "day"; "d";
   "hours"; "hour"; "hr"; "h"; "hrs";
   "minutes"; "minute"; "m"; "min";
   "seconds"; "second"; "s"; "secs"; "sec";
   "milliseconds"; "millisecond"; "milli"; "ms"].

(** [FindStringSubmatch] for the expression of [getSecondsFromQueryStart]:
    the two groups of the match, which is the whole string or none: one
    or more digits, at most one blank, one of the units. *)
Definition FindStringSubmatch (s : string) : option (string * string) :=
  let '(ds, rest) := spanDigits s in
  match ds with
  | EmptyString => None
  | _ =>
      let unit := match rest with
                  | String " " rest' => rest'
                  | _ => rest
                  end in
      if containsString unitTexts unit then Some (ds, unit) else None
  end.

(** The number a string of decimal digits stands for. *)
Fixpoint valueOf (acc : Z) (ds : string) : Z :=
  match ds with
  | EmptyString => acc
  | String c rest => valueOf (acc * 10 + (utf8.byte c - 48)) rest
  end.

(** [strconv.Atoi] on a string of decimal digits, which is what the first
    group of the expression is: the number, unless it is beyond the
    largest [int]. *)
Definition Atoi (ds : string) : Z * option error :=
  let n := valueOf 0 ds in
  if n <=? maxInt64 then (n, None)
  else (maxInt64,
        Some (otherError ("strconv.Atoi: parsing "
                          +:+ String (ascii_of_nat 34) ds
                          +:+ String (ascii_of_nat 34)
                                ": value out of range"))).

Definition getSecondsFromQueryStart (queryStart : string)
  : Z * option error :=
  match FindStringSubmatch queryStart with
  | None => (0, Some (otherError "cannot parse query start"))
  | Some (digits, unit) =>
      match Atoi digits with
      | (_, Some e) => (0, Some e)
      | (n, None) =>
          if containsString ["milliseconds"; "millisecond"; "milli"; "ms"]
               unit then
            if n <? 1000 then
              (0, Some (otherError
                          "queryStart must be larger than 1000 milliseconds"))
            else (Z.quot n 1000, None)
          else if containsString
                    ["seconds"; "second"; "secs"; "sec"; "s"] unit then
            (n, None)
          else if containsString ["minutes"; "minute"; "min"; "m"] unit then
            (mul n 60, None)
          else if containsString ["hours"; "hour"; "hr"; "h"] unit then
            (mul (mul n 60) 60, None)
          else if containsString ["days"; "day"; "d"] unit then
            (mul (mul (mul n 60) 60) 24, None)
          else if containsString ["weeks"; "week"; "w"] unit then
            (mul (mul (mul (mul n 60) 60) 24) 7, None)
          else if containsString ["months"; "month"; "mon"] unit then
            (mul (mul (mul (mul n 60) 60) 24) 30, None)
          else if containsString
                    ["quarters"; "quarter"; "qtrs"; "qtr"; "q"] unit then
            (mul (mul (mul (mul n 60) 60) 24) 90, None)
          else if containsString
                    ["years"; "year"; "yr"; "yrs"; "y"] unit then
            (mul (mul (mul (mul n 60) 60) 24) 365, None)
          else (0, Some (otherError "unexpected matching"))
      end
  end.

(** The seconds in the units that are counted in whole seconds, under
    each of their spellings: a month has 30 days, a quarter 90 and a year
    365. *)
Definition secondsIn : list (string * Z) :=
  [("seconds", 1); ("second", 1); ("secs", 1); ("sec", 1); ("s", 1);
   ("minutes", 60); ("minute", 60); ("min", 60); ("m", 60);
   ("hours", 3600); ("hour", 3600); ("hr", 3600); ("h", 3600);
   ("days", 86400); ("day", 86400); ("d", 86400);
   ("weeks", 604800); ("week", 604800); ("w", 604800);
   ("months", 2592000); ("month", 2592000); ("mon", 2592000);
   ("quarters", 7776000); ("quarter", 7776000); ("qtrs", 7776000);
   ("qtr", 7776000); ("q", 7776000);
   ("years", 31536000); ("year", 31536000); ("yrs", 31536000);
   ("yr", 31536000); ("y", 31536000)].

(** A number as it is written in a query start: decimal digits, at least
    one, for a number that fits an [int]. *)
Definition numeral (ds : string) : Prop :=
  ds <> EmptyString /\ allDigits ds = true /\ valueOf 0 ds <= maxInt64.

(** The blank between number and unit, or none. *)
Definition blank (b : bool) : string := if b then " " else "".

(** ** [migrateLegacyAlert] *)

(** [shortName]: the bytes [Name[:17]] and three dots for a name of
    twenty bytes or more. *)
Fixpoint firstBytes (n : nat) (s : string) : string :=
  match n, s with
  | S n', String c rest => String c (firstBytes n' rest)
  | _, _ => EmptyString
  end.

Definition shortNameOf (name : string) : string :=
  if 20 <=? Z.of_nat (String.length name)
  then firstBytes 17 name +:+ "..."
  else name.

(** [throttleTimeSeconds] before the search interval is looked at. *)
Definition throttleSeconds (throttleTimeMillis : Z) : Z :=
  if negb (throttleTimeMillis =? 0) then
    if 24 * 60 * 60 * 1000 <? throttleTimeMillis then 24 * 60 * 60
    else if throttleTimeMillis <? 60 * 1000 then 60
    else Z.quot throttleTimeMillis 1000
  else 0.

Section Migration.

(** The fields of an alert that the migration hands on as they are
    ([Description], [QueryString], [Actions], [Labels], [Enabled],
    [ThrottleField], [QueryOwnershipType], [RunAsUserID]), and the type of
    [TriggerMode] with its zero value; package [api] is not part of the
    sources. *)
Variable Payload : Type.
Variable Mode : Type.
Variable noMode : Mode.

Record Alert := {
  ID : string;
  Name : string;
  QueryStart : string;
  ThrottleTimeMillis : Z;
  handedOn : Payload
}.

Record AggregateAlert := {
  agg_ID : string;
  agg_Name : string;
  SearchIntervalSeconds : Z;
  ThrottleTimeSeconds : Z;
  QueryTimestampType : string;
  TriggerMode : Mode;
  agg_handedOn : Payload
}.

(** What the service answers to the three requests of a migration. *)
Record Client := {
  Create : string -> AggregateAlert -> AggregateAlert * option error;
  Delete : string -> string -> option error;
  Update : string -> AggregateAlert -> AggregateAlert * option error
}.

(** The lines [migrateLegacyAlert] prints, without their prefix. *)
Inductive Message : Type :=
  | migrating (name id : string)
  | failedQueryStart (queryStart : string) (e : error)
  | failedInterval (queryStart : string) (seconds millis : Z)
  | failedCreate (input : AggregateAlert) (e : error)
  | createdAlert (name : string)
  | failedDelete (name : string)
  | deletedLegacy (name : string)
  | failedRename (from to : string)
  | renamed (from to : string).

(** What a migration does, in order: lines with their prefix of progress
    and short name, and requests to the service. *)
Inductive Step : Type :=
  | say (progress shortName : string) (m : Message)
  | callCreate (view : string) (a : AggregateAlert)
  | callDelete (view name : string)
  | callUpdate (view : string) (a : AggregateAlert).

(** [migrateLegacyAlert], when the clock shows [nowMillis] milliseconds. *)
Definition migrateLegacyAlert (legacyAlert : Alert) (client : Client)
    (viewName : string) (i size : Z) (nowMillis : Z) : list Step :=
  let progress := strconv.Itoa i +:+ "/" +:+ strconv.Itoa size in
  let shortName := shortNameOf (Name legacyAlert) in
  let line := say progress shortName in
  line (migrating (Name legacyAlert) (ID legacyAlert))
  :: match getSecondsFromQueryStart (QueryStart legacyAlert) with
     | (_, Some e) => [line (failedQueryStart (QueryStart legacyAlert) e)]
     | (queryStartSeconds, None) =>
         let searchIntervalSeconds :=
           getClosest queryStartSeconds getValidSearchIntervalSeconds in
         match searchIntervalSeconds with
         | None => []   (* the panic on an empty slice of intervals *)
         | Some searchIntervalSeconds =>
             let tempName :=
               Name legacyAlert +:+ "-" +:+ strconv.Itoa nowMillis in
             let intervalModified :=
               negb (queryStartSeconds =? searchIntervalSeconds) in
             let throttled :=
               if intervalModified then
                 if queryStartSeconds
                    =? Z.quot (ThrottleTimeMillis legacyAlert) 1000
                 then Some searchIntervalSeconds
                 else None
               else Some (throttleSeconds (ThrottleTimeMillis legacyAlert)) in
             match throttled with
             | None =>
                 [line (failedInterval (QueryStart legacyAlert)
                          searchIntervalSeconds
                          (ThrottleTimeMillis legacyAlert))]
             | Some throttleTimeSeconds =>
                 let aggregateAlert :=
                   {| agg_ID := "";
                      agg_Name := tempName;
                      SearchIntervalSeconds := searchIntervalSeconds;
                      ThrottleTimeSeconds := throttleTimeSeconds;
                      QueryTimestampType := "IngestTimestamp";
                      TriggerMode := noMode;
                      agg_handedOn := handedOn legacyAlert |} in
                 callCreate viewName aggregateAlert
                 :: match Create client viewName aggregateAlert with
                    | (_, Some e) => [line (failedCreate aggregateAlert e)]
                    | (create, None) =>
                        line (createdAlert (agg_Name aggregateAlert))
                        :: callDelete viewName (Name legacyAlert)
                        :: match Delete client viewName
                                   (Name legacyAlert) with
                           | Some _ =>
                               [line (failedDelete (Name legacyAlert))]
                           | None =>
                               let renamedAlert :=
                                 {| agg_ID := agg_ID create;
                                    agg_Name := Name legacyAlert;
                                    SearchIntervalSeconds :=
                                      SearchIntervalSeconds create;
                                    ThrottleTimeSeconds :=
                                      ThrottleTimeSeconds create;
                                    QueryTimestampType :=
                                      QueryTimestampType create;
                                    TriggerMode := TriggerMode create;
                                    agg_handedOn := agg_handedOn create |} in
                               line (deletedLegacy (Name legacyAlert))
                               :: callUpdate viewName renamedAlert
                               :: match Update client viewName
                                          renamedAlert with
                                  | (_, Some _) =>
                                      [line (failedRename (agg_Name create)
                                               (Name legacyAlert))]
                                  | (update, None) =>
                                      [line (renamed (agg_Name create)
                                               (agg_Name update))]
                                  end
                           end
                    end
             end
         end
     end.

(** The requests among the steps. *)
Definition isRequest (s : Step) : bool :=
  match s with
  | say _ _ _ => false
  | _ => true
  end.

(** What [migrateLegacyAlert] asks the service to create for a legacy
    alert when the clock shows [nowMillis]: an alert under a temporary
    name, with one of the valid search intervals, a throttle time of
    nothing or of a minute to a day, the timestamps of ingestion, and the
    rest as the legacy alert has it. *)
Definition migrated (legacyAlert : Alert) (nowMillis : Z)
    (a : AggregateAlert) : Prop :=
  agg_ID a = "" /\
  agg_Name a = Name legacyAlert +:+ "-" +:+ strconv.Itoa nowMillis /\
  In (SearchIntervalSeconds a) getValidSearchIntervalSeconds /\
  (ThrottleTimeSeconds a = 0 \/ 60 <= ThrottleTimeSeconds a <= 86400) /\
  QueryTimestampType a = "IngestTimestamp" /\
  agg_handedOn a = handedOn legacyAlert.

End Migration.

Arguments ID {Payload} _.
Arguments Name {Payload} _.
Arguments QueryStart {Payload} _.
Arguments ThrottleTimeMillis {Payload} _.
Arguments handedOn {Payload} _.
Arguments agg_ID {Payload Mode} _.
Arguments agg_Name {Payload Mode} _.
Arguments SearchIntervalSeconds {Payload Mode} _.
Arguments ThrottleTimeSeconds {Payload Mode} _.
Arguments QueryTimestampType {Payload Mode} _.
Arguments TriggerMode {Payload Mode} _.
Arguments agg_handedOn {Payload Mode} _.
Arguments Create {Payload Mode} _ _ _.
Arguments Delete {Payload Mode} _ _ _.
Arguments Update {Payload Mode} _ _ _.
Arguments say {Payload Mode} _ _ _.
Arguments callCreate {Payload Mode} _ _.
Arguments callDelete {Payload Mode} _ _.
Arguments callUpdate {Payload Mode} _ _.
Arguments isRequest {Payload Mode} _.
Arguments migrated {Payload Mode} _ _ _.
Arguments migrateLegacyAlert {Payload Mode} _ _ _ _ _ _ _.

End alerts.

(** * Configuration profiles *)

Module profiles.

(** A value of type [interface{}] as the configuration holds it: a
    string, a boolean, a map from strings to such values, or anything
    else. *)
#[warnings="-register-all"]
Inductive any : Type :=
  | aString (s : string)
  | aBool (b : bool)
  | aMap (m : gmap string any)
  | anythingElse.

(** The struct [login], with the fields [collectProfileInfo] fills. *)
Record login := {
  address : string;
  token : string;
  username : string;
  caCertificate : string;
  insecure : bool
}.

Definition getMapKeyString (data : any) (key : string) : string :=
  match data with
  | aMap m =>
      match m !! key with
      | Some (aString v) => v
      | _ => EmptyString
      end
  | _ => EmptyString
  end.

Definition getMapKeyBool (data : any) (key : string) : bool :=
  match data with
  | aMap m =>
      match m !! key with
      | Some (aBool v) => v
      | _ => false
      end
  | _ => false
  end.

Section Keys.

(** The constants of package [viperkey], which is not part of the
    sources. *)
Variables Address Token Username CACertificate Insecure : string.

Definition mapToLogin (data : any) : login :=
  {| address := getMapKeyString data Address;
     username := getMapKeyString data Username;
     token := getMapKeyString data Token;
     caCertificate := getMapKeyString data CACertificate;
     insecure := getMapKeyBool data Insecure |}.

(** The map literal of [addAccount]: what the function assigns to
    [profiles[newName]], before [viper.Set] takes the map of profiles. *)
Definition accountEntry (profile : login) : any :=
  aMap (<[Insecure := aBool (insecure profile)]>
        (<[CACertificate := aString (caCertificate profile)]>
         (<[Username := aString (username profile)]>
          (<[Token := aString (token profile)]>
           (<[Address := aString (address profile)]> ∅))))).

End Keys.

End profiles.

(* ===================================================================== *)
(** * Properties *)
(* ===================================================================== *)

(** ** Machine integers *)

Lemma wrap64_id z : inInt64 z -> wrap64 z = z.
Proof.
  unfold inInt64, minInt64, maxInt64, wrap64. intros H.
  rewrite Z.mod_small; lia.
Qed.

Lemma wrap64_range z : inInt64 (wrap64 z).
Proof.
  unfold inInt64, minInt64, maxInt64, wrap64.
  pose proof (Z.mod_pos_bound (z + 2 ^ 63) (2 ^ 64) ltac:(lia)). lia.
Qed.

(** ** The poller *)

Section PollerFacts.

Variables (q : queryJobPoller) (ctxDone : option time.Time)
          (now : time.Time) (env : PollEnv).

Lemma timerReady_exact :
  schedulable q now -> 0 <= timerLag env ->
  Z.max now (nextPoll q) <= timerReady q now env.
Proof.
  unfold schedulable, timerReady, time.After, time.Until, time.Sub,
    minInt64, maxInt64.
  lia.
Qed.

Lemma timerReady_value :
  schedulable q now ->
  timerReady q now env = Z.max now (nextPoll q) + timerLag env.
Proof.
  unfold schedulable, timerReady, time.After, time.Until, time.Sub,
    minInt64, maxInt64.
  lia.
Qed.

Lemma requests_after_nextPoll :
  schedulable q now -> sane env ->
  Forall (fun t => nextPoll q <= t /\ now <= t)
         (requests (WaitAndPollContext q ctxDone now env)).
Proof.
  intros Hs [Hlag _]. pose proof (timerReady_exact Hs Hlag) as Ht.
  unfold WaitAndPollContext.
  destruct (selectTimer q ctxDone now env); [|constructor].
  destruct (pollReply env) as [res [e|]]; simpl;
    (constructor; [lia | constructor]).
Qed.

Lemma returned_monotone :
  schedulable q now -> sane env ->
  now <= returned (WaitAndPollContext q ctxDone now env).
Proof.
  intros Hs [Hlag Hlat]. pose proof (timerReady_exact Hs Hlag) as Ht.
  unfold WaitAndPollContext.
  destruct (selectTimer q ctxDone now env).
  - destruct (pollReply env) as [res [e|]]; simpl; lia.
  - simpl. destruct ctxDone; unfold doneReady; lia.
Qed.

Lemma schedulable_preserved later :
  schedulable q now -> sane env ->
  returned (WaitAndPollContext q ctxDone now env) <= later ->
  schedulable (poller (WaitAndPollContext q ctxDone now env)) later.
Proof.
  intros Hs Hsane. pose proof (returned_monotone Hs Hsane) as Hm.
  revert Hm. unfold WaitAndPollContext, schedulable in *.
  destruct (selectTimer q ctxDone now env).
  - destruct (pollReply env) as [res [e|]]; simpl; intros; try lia.
    pose proof (wrap64_range (PollAfter (Metadata res) * time.Millisecond))
      as [_ Hw].
    unfold time.Add. unfold maxInt64 in *. lia.
  - simpl. intros. lia.
Qed.

End PollerFacts.

Lemma newPoller_schedulable repo jobId now :
  time.zero <= now -> schedulable (newPoller repo jobId) now.
Proof. unfold schedulable, newPoller, maxInt64, time.zero. simpl. lia. Qed.

(** C1.  The poller issues no poll request before [nextPoll]; after a
    response without error it sets [nextPoll] to the instant of the response
    plus [PollAfter] milliseconds, so that no later call issues a request
    before that instant (500 ms after the response for [PollAfter = 500]);
    and when the context is cancelled while the timer is still pending, the
    call returns [context.Canceled] with an empty result at that very
    instant, issues no request and leaves the poller as it was. *)
Theorem poller_waits_and_cancels
    (q : queryJobPoller) (ctxDone : option time.Time) (now : time.Time)
    (env : PollEnv) :
  schedulable q now -> sane env ->
  let o := WaitAndPollContext q ctxDone now env in
  Forall (fun t => nextPoll q <= t) (requests o) /\
  (err o = None -> delayFits (result o) ->
     let next :=
       returned o + PollAfter (Metadata (result o)) * time.Millisecond in
     nextPoll (poller o) = next /\
     forall ctxDone' now' env',
       returned o <= now' -> sane env' ->
       Forall (fun t => next <= t)
         (requests (WaitAndPollContext (poller o) ctxDone' now' env'))) /\
  (forall c, ctxDone = Some c -> doneReady now c < timerReady q now env ->
     o = {| poller := q; result := emptyResult;
            err := Some context_Canceled; requests := [];
            returned := doneReady now c |}) /\
  (forall later, returned o <= later -> schedulable (poller o) later).
Proof.
  intros Hs Hsane o. repeat split.
  - eapply Forall_impl;
      [apply (requests_after_nextPoll q ctxDone now env Hs Hsane)|].
    simpl. intros t [H _]. exact H.
  - subst o. unfold WaitAndPollContext, delayFits in *.
    destruct (selectTimer q ctxDone now env); [|discriminate].
    destruct (pollReply env) as [res [e|]]; simpl in *; [discriminate|].
    unfold time.Add. rewrite wrap64_id by assumption. reflexivity.
  - intros ctxDone' now' env' Hlater Hsane'.
    assert (Hs' : schedulable (poller o) now')
      by (apply schedulable_preserved; assumption).
    pose proof (requests_after_nextPoll (poller o) ctxDone' now' env' Hs'
                  Hsane') as Hreq.
    assert (Hnext : nextPoll (poller o) =
              returned o + PollAfter (Metadata (result o)) * time.Millisecond).
    { subst o. unfold WaitAndPollContext, delayFits in *.
      destruct (selectTimer q ctxDone now env); [|discriminate].
      destruct (pollReply env) as [res [e|]]; simpl in *; [discriminate|].
      unfold time.Add. rewrite wrap64_id by assumption. reflexivity. }
    eapply Forall_impl; [exact Hreq|]. simpl. intros t [Ht _]. lia.
  - intros c -> Hlt. subst o. unfold WaitAndPollContext, selectTimer.
    apply Z.ltb_lt in Hlt. rewrite Hlt. reflexivity.
  - intros later Hlater. apply schedulable_preserved; assumption.
Qed.

Lemma poller_waits_and_cancels_witness :
  schedulable (newPoller "repo" "job") 1000 /\ sane promptReply /\
  nextPoll (poller (WaitAndPollContext (newPoller "repo" "job") None 1000
                      promptReply)) = 507001000.
Proof.
  assert (Hs : schedulable (newPoller "repo" "job") 1000)
    by (apply newPoller_schedulable; unfold time.zero; lia).
  assert (Hsane : sane promptReply) by (unfold sane; simpl; lia).
  split; [exact Hs|]. split; [exact Hsane|].
  destruct (poller_waits_and_cancels (newPoller "repo" "job") None 1000
              promptReply Hs Hsane) as (_ & Hnext & _).
  assert (Hfits : delayFits pollAfter500)
    by (unfold delayFits, inInt64, minInt64, maxInt64, time.Millisecond;
        simpl; lia).
  exact (proj1 (Hnext eq_refl Hfits)).
Defined.

(** C10.  When the poll request fails, [WaitAndPollContext] returns the
    error and the result of [PollContext] as they are and leaves the poller
    unchanged: a later call behaves as it would have on the poller before
    the failure, its timer being due at the previously scheduled
    [nextPoll] (or at once when that has passed), with no added delay. *)
Theorem poll_error_leaves_poller
    (q : queryJobPoller) (ctxDone : option time.Time) (now : time.Time)
    (env : PollEnv) (res : QueryResult) (e : error) :
  selectTimer q ctxDone now env = true ->
  pollReply env = (res, Some e) ->
  let o := WaitAndPollContext q ctxDone now env in
  err o = Some e /\ result o = res /\ poller o = q /\
  (forall ctxDone' now' env',
     WaitAndPollContext (poller o) ctxDone' now' env'
       = WaitAndPollContext q ctxDone' now' env') /\
  (forall now' env', schedulable q now' ->
     timerReady (poller o) now' env'
       = Z.max now' (nextPoll q) + timerLag env').
Proof.
  intros Hsel Hreply o. subst o. unfold WaitAndPollContext.
  rewrite Hsel, Hreply. simpl. repeat split.
  intros now' env' Hs. apply timerReady_value. exact Hs.
Qed.

Lemma poll_error_leaves_poller_witness :
  poller (WaitAndPollContext
            {| repository := "repo"; id := "job"; nextPoll := 5000 |}
            None 1000 failingReply)
  = {| repository := "repo"; id := "job"; nextPoll := 5000 |}.
Proof.
  refine (proj1 (proj2 (proj2
    (poll_error_leaves_poller
       {| repository := "repo"; id := "job"; nextPoll := 5000 |}
       None 1000 failingReply emptyResult (otherError "connection refused")
       _ _)))); reflexivity.
Defined.

(** ** Comparison of [float64] values *)

Ltac float_order :=
  repeat match goal with
  | s : bool |- _ => destruct s
  end;
  simpl in *; try congruence; try tauto;
  change (Pos.compare_cont Eq) with Pos.compare in *;
  repeat match goal with
  | |- context [Z.compare ?a ?b] => destruct (Z.compare_spec a b)
  | H : context [Z.compare ?a ?b] |- _ => destruct (Z.compare_spec a b)
  | |- context [Pos.compare ?a ?b] => destruct (Pos.compare_spec a b)
  | H : context [Pos.compare ?a ?b] |- _ => destruct (Pos.compare_spec a b)
  end;
  simpl in *; subst; try congruence; try tauto; try lia.

Lemma SFltb_irrefl x : SFltb x x = false.
Proof. unfold SFltb. destruct x; float_order. Qed.

Lemma SFltb_trans x y z :
  SFltb x y = true -> SFltb y z = true -> SFltb x z = true.
Proof. unfold SFltb. destruct x, y, z; float_order. Qed.

Lemma SFltb_cotrans x y z :
  notNaN y -> SFltb x z = true -> SFltb x y = true \/ SFltb y z = true.
Proof. unfold SFltb, notNaN. destruct x, y, z; float_order. Qed.

Lemma SFltb_false_SFleb x y :
  notNaN x -> notNaN y -> SFltb y x = false -> SFleb x y = true.
Proof. unfold SFltb, SFleb, notNaN. destruct x, y; float_order. Qed.

(** ** The order of [print] *)

Lemma lessByTimestamp_swo (l : list Event) :
  Forall timestampIsNumber l ->
  StrictWeakOrderOn (fun e => In e l) lessByTimestamp.
Proof.
  intros Hnum.
  assert (Hin : forall e, In e l -> timestampIsNumber e).
  { intros e He. rewrite Forall_forall in Hnum. apply Hnum.
    apply list_elem_of_In. exact He. }
  split.
  - intros a _. unfold lessByTimestamp.
    destruct (timestampOf a); [apply SFltb_irrefl | reflexivity].
  - intros a b c _ _ _. unfold lessByTimestamp.
    destruct (timestampOf a), (timestampOf b), (timestampOf c);
      try congruence.
    apply SFltb_trans.
  - intros a b c _ Hb _. apply Hin in Hb. revert Hb.
    unfold lessByTimestamp, timestampIsNumber.
    destruct (timestampOf a), (timestampOf b) as [tb|], (timestampOf c);
      intros Hb; auto; try congruence.
    apply SFltb_cotrans. intros ->. apply Hb. reflexivity.
Qed.

Lemma lessByTimestamp_inPrintOrder (a b : Event) :
  timestampIsNumber a -> timestampIsNumber b ->
  lessByTimestamp b a = false -> inPrintOrder a b.
Proof.
  unfold lessByTimestamp, inPrintOrder, timestampIsNumber.
  destruct (timestampOf a) as [ta|], (timestampOf b) as [tb|];
    intros Ha Hb Hless; try exact I; try discriminate.
  apply SFltb_false_SFleb; try assumption; intros ->; congruence.
Qed.

(** ** Insertion sort meets the contract of [sort.Slice] *)

Section InsertionSort.

Context {A : Type} (less : A -> A -> bool).

Lemma insertLeftwards_perm x acc :
  Permutation (insertLeftwards less x acc) (x :: acc).
Proof.
  induction acc as [|y acc IH]; simpl; [reflexivity|].
  destruct (less x y); [|reflexivity].
  rewrite IH. apply perm_swap.
Qed.

Lemma insertion_fold_perm l acc :
  Permutation (fold_left (fun acc x => insertLeftwards less x acc) l acc)
              (l ++ acc).
Proof.
  revert acc. induction l as [|x l IH]; intros acc; simpl; [reflexivity|].
  rewrite IH, insertLeftwards_perm. symmetry. apply Permutation_middle.
Qed.

Lemma insertionSort_perm l : Permutation (insertionSort less l) l.
Proof.
  unfold insertionSort. rewrite <- Permutation_rev, insertion_fold_perm.
  rewrite app_nil_r. reflexivity.
Qed.

Variable dom : A -> Prop.
Hypothesis order : StrictWeakOrderOn dom less.

Lemma less_asym a b : dom a -> dom b -> less a b = true -> less b a = false.
Proof.
  intros Ha Hb Hab. destruct (less b a) eqn:Hba; [|reflexivity].
  rewrite <- (swo_irrefl _ _ order a Ha).
  symmetry. exact (swo_trans _ _ order a b a Ha Hb Ha Hab Hba).
Qed.

Lemma insertLeftwards_sorted x acc :
  dom x -> List.Forall dom acc -> sortedRev less acc ->
  sortedRev less (insertLeftwards less x acc).
Proof.
  intros Hx Hdom Hs. induction acc as [|y acc IH]; simpl.
  - repeat constructor.
  - inversion Hs as [|? ? Hs' Hy]; subst.
    inversion Hdom as [|? ? Hdy Hdacc]; subst.
    destruct (less x y) eqn:Hxy.
    + constructor; [apply IH; assumption|].
      rewrite (insertLeftwards_perm x acc).
      constructor; [|exact Hy].
      apply less_asym; assumption.
    + constructor; [exact Hs|].
      constructor; [exact Hxy|].
      rewrite List.Forall_forall in Hy, Hdacc |- *. intros z Hz.
      destruct (less x z) eqn:Hxz; [|reflexivity].
      destruct (swo_cotrans _ _ order x y z Hx Hdy (Hdacc z Hz) Hxz)
        as [Hc|Hc]; [congruence|].
      rewrite (Hy z Hz) in Hc. discriminate.
Qed.

Lemma insertion_fold_sorted l acc :
  List.Forall dom l -> List.Forall dom acc -> sortedRev less acc ->
  sortedRev less (fold_left (fun acc x => insertLeftwards less x acc) l acc).
Proof.
  revert acc. induction l as [|x l IH]; intros acc Hl Hacc Hs; simpl;
    [exact Hs|].
  inversion Hl; subst. apply IH; [assumption| |].
  - rewrite (insertLeftwards_perm x acc).
    constructor; assumption.
  - apply insertLeftwards_sorted; assumption.
Qed.

End InsertionSort.

Lemma StronglySorted_snoc {A} (R : A -> A -> Prop) (l : list A) (x : A) :
  StronglySorted R l -> List.Forall (fun y => R y x) l ->
  StronglySorted R (l ++ [x]).
Proof.
  induction 1 as [|y l Hs IH Hy]; intros Hx; simpl.
  - repeat constructor.
  - inversion Hx; subst. constructor; [apply IH; assumption|].
    apply List.Forall_app. split; [exact Hy|]. repeat constructor. assumption.
Qed.

Lemma StronglySorted_rev {A} (R : A -> A -> Prop) (l : list A) :
  StronglySorted R l -> StronglySorted (fun a b => R b a) (rev l).
Proof.
  induction 1 as [|y l Hs IH Hy]; simpl; [constructor|].
  apply StronglySorted_snoc; [exact IH|].
  rewrite List.Forall_forall in Hy |- *. intros z Hz. apply Hy.
  apply in_rev. exact Hz.
Qed.

Lemma insertionSort_sorted {A} (less : A -> A -> bool) (l : list A) :
  StrictWeakOrderOn (fun a => In a l) less ->
  StronglySorted (fun a b => less b a = false) (insertionSort less l).
Proof.
  intros order. unfold insertionSort.
  apply (StronglySorted_rev (fun later earlier => less later earlier = false)).
  apply (insertion_fold_sorted less (fun a => In a l) order).
  - rewrite List.Forall_forall. auto.
  - constructor.
  - constructor.
Qed.

(** The reference implementation of the contract. *)
#[export] Instance insertionSortSlice : SortSlice :=
  {| sort_Slice := @insertionSort;
     sort_Slice_perm := @insertionSort_perm;
     sort_Slice_sorted := @insertionSort_sorted |}.

Lemma insertionSortFromEnd_perm {A} (less : A -> A -> bool) (l : list A) :
  Permutation (insertionSortFromEnd less l) l.
Proof.
  unfold insertionSortFromEnd. rewrite insertionSort_perm.
  symmetry. apply Permutation_rev.
Qed.

Lemma insertionSortFromEnd_sorted {A} (less : A -> A -> bool) (l : list A) :
  StrictWeakOrderOn (fun a => In a l) less ->
  StronglySorted (fun a b => less b a = false) (insertionSortFromEnd less l).
Proof.
  intros [Hirr Htrans Hco]. apply insertionSort_sorted.
  split.
  - intros a Ha. apply Hirr, in_rev, Ha.
  - intros a b c Ha Hb Hc. apply Htrans; apply in_rev; assumption.
  - intros a b c Ha Hb Hc. apply Hco; apply in_rev; assumption.
Qed.

Definition reversingSortSlice : SortSlice :=
  {| sort_Slice := @insertionSortFromEnd;
     sort_Slice_perm := @insertionSortFromEnd_perm;
     sort_Slice_sorted := @insertionSortFromEnd_sorted |}.

(** ** The loop of [print] *)

Section EmitFacts.

Implicit Types (ids : gmap string bool) (evs : list Event).

Lemma emit_sublist ids evs : sublist (fst (emit ids evs)) evs.
Proof.
  revert ids. induction evs as [|e evs IH]; intros ids; simpl; [constructor|].
  destruct (idOf e) as [k|].
  - destruct (negb (isPrinted ids k)).
    + specialize (IH (<[k:=true]> ids)).
      destruct (emit (<[k:=true]> ids) evs). simpl in *.
      constructor; exact IH.
    + constructor. apply IH.
  - specialize (IH ids). destruct (emit ids evs). simpl in *.
    constructor; exact IH.
Qed.

Lemma emit_keeps_unidentified ids evs :
  List.filter hasNoId (fst (emit ids evs)) = List.filter hasNoId evs.
Proof.
  revert ids. induction evs as [|e evs IH]; intros ids; simpl; [reflexivity|].
  unfold hasNoId at 2. destruct (idOf e) as [k|] eqn:Hid.
  - destruct (negb (isPrinted ids k)); [|apply IH].
    specialize (IH (<[k:=true]> ids)).
    destruct (emit (<[k:=true]> ids) evs). simpl in *.
    unfold hasNoId at 1. rewrite Hid. exact IH.
  - specialize (IH ids). destruct (emit ids evs). simpl in *.
    unfold hasNoId at 1. rewrite Hid. f_equal. exact IH.
Qed.

Lemma isPrinted_insert ids k k' :
  isPrinted (<[k:=true]> ids) k' = true <->
  k = k' \/ isPrinted ids k' = true.
Proof.
  unfold isPrinted. destruct (decide (k = k')) as [->|Hne].
  - rewrite lookup_insert_eq. simpl. tauto.
  - rewrite lookup_insert_ne by exact Hne. split; [tauto|].
    intros [?|?]; [contradiction|assumption].
Qed.

Lemma emit_monotone ids evs k :
  isPrinted ids k = true -> isPrinted (snd (emit ids evs)) k = true.
Proof.
  revert ids. induction evs as [|e evs IH]; intros ids Hk; simpl;
    [exact Hk|].
  destruct (idOf e) as [k'|].
  - destruct (negb (isPrinted ids k')); [|apply IH; exact Hk].
    specialize (IH (<[k':=true]> ids)).
    destruct (emit (<[k':=true]> ids) evs). simpl in *.
    apply IH. apply isPrinted_insert. right. exact Hk.
  - specialize (IH ids). destruct (emit ids evs). simpl in *.
    apply IH. exact Hk.
Qed.

(** Every identifier met in the loop is in the set afterwards. *)
Lemma emit_records ids evs e k :
  In e evs -> idOf e = Some k -> isPrinted (snd (emit ids evs)) k = true.
Proof.
  revert ids. induction evs as [|e' evs IH]; intros ids Hin Hid; simpl;
    [destruct Hin|].
  destruct Hin as [->|Hin].
  - rewrite Hid. destruct (isPrinted ids k) eqn:Hp; simpl.
    + apply emit_monotone. exact Hp.
    + pose proof (emit_monotone (<[k:=true]> ids) evs k) as Hm.
      destruct (emit (<[k:=true]> ids) evs). simpl in *.
      apply Hm. apply isPrinted_insert. left. reflexivity.
  - destruct (idOf e') as [k'|].
    + destruct (negb (isPrinted ids k')); [|apply IH; assumption].
      specialize (IH (<[k':=true]> ids) Hin Hid).
      destruct (emit (<[k':=true]> ids) evs). exact IH.
    + specialize (IH ids Hin Hid). destruct (emit ids evs). exact IH.
Qed.

(** The identifiers of the events handed to the printer: none was in the
    set before, and none occurs twice. *)
Lemma emit_fresh ids evs :
  NoDup (omap idOf (fst (emit ids evs))) /\
  (forall k, In k (omap idOf (fst (emit ids evs))) ->
     isPrinted ids k = false).
Proof.
  revert ids. induction evs as [|e evs IH]; intros ids; simpl.
  - split; [constructor|intros k []].
  - destruct (idOf e) as [k|] eqn:Hid.
    + destruct (isPrinted ids k) eqn:Hp; simpl; [apply IH|].
      destruct (IH (<[k:=true]> ids)) as [Hnd Hfresh].
      destruct (emit (<[k:=true]> ids) evs) as [out ids']. simpl in *.
      rewrite Hid. simpl. split.
      * constructor; [|exact Hnd]. intros Hk.
        apply list_elem_of_In, Hfresh in Hk.
        assert (isPrinted (<[k:=true]> ids) k = true)
          by (apply isPrinted_insert; left; reflexivity).
        congruence.
      * intros k' [<-|Hk']; [exact Hp|].
        specialize (Hfresh k' Hk').
        destruct (isPrinted ids k') eqn:Hp'; [|reflexivity].
        assert (isPrinted (<[k:=true]> ids) k' = true)
          by (apply isPrinted_insert; right; exact Hp').
        congruence.
    + destruct (IH ids) as [Hnd Hfresh].
      destruct (emit ids evs) as [out ids']. simpl in *.
      rewrite Hid. split; assumption.
Qed.

End EmitFacts.

Lemma filter_Permutation_bool {A} (f : A -> bool) (l l' : list A) :
  Permutation l l' -> Permutation (List.filter f l) (List.filter f l').
Proof.
  induction 1 as [|x l l' _ IH|x y l|l l' l'' _ IH1 _ IH2]; simpl.
  - constructor.
  - destruct (f x); [constructor|]; exact IH.
  - destruct (f x), (f y); try reflexivity. apply perm_swap.
  - etransitivity; eassumption.
Qed.

(** ** De-duplication across a session *)

Section Dedup.

Context `{SortSlice}.

Lemma print_printedIds p r :
  printedIds (fst (eventListPrinter_print p r))
  = snd (emit (printedIds p) (sort_Slice lessByTimestamp (Events r))).
Proof.
  unfold eventListPrinter_print.
  destruct (emit (printedIds p) (sort_Slice lessByTimestamp (Events r))).
  reflexivity.
Qed.

Lemma print_monotone p r k :
  isPrinted (printedIds p) k = true ->
  isPrinted (printedIds (fst (eventListPrinter_print p r))) k = true.
Proof. rewrite print_printedIds. apply emit_monotone. Qed.

Lemma printSession_monotone p rs k :
  isPrinted (printedIds p) k = true ->
  isPrinted (printedIds (snd (printSession p rs))) k = true.
Proof.
  revert p. induction rs as [|r rs IH]; intros p Hk; simpl; [exact Hk|].
  specialize (IH (fst (eventListPrinter_print p r)) (print_monotone p r k Hk)).
  destruct (printSession (fst (eventListPrinter_print p r)) rs). exact IH.
Qed.

Lemma printSession_ids p rs :
  NoDup (omap idOf (concat (fst (printSession p rs)))) /\
  (forall k, In k (omap idOf (concat (fst (printSession p rs)))) ->
     isPrinted (printedIds p) k = false /\
     isPrinted (printedIds (snd (printSession p rs))) k = true).
Proof.
  revert p. induction rs as [|r rs IH]; intros p; simpl.
  - split; [constructor|intros k []].
  - destruct (IH (fst (eventListPrinter_print p r))) as [Hnd Hk].
    pose proof (printSession_monotone (fst (eventListPrinter_print p r)) rs)
      as Hmono.
    destruct (printSession (fst (eventListPrinter_print p r)) rs)
      as [outs p']. simpl in *.
    destruct (emit_fresh (printedIds p)
                (sort_Slice lessByTimestamp (Events r))) as [Hnd1 Hfresh1].
    fold (printed p r) in Hnd1, Hfresh1.
    assert (Hrec : forall k, In k (omap idOf (printed p r)) ->
              isPrinted (printedIds (fst (eventListPrinter_print p r))) k
              = true).
    { intros k Hin. apply list_elem_of_In, list_elem_of_omap in Hin.
      destruct Hin as (e & He & Hid). rewrite print_printedIds.
      apply (emit_records _ _ e); [|exact Hid].
      apply list_elem_of_In in He.
      pose proof (emit_sublist (printedIds p)
                    (sort_Slice lessByTimestamp (Events r))) as Hsub.
      apply list_elem_of_In.
      eapply elem_of_sublist; [|exact Hsub].
      apply list_elem_of_In. exact He. }
    rewrite omap_app. split.
    + apply NoDup_app. split; [exact Hnd1|]. split; [|exact Hnd].
      intros k Hk1 Hk2. apply list_elem_of_In in Hk1, Hk2.
      destruct (Hk k Hk2) as [Hnot _]. rewrite (Hrec k Hk1) in Hnot.
      discriminate.
    + intros k Hin. apply in_app_or in Hin. destruct Hin as [Hin|Hin].
      * split; [apply Hfresh1; exact Hin|]. apply Hmono, Hrec, Hin.
      * destruct (Hk k Hin) as [Hnot Hyes]. split; [|exact Hyes].
        destruct (isPrinted (printedIds p) k) eqn:Hp; [|reflexivity].
        rewrite (print_monotone p r k Hp) in Hnot. discriminate.
Qed.

Lemma printed_unidentified p r :
  Permutation (List.filter hasNoId (printed p r))
              (List.filter hasNoId (Events r)).
Proof.
  unfold printed. rewrite emit_keeps_unidentified.
  apply filter_Permutation_bool, sort_Slice_perm.
Qed.

Lemma printSession_unidentified p rs :
  Forall2 (fun r out =>
             Permutation (List.filter hasNoId out)
                         (List.filter hasNoId (Events r)))
          rs (fst (printSession p rs)).
Proof.
  revert p. induction rs as [|r rs IH]; intros p; simpl; [constructor|].
  specialize (IH (fst (eventListPrinter_print p r))).
  destruct (printSession (fst (eventListPrinter_print p r)) rs).
  simpl in *. constructor; [apply printed_unidentified | exact IH].
Qed.

(** What a call writes is the lines of the events it hands to
    [printEventFunc], one after the other. *)
Lemma last_line (line : string) : line +:+ "" = line.
Proof.
  induction line as [|c line IH]; [reflexivity|].
  change (String c line +:+ "") with (String c (line +:+ "")).
  rewrite IH. reflexivity.
Qed.

Lemma writeAll_lines (write : Event -> option string) (evs : list Event)
    (lines : list string) :
  linesOf write evs lines ->
  writeAll write evs = Some (String.concat "" lines).
Proof.
  unfold linesOf. induction 1 as [|e line evs lines He _ IH]; simpl.
  - reflexivity.
  - rewrite He, IH. destruct lines as [|line' lines].
    + simpl. rewrite last_line. reflexivity.
    + reflexivity.
Qed.

Lemma print_writes p r :
  snd (eventListPrinter_print p r) = writeAll (printEventFunc p) (printed p r).
Proof.
  unfold eventListPrinter_print, printed.
  destruct (emit (printedIds p) (sort_Slice lessByTimestamp (Events r))).
  reflexivity.
Qed.

Lemma print_keeps_printEventFunc p r :
  printEventFunc (fst (eventListPrinter_print p r)) = printEventFunc p.
Proof.
  unfold eventListPrinter_print.
  destruct (emit (printedIds p) (sort_Slice lessByTimestamp (Events r))).
  reflexivity.
Qed.

Lemma writeSession_lines p rs :
  Forall2 (fun out text =>
             forall lines, linesOf (printEventFunc p) out lines ->
                           text = Some (String.concat "" lines))
          (fst (printSession p rs)) (writeSession p rs).
Proof.
  revert p. induction rs as [|r rs IH]; intros p; simpl; [constructor|].
  specialize (IH (fst (eventListPrinter_print p r))).
  rewrite print_keeps_printEventFunc in IH.
  destruct (printSession (fst (eventListPrinter_print p r)) rs).
  simpl in *. constructor; [|exact IH].
  intros lines Hlines. rewrite print_writes.
  apply writeAll_lines, Hlines.
Qed.

End Dedup.

(** C2.  In event-list mode, whatever [sort.Slice] does within its
    contract.  What a call of [print] writes is the lines of the events it
    emits, one after the other, and so it is for every snapshot of a
    session.  No event is emitted whose ["@id"] is already in
    [printedIds]; over a session, the identifiers of the emitted events
    are pairwise distinct, none was in the set at the start and all are in
    it at the end; an identifier once in the set stays in it; and for
    every snapshot the emitted events without a string ["@id"] are
    exactly those of the snapshot, each as often as it occurs there. *)
Theorem eventList_dedup `{SortSlice}
    (p : eventListPrinter) (rs : list QueryResult) :
  let outs := fst (printSession p rs) in
  let p' := snd (printSession p rs) in
  (forall q r lines, linesOf (printEventFunc q) (printed q r) lines ->
     snd (eventListPrinter_print q r) = Some (String.concat "" lines)) /\
  Forall2 (fun out text =>
             forall lines, linesOf (printEventFunc p) out lines ->
                           text = Some (String.concat "" lines))
          outs (writeSession p rs) /\
  (forall q r e k, In e (printed q r) -> idOf e = Some k ->
     isPrinted (printedIds q) k = false) /\
  NoDup (omap idOf (concat outs)) /\
  (forall k, In k (omap idOf (concat outs)) ->
     isPrinted (printedIds p) k = false /\
     isPrinted (printedIds p') k = true) /\
  (forall k, isPrinted (printedIds p) k = true ->
     isPrinted (printedIds p') k = true) /\
  Forall2 (fun r out =>
             Permutation (List.filter hasNoId out)
                         (List.filter hasNoId (Events r)))
          rs outs.
Proof.
  intros outs p'. subst outs p'.
  split; [|split; [|split; [|split; [|split; [|split]]]]].
  - intros q r lines Hlines. rewrite print_writes.
    apply writeAll_lines, Hlines.
  - apply writeSession_lines.
  - intros q r e k He Hid.
    apply (proj2 (emit_fresh (printedIds q)
                    (sort_Slice lessByTimestamp (Events r)))).
    apply list_elem_of_In, list_elem_of_omap. exists e.
    split; [apply list_elem_of_In; exact He | exact Hid].
  - apply printSession_ids.
  - apply printSession_ids.
  - intros k. apply printSession_monotone.
  - apply printSession_unidentified.
Qed.

(** ** The order of the printed events *)

Lemma StronglySorted_sublist {A} (R : A -> A -> Prop) (l k : list A) :
  sublist l k -> StronglySorted R k -> StronglySorted R l.
Proof.
  induction 1 as [|x l k Hsub IH|x l k Hsub IH]; intros Hs.
  - constructor.
  - inversion Hs as [|? ? Hs' Hx]; subst. constructor; [apply IH; exact Hs'|].
    rewrite List.Forall_forall in Hx |- *. intros y Hy. apply Hx.
    apply list_elem_of_In. eapply elem_of_sublist; [|exact Hsub].
    apply list_elem_of_In. exact Hy.
  - inversion Hs; subst. apply IH. assumption.
Qed.

Lemma StronglySorted_weaken {A} (R R' : A -> A -> Prop) (l : list A) :
  (forall a b, In a l -> In b l -> R a b -> R' a b) ->
  StronglySorted R l -> StronglySorted R' l.
Proof.
  intros Himp Hs. induction Hs as [|x l Hs IH Hx]; [constructor|].
  constructor.
  - apply IH. intros a b Ha Hb. apply Himp; right; assumption.
  - rewrite List.Forall_forall in Hx |- *. intros y Hy.
    apply Himp; [left; reflexivity | right; exact Hy | apply Hx; exact Hy].
Qed.

(** C3, as the code has it.  For a snapshot whose timestamps are numbers,
    and whatever [sort.Slice] does within its contract, the events [print]
    hands to the printer are in this order: every event without a numeric
    ["@timestamp"] comes before every event with one, and the timestamped
    events come with their timestamps ascending.  Two events without a
    numeric timestamp compare equal: neither is less than the other. *)
Theorem eventList_order `{SortSlice} (p : eventListPrinter) (r : QueryResult) :
  Forall timestampIsNumber (Events r) ->
  StronglySorted inPrintOrder (printed p r) /\
  (forall a b, timestampOf a = None -> timestampOf b = None ->
     lessByTimestamp a b = false /\ lessByTimestamp b a = false).
Proof.
  intros Hnum. split.
  - unfold printed.
    apply (StronglySorted_sublist _ _ _ (emit_sublist _ _)).
    assert (Hnum' : forall e,
              In e (sort_Slice lessByTimestamp (Events r)) ->
              timestampIsNumber e).
    { intros e He. rewrite Forall_forall in Hnum. apply Hnum.
      apply list_elem_of_In.
      apply (Permutation_in _ (sort_Slice_perm _ lessByTimestamp (Events r))).
      exact He. }
    apply (StronglySorted_weaken (fun a b => lessByTimestamp b a = false)).
    + intros a b Ha Hb. apply lessByTimestamp_inPrintOrder; auto.
    + apply sort_Slice_sorted. apply lessByTimestamp_swo. exact Hnum.
  - intros a b Ha Hb. unfold lessByTimestamp. rewrite Ha, Hb. auto.
Qed.

(** For the insertion sort, the events without a numeric timestamp keep
    the order they came in: an element only moves past one it is less
    than.  ([sort.Slice] promises this for no input; it holds on the slices
    short enough to be sorted by insertion.) *)
Lemma insertLeftwards_keeps_untimestamped x acc :
  List.filter hasNoTimestamp (insertLeftwards lessByTimestamp x acc)
  = List.filter hasNoTimestamp (x :: acc).
Proof.
  induction acc as [|y acc IH]; [reflexivity|].
  simpl insertLeftwards. destruct (lessByTimestamp x y) eqn:Hless;
    [|reflexivity].
  change (List.filter hasNoTimestamp (y :: insertLeftwards lessByTimestamp x acc))
    with (if hasNoTimestamp y
          then y :: List.filter hasNoTimestamp (insertLeftwards lessByTimestamp x acc)
          else List.filter hasNoTimestamp (insertLeftwards lessByTimestamp x acc)).
  rewrite IH. simpl. unfold lessByTimestamp in Hless. unfold hasNoTimestamp.
  destruct (timestampOf x), (timestampOf y); try discriminate; reflexivity.
Qed.

Lemma insertionSort_keeps_untimestamped (l : list Event) :
  List.filter hasNoTimestamp (insertionSort lessByTimestamp l)
  = List.filter hasNoTimestamp l.
Proof.
  unfold insertionSort.
  assert (Hgen : forall acc,
    List.filter hasNoTimestamp
      (rev (fold_left (fun acc x => insertLeftwards lessByTimestamp x acc) l acc))
    = List.filter hasNoTimestamp (rev acc ++ l)).
  { induction l as [|x l IH]; intros acc; simpl.
    - rewrite app_nil_r. reflexivity.
    - rewrite IH. rewrite !List.filter_app, !List.filter_rev.
      rewrite insertLeftwards_keeps_untimestamped.
      rewrite <- !List.filter_rev, <- !List.filter_app. simpl rev.
      rewrite <- app_assoc. reflexivity. }
  apply (Hgen []).
Qed.

(** ** The columns of the aggregate printer *)

Lemma scanKey_known (ks : list string) (f : list string)
    (m : gmap string bool) :
  fold_left scanKey ks (f, m)
  = (f ++ fst (fold_left scanKey ks ([], m)), snd (fold_left scanKey ks ([], m))).
Proof.
  revert f m. induction ks as [|k ks IH]; intros f m; simpl.
  - rewrite app_nil_r. reflexivity.
  - destruct (negb (isPrinted m k)).
    + rewrite (IH (f ++ [k])), (IH [k]). simpl. rewrite <- app_assoc.
      reflexivity.
    + apply IH.
Qed.

Lemma scanEvents_known (evs : list Event) (f : list string)
    (m : gmap string bool) :
  fst (fold_left (fun st e => fold_left scanKey (map fst e) st) evs (f, m))
  = f ++ fst (fold_left (fun st e => fold_left scanKey (map fst e) st) evs
                ([], m)).
Proof.
  revert f m. induction evs as [|e evs IH]; intros f m; simpl.
  - rewrite app_nil_r. reflexivity.
  - rewrite (scanKey_known (map fst e) f m).
    destruct (fold_left scanKey (map fst e) ([], m)) as [f' m'] eqn:He.
    simpl. rewrite (IH (f ++ f')), (IH f'). rewrite app_assoc. reflexivity.
Qed.

(** The columns known from earlier calls are kept in front, but they play
    no part in what a call adds: it adds what it would add to no columns
    at all. *)
Lemma deriveColumns_known (known : list string) (evs : list Event) :
  deriveColumns known evs = known ++ deriveColumns [] evs.
Proof. unfold deriveColumns. apply scanEvents_known. Qed.

(** Within one call the loop does what its map is for: starting from no
    columns, no column is added twice. *)

Lemma scanKey_seen (st : list string * gmap string bool) (k : string) :
  columnsSeen st -> columnsSeen (scanKey st k).
Proof.
  destruct st as [f m]. unfold columnsSeen, scanKey. simpl.
  intros [Hnd Hseen]. destruct (isPrinted m k) eqn:Hk; simpl.
  - split; assumption.
  - split.
    + apply NoDup_app. split; [exact Hnd|]. split.
      * intros x Hx Hxk. apply list_elem_of_In in Hx.
        apply list_elem_of_singleton in Hxk. subst x.
        apply Hseen in Hx. congruence.
      * apply NoDup_singleton.
    + intros k'. rewrite isPrinted_insert, in_app_iff, Hseen. simpl.
      intuition.
Qed.

Lemma scanKeys_seen (ks : list string) :
  forall st, columnsSeen st -> columnsSeen (fold_left scanKey ks st).
Proof.
  induction ks as [|k ks IH]; intros st Hst; simpl; [exact Hst|].
  apply IH, scanKey_seen, Hst.
Qed.

Lemma deriveColumns_fresh_NoDup (evs : list Event) :
  NoDup (deriveColumns [] evs).
Proof.
  unfold deriveColumns.
  assert (Hgen : forall st, columnsSeen st ->
            columnsSeen (fold_left
              (fun st e => fold_left scanKey (map fst e) st) evs st)).
  { induction evs as [|e evs IH]; intros st Hst; simpl; [exact Hst|].
    apply IH, scanKeys_seen, Hst. }
  apply (Hgen ([], ∅)). split; [constructor|].
  intros k. unfold isPrinted. simpl. rewrite lookup_empty. simpl.
  split; [discriminate|intros []].
Qed.

(** C4, on the code.  A first call on a row with the fields [a], [b] gives
    the columns [a; b]; a second call on a row with the fields [a], [b],
    [c] gives [a; b; a; b; c]: the known columns are added once more. *)
Theorem aggregate_columns_added_again :
  let first := aggregateSnapshot [[("a", number 1); ("b", number 2)]] in
  let second :=
    aggregateSnapshot [[("a", number 1); ("b", number 2); ("c", number 3)]] in
  let p1 := fst (aggregatePrinter_print (newAggregatePrinter false) first) in
  let p2 := fst (aggregatePrinter_print p1 second) in
  columns p1 = ["a"; "b"] /\ columns p2 = ["a"; "b"; "a"; "b"; "c"].
Proof. vm_compute. split; reflexivity. Qed.

(** ** Throughput in the progress outputs *)

(** C5 fails for the JSON progress record: for a snapshot with
    [TimeMillis = 0] the record has the member [epsValue], and its text is
    [0]. *)
Lemma json_throughput_shown_as_zero :
  exists obj v,
    printQueryResultProgressJson stalledSnapshot "repo" "count()" 1000
      1500000000 = Some obj /\
    In ("epsValue", v) obj /\ json.scalarText v = Some "0".
Proof.
  eexists. exists (json.Float (S754_zero false)).
  split; [vm_compute; reflexivity|].
  split; [|reflexivity]. simpl. tauto.
Qed.

(** Three thousand events in a second and a half are two thousand a
    second, in both outputs. *)
Lemma throughput_of_3000_in_1500ms :
  perSecond 3000 1500 = float64_of_Z 2000 /\
  strconv.FormatFloat_f1 (perSecond 3000 1500) = "2000.0" /\
  json.floatText (perSecond 3000 1500) = Some "2000".
Proof. vm_compute. repeat split; reflexivity. Qed.

Section Throughput.

Variable AddSISuffix : spec_float -> bool -> spec_float * string.

Lemma Update_stalled_eps b r :
  TimeMillis (Metadata r) = 0 ->
  epsValue (Update b r) = epsValue b /\ bpsValue (Update b r) = bpsValue b.
Proof. intros Hz. unfold Update. simpl. rewrite Hz. simpl. auto. Qed.

Lemma Update_all_stalled rs :
  List.Forall (fun r => TimeMillis (Metadata r) = 0) rs ->
  forall b,
    epsValue (fold_left Update rs b) = epsValue b /\
    bpsValue (fold_left Update rs b) = bpsValue b.
Proof.
  induction 1 as [|r rs Hr _ IH]; intros b; simpl; [auto|].
  destruct (IH (Update b r)) as [-> ->]. apply Update_stalled_eps, Hr.
Qed.

End Throughput.

(** C5, as the code has it.  For a snapshot with [TimeMillis = 0]: the JSON
    progress record carries both throughput figures as the number zero,
    whose text is [0]; the progress bar keeps the figures it had, so both
    annotations stay what they were, and they are empty on a bar that has
    seen only such snapshots.  For a snapshot with [TimeMillis > 0] both
    outputs hold [float64(processed) / float64(timeMillis) * 1000]. *)
Theorem throughput_by_TimeMillis
    (AddSISuffix : spec_float -> bool -> spec_float * string)
    (b : queryResultProgressBar) (r : QueryResult)
    (repo queryString : string) (startMillis : Z) (now : time.Time) :
  let md := Metadata r in
  let record := progressRecord r repo queryString startMillis now in
  (TimeMillis md = 0 ->
     json_EpsValue record = S754_zero false /\
     json_BpsValue record = S754_zero false /\
     (exists obj,
        printQueryResultProgressJson r repo queryString startMillis now
          = Some obj /\
        In ("epsValue", json.Float (S754_zero false)) obj /\
        In ("bpsValue", json.Float (S754_zero false)) obj) /\
     json.scalarText (json.Float (S754_zero false)) = Some "0" /\
     additionalInfoEps AddSISuffix (Update b r)
       = additionalInfoEps AddSISuffix b /\
     additionalInfoBps AddSISuffix (Update b r)
       = additionalInfoBps AddSISuffix b /\
     (forall rs,
        List.Forall (fun r' => TimeMillis (Metadata r') = 0) rs ->
        additionalInfoEps AddSISuffix
          (fold_left Update rs newQueryResultProgressBar) = "" /\
        additionalInfoBps AddSISuffix
          (fold_left Update rs newQueryResultProgressBar) = "")) /\
  (0 < TimeMillis md ->
     epsValue (Update b r) = perSecond (ProcessedEvents md) (TimeMillis md) /\
     bpsValue (Update b r) = perSecond (ProcessedBytes md) (TimeMillis md) /\
     json_EpsValue record = perSecond (ProcessedEvents md) (TimeMillis md) /\
     json_BpsValue record = perSecond (ProcessedBytes md) (TimeMillis md)).
Proof.
  intros md record. subst md record. split.
  - intros Hz.
    destruct (Update_stalled_eps b r Hz) as [Heps Hbps].
    unfold printQueryResultProgressJson, json.Marshal, progressRecord.
    simpl. rewrite Hz. simpl.
    split; [reflexivity|]. split; [reflexivity|].
    split; [eexists; split; [reflexivity|]; simpl; tauto|].
    split; [reflexivity|].
    split; [unfold additionalInfoEps; rewrite Heps; reflexivity|].
    split; [unfold additionalInfoBps; rewrite Hbps; reflexivity|].
    intros rs Hrs.
    destruct (Update_all_stalled rs Hrs newQueryResultProgressBar)
      as [Heps' Hbps'].
    unfold additionalInfoEps, additionalInfoBps. rewrite Heps', Hbps'.
    split; reflexivity.
  - intros Hpos. apply Z.ltb_lt in Hpos.
    unfold Update, progressRecord. simpl. rewrite Hpos. auto.
Qed.

(** ** Strings *)

#[local] Arguments String.append !s1 s2 : simpl nomatch.

Lemma append_nil_r (s : string) : s +:+ "" = s.
Proof. induction s as [|c s IH]; simpl; [reflexivity|]. f_equal. exact IH. Qed.

Lemma append_assoc (s t u : string) : (s +:+ t) +:+ u = s +:+ (t +:+ u).
Proof. induction s as [|c s IH]; simpl; [reflexivity|]. f_equal. exact IH. Qed.

Lemma lacks_append (c : ascii) (s t : string) :
  lacks c (s +:+ t) = lacks c s && lacks c t.
Proof.
  induction s as [|c' s IH]; simpl; [reflexivity|].
  rewrite IH. apply andb_assoc.
Qed.

Lemma allDigits_lacks (c : ascii) (ds : string) :
  isDigit c = false -> allDigits ds = true -> lacks c ds = true.
Proof.
  intros Hc. induction ds as [|d ds IH]; simpl; [reflexivity|].
  intros [Hd Hds]%andb_prop. rewrite (IH Hds), andb_true_r.
  destruct (Ascii.eqb_spec d c) as [->|]; [congruence|reflexivity].
Qed.

(** ** Compiling the format string *)

Lemma splitField_plain (field : string) :
  lacks ":" field = true -> splitField field = (field, "").
Proof.
  induction field as [|c field IH]; simpl; [reflexivity|].
  intros [Hc Hrest]%andb_prop. apply negb_true_iff in Hc. rewrite Hc.
  rewrite (IH Hrest). reflexivity.
Qed.

Lemma splitField_colon (field arg : string) :
  lacks ":" field = true -> splitField (field +:+ String ":" arg) = (field, arg).
Proof.
  induction field as [|c field IH]; simpl; [reflexivity|].
  intros [Hc Hrest]%andb_prop. apply negb_true_iff in Hc. rewrite Hc.
  rewrite (IH Hrest). reflexivity.
Qed.

Lemma compileFrom_literal (text rest : string) :
  lacks "{" text = true ->
  compileFrom None (text +:+ rest)
  = (text +:+ fst (compileFrom None rest), snd (compileFrom None rest)).
Proof.
  induction text as [|c text IH]; simpl.
  - intros _. destruct (compileFrom None rest). reflexivity.
  - intros [Hc Hrest]%andb_prop. apply negb_true_iff in Hc. rewrite Hc.
    rewrite (IH Hrest). reflexivity.
Qed.

Lemma compileFrom_inside (inner acc rest : string) :
  lacks "}" inner = true ->
  compileFrom (Some acc) (inner +:+ String "}" rest)
  = compileFrom (Some (acc +:+ inner)) (String "}" rest).
Proof.
  revert acc. induction inner as [|c inner IH]; intros acc.
  - intros _. rewrite append_nil_r. reflexivity.
  - simpl lacks. intros [Hc Hrest]%andb_prop. apply negb_true_iff in Hc.
    change (String c inner +:+ String "}" rest)
      with (String c (inner +:+ String "}" rest)).
    cbn [compileFrom]. rewrite Hc. rewrite (IH _ Hrest), append_assoc.
    reflexivity.
Qed.

Lemma compileFrom_reference (inner rest : string) :
  lacks "}" inner = true -> inner <> "" ->
  compileFrom None (String "{" (inner +:+ String "}" rest))
  = ("%" +:+ snd (splitField inner) +:+ "s" +:+ fst (compileFrom None rest),
     fst (splitField inner) :: snd (compileFrom None rest)).
Proof.
  intros Hlacks Hne. cbn [compileFrom]. simpl Ascii.eqb. cbv iota.
  rewrite (compileFrom_inside inner "" rest Hlacks).
  change ("" +:+ inner) with inner.
  cbn [compileFrom]. simpl Ascii.eqb. cbv iota.
  destruct (compileFrom None rest) as [f fields].
  destruct inner as [|c inner]; [contradiction|].
  destruct (splitField (String c inner)). reflexivity.
Qed.

Lemma braces_append (inner rest : string) :
  ("{" +:+ inner +:+ "}") +:+ rest = String "{" (inner +:+ String "}" rest).
Proof. simpl. f_equal. rewrite append_assoc. reflexivity. Qed.

Lemma compileFrom_segment (seg : segment) (rest : string) :
  bracketed seg = true ->
  compileFrom None (segmentText seg +:+ rest)
  = (slotOf seg +:+ fst (compileFrom None rest),
     fieldsOf [seg] ++ snd (compileFrom None rest)).
Proof.
  destruct seg as [text|field [m|]]; simpl bracketed; intros Hb.
  - apply compileFrom_literal. exact Hb.
  - apply andb_prop in Hb as [[Hbrace Hcolon]%andb_prop Hm].
    unfold segmentText. rewrite braces_append.
    rewrite compileFrom_reference.
    + rewrite (splitField_colon field m Hcolon). unfold slotOf, fieldsOf.
      simpl. rewrite !append_assoc. reflexivity.
    + rewrite lacks_append, Hbrace. simpl lacks. exact Hm.
    + destruct field; discriminate.
  - apply andb_prop in Hb as [[Hbrace Hcolon]%andb_prop Hne].
    unfold segmentText. rewrite braces_append.
    rewrite (compileFrom_reference field rest Hbrace).
    + rewrite (splitField_plain field Hcolon). reflexivity.
    + intros ->. discriminate.
Qed.

Lemma concat_cons {A} (f : A -> string) (x : A) (l : list A) :
  String.concat "" (map f (x :: l)) = f x +:+ String.concat "" (map f l).
Proof.
  simpl. destruct (map f l); [|reflexivity].
  simpl. rewrite append_nil_r. reflexivity.
Qed.

Lemma compileFormat_template (segs : list segment) :
  forallb bracketed segs = true ->
  compileFormat (templateOf segs)
  = (String.concat "" (map slotOf segs), fieldsOf segs).
Proof.
  unfold compileFormat, templateOf.
  induction segs as [|seg segs IH]; [reflexivity|].
  simpl forallb. intros [Hseg Hsegs]%andb_prop.
  rewrite !concat_cons. rewrite (compileFrom_segment seg _ Hseg).
  rewrite (IH Hsegs). simpl. destruct seg; reflexivity.
Qed.

(** ** Printing one event *)

Lemma option_map_append_nil (o : option string) :
  option_map (String.append "") o = o.
Proof. destruct o; reflexivity. Qed.

Lemma option_map_append_cons (c : ascii) (s : string) (o : option string) :
  option_map (String c) (option_map (String.append s) o)
  = option_map (String.append (String c s)) o.
Proof. destruct o; reflexivity. Qed.

Lemma option_map_append_append (s t : string) (o : option string) :
  option_map (String.append s) (option_map (String.append t) o)
  = option_map (String.append (s +:+ t)) o.
Proof. destruct o; simpl; [rewrite append_assoc|]; reflexivity. Qed.

Lemma Sprintf_literal (text rest : string) (args : list string) :
  lacks "%" text = true ->
  Sprintf_from inText (text +:+ rest) args
  = option_map (String.append text) (Sprintf_from inText rest args).
Proof.
  induction text as [|c text IH]; simpl.
  - intros _. symmetry. apply option_map_append_nil.
  - intros [Hc Hrest]%andb_prop. apply negb_true_iff in Hc. rewrite Hc.
    rewrite (IH Hrest). apply option_map_append_cons.
Qed.

Lemma isDigit_range (c : ascii) :
  isDigit c = true -> 0 <= utf8.byte c - 48 <= 9.
Proof. unfold isDigit. intros [?%Z.leb_le ?%Z.leb_le]%andb_prop. lia. Qed.

Lemma isDigit_not_verb (c : ascii) :
  isDigit c = true -> Ascii.eqb c "-" = false /\ Ascii.eqb c "%" = false.
Proof.
  intros Hd. split.
  - destruct (Ascii.eqb_spec c "-") as [->|]; [discriminate|reflexivity].
  - destruct (Ascii.eqb_spec c "%") as [->|]; [discriminate|reflexivity].
Qed.

Lemma Sprintf_width (ds : string) :
  forall (minus : bool) (w : Z) (k : nat) (rest a : string)
         (args : list string),
    allDigits ds = true ->
    0 <= w < 10 ^ Z.of_nat k -> (k + String.length ds <= 7)%nat ->
    Sprintf_from (inWidth minus w) (ds +:+ String "s" rest) (a :: args)
    = option_map (String.append (padString minus (Some (scanDigits w ds)) a))
                 (Sprintf_from inText rest args).
Proof.
  induction ds as [|c ds IH]; intros minus w k rest a args Hds Hw Hlen.
  - reflexivity.
  - simpl in Hds. apply andb_prop in Hds as [Hc Hds].
    change (String c ds +:+ String "s" rest)
      with (String c (ds +:+ String "s" rest)).
    cbn [Sprintf_from scanDigits]. rewrite Hc.
    assert (Hpow : 10 ^ Z.of_nat k <= 10 ^ 6).
    { apply Z.pow_le_mono_r; simpl in Hlen; lia. }
    assert (Hsmall : (1000000 <? w) = false) by (apply Z.ltb_ge; lia).
    rewrite Hsmall.
    pose proof (isDigit_range c Hc) as Hrange.
    apply (IH minus _ (S k)); [exact Hds| |simpl in Hlen; lia].
    rewrite Nat2Z.inj_succ, Z.pow_succ_r by lia. lia.
Qed.

Lemma Sprintf_slot (field : string) (modifier : option string)
    (rest a : string) (args : list string) :
  printable (reference field modifier) = true ->
  Sprintf_from inText (slotOf (reference field modifier) +:+ rest) (a :: args)
  = option_map (String.append (aligned modifier a))
               (Sprintf_from inText rest args).
Proof.
  destruct modifier as [m|]; [|reflexivity].
  simpl printable. intros Hm.
  assert (Hscan : forall (leftAlign : bool) (ds : string),
    plainWidth ds = true ->
    Sprintf_from (inFlags leftAlign) (ds +:+ String "s" rest) (a :: args)
    = option_map
        (String.append (padString leftAlign (Some (scanDigits 0 ds)) a))
        (Sprintf_from inText rest args)).
  { intros leftAlign ds Hw. unfold plainWidth in Hw.
    destruct ds as [|c ds]; [discriminate|].
    apply andb_prop in Hw as [[Hzero Hds]%andb_prop Hlen].
    apply negb_true_iff in Hzero. apply Nat.leb_le in Hlen.
    simpl in Hds. apply andb_prop in Hds as [Hc Hds].
    destruct (isDigit_not_verb c Hc) as [Hminus Hpercent].
    pose proof (isDigit_range c Hc) as Hrange.
    change (String c ds +:+ String "s" rest)
      with (String c (ds +:+ String "s" rest)).
    cbn [Sprintf_from scanDigits]. rewrite Hminus, Hzero, Hc.
    apply (Sprintf_width ds leftAlign _ 1); [exact Hds| |simpl in Hlen; lia].
    simpl (0 * 10 + _). change (10 ^ Z.of_nat 1) with 10. lia. }
  unfold slotOf, aligned.
  assert (Hshape : (exists ds, m = String "-" ds /\ signAndDigits m = (true, ds))
                   \/ signAndDigits m = (false, m)).
  { destruct m as [|c m]; [right; reflexivity|].
    destruct (Ascii.eqb_spec c "-") as [->|Hne].
    - left. exists m. split; reflexivity.
    - right. unfold signAndDigits.
      destruct c as [[] [] [] [] [] [] [] []]; try reflexivity.
      contradiction Hne. reflexivity. }
  destruct Hshape as [(ds & -> & Hsign)|Hsign]; rewrite Hsign in *;
    simpl snd in Hm.
  - change (String "%" (String "-" ds +:+ "s") +:+ rest)
      with (String "%" (String "-" ((ds +:+ "s") +:+ rest))).
    rewrite append_assoc. exact (Hscan true ds Hm).
  - change (String "%" (m +:+ "s") +:+ rest)
      with (String "%" ((m +:+ "s") +:+ rest)).
    rewrite append_assoc. exact (Hscan false m Hm).
Qed.

Section PrintEvent.

Variable Local : time.Location.

Lemma fieldPrinter_fieldText (field : string) (e : Event) :
  fieldPrinter Local field e = fieldText Local e field.
Proof.
  unfold fieldPrinter, fieldPrinters, fieldText, timestampPrinter.
  rewrite lookup_singleton.
  destruct (String.eqb_spec field "@timestamp") as [->|Hne].
  - rewrite decide_True by reflexivity.
    destruct (at_key e "@timestamp"); reflexivity.
  - rewrite decide_False by congruence. reflexivity.
Qed.

Lemma Sprintf_segments (e : Event) (segs : list segment) :
  forall (tail : string) (args : list string),
    forallb printable segs = true ->
    Sprintf_from inText (String.concat "" (map slotOf segs) +:+ tail)
      (map (fieldText Local e) (fieldsOf segs) ++ args)
    = option_map
        (String.append (String.concat "" (map (segmentOutput Local e) segs)))
        (Sprintf_from inText tail args).
Proof.
  induction segs as [|seg segs IH]; intros tail args Hplain.
  - simpl. symmetry. apply option_map_append_nil.
  - simpl forallb in Hplain. apply andb_prop in Hplain as [Hseg Hsegs].
    rewrite !concat_cons, append_assoc.
    destruct seg as [text|field m].
    + simpl in Hseg.
      simpl slotOf. rewrite (Sprintf_literal text _ _ Hseg).
      change (fieldsOf (literal text :: segs)) with (fieldsOf segs).
      rewrite (IH tail args Hsegs).
      apply option_map_append_append.
    + change (fieldsOf (reference field m :: segs))
        with (field :: fieldsOf segs).
      cbn [map app]. rewrite (Sprintf_slot field m _ _ _ Hseg).
      rewrite (IH tail args Hsegs).
      apply option_map_append_append.
Qed.

End PrintEvent.

Lemma initPrintFunc_segments (Local : time.Location)
    (segs : list segment) (e : Event) :
  forallb printable segs = true ->
  initPrintFunc Local (String.concat "" (map slotOf segs)) (fieldsOf segs) e
  = Some (String.concat "" (map (segmentOutput Local e) segs) +:+ newline).
Proof.
  intros Hplain. unfold initPrintFunc, Sprintf.
  rewrite map_map.
  rewrite (map_ext _ (fieldText Local e))
    by (intros f; apply fieldPrinter_fieldText).
  rewrite <- (app_nil_r (map (fieldText Local e) (fieldsOf segs))).
  rewrite (Sprintf_segments Local e segs newline [] Hplain).
  reflexivity.
Qed.

(** C6.  For a template whose segments are literal text (without opening
    brace) and references [{field}] or [{field:modifier}]: the compiled
    format is the literal text unchanged with a slot for every reference,
    and the fields are recorded in the order of the template.  When the
    modifiers are signed integers (a width of one to seven digits, behind
    [-] or not) and the literal text has no percent sign, an event is
    printed as the literal text and, for every reference, the text of its
    field, padded with blanks on the left up to a positive width, on the
    right up to a negative one; the text of ["@timestamp"] holding a number
    of milliseconds is the instant in RFC 3339 with nanoseconds, the text
    of every other field is what [fmt.Sprint] gives for its value. *)
Theorem format_compiler (Local : time.Location) (segs : list segment)
    (e : Event) :
  forallb bracketed segs = true ->
  let p := newEventListPrinter Local (templateOf segs) in
  fmt p = String.concat "" (map slotOf segs) /\
  printFields p = fieldsOf segs /\
  (forallb printable segs = true ->
   printEventFunc p e
   = Some (String.concat "" (map (segmentOutput Local e) segs) +:+ newline)).
Proof.
  intros Hbracketed p. subst p. unfold newEventListPrinter.
  rewrite (compileFormat_template segs Hbracketed).
  cbn [fmt printFields printEventFunc].
  split; [reflexivity|]. split; [reflexivity|].
  apply initPrintFunc_segments.
Qed.

Lemma format_compiler_witness :
  printEventFunc (newEventListPrinter time.UTC (templateOf timestampTemplate))
    sampleEvent
  = Some ("                    2023-11-14T22:13:20Z hello" +:+ newline).
Proof.
  exact (proj2 (proj2
    (format_compiler time.UTC timestampTemplate sampleEvent eq_refl))
    eq_refl).
Defined.

(** C6 fails as stated: the literal characters outside the braces do not
    always reach the printed line unchanged.  The compiled format is
    handed to [fmt.Fprintf], which reads a percent sign in it as the start
    of a directive: of a doubled percent sign in the template one is
    printed. *)
Lemma doubled_percent_printed_once :
  let segs := [literal "100%% of "; reference "@rawstring" None] in
  let p := newEventListPrinter time.UTC (templateOf segs) in
  templateOf segs = "100%% of {@rawstring}" /\
  forallb bracketed segs = true /\
  fmt p = "100%% of %s" /\
  printEventFunc p sampleEvent = Some ("100% of hello" +:+ newline) /\
  printEventFunc p sampleEvent
  <> Some (String.concat "" (map (segmentOutput time.UTC sampleEvent) segs)
           +:+ newline).
Proof. vm_compute. repeat split; discriminate. Qed.

(** C7 fails as stated: the timestamp is not followed by the padding, it
    follows it.  In UTC the line starts with twenty blanks. *)
Lemma timestamp_not_padded_on_the_right :
  let line := printEventFunc
                (newEventListPrinter time.UTC "{@timestamp:40} {@rawstring}")
                sampleEvent in
  line = Some ("                    2023-11-14T22:13:20Z hello" +:+ newline) /\
  line <> Some ("2023-11-14T22:13:20Z                     hello" +:+ newline).
Proof. vm_compute. split; [reflexivity|discriminate]. Qed.

(** C7, as the code has it.  The template [{@timestamp:40} {@rawstring}]
    prints the event with the timestamp 1700000000000 and the raw string
    [hello] as the timestamp in RFC 3339, padded with blanks on the left to
    40 characters, then one blank, [hello] and a line feed; in UTC the
    timestamp reads [2023-11-14T22:13:20Z] behind twenty blanks. *)
Theorem timestamp_template_output (Local : time.Location) :
  let p := newEventListPrinter Local "{@timestamp:40} {@rawstring}" in
  let stamp := time.FormatRFC3339Nano Local (time.Unix 1700000000 0) in
  printEventFunc p sampleEvent
  = Some ((spaces (40 - utf8.RuneCountInString stamp) +:+ stamp)
          +:+ " hello" +:+ newline) /\
  printEventFunc (newEventListPrinter time.UTC "{@timestamp:40} {@rawstring}")
                 sampleEvent
  = Some ("                    2023-11-14T22:13:20Z hello" +:+ newline).
Proof.
  intros p stamp. split; [|vm_compute; reflexivity].
  subst p.
  change "{@timestamp:40} {@rawstring}" with (templateOf timestampTemplate).
  unfold newEventListPrinter.
  rewrite (compileFormat_template timestampTemplate eq_refl).
  cbn [printEventFunc].
  rewrite (initPrintFunc_segments Local timestampTemplate sampleEvent eq_refl).
  f_equal.
  assert (Hstamp : fieldText Local sampleEvent "@timestamp" = stamp)
    by reflexivity.
  assert (Hraw : fieldText Local sampleEvent "@rawstring" = "hello")
    by reflexivity.
  unfold timestampTemplate. cbn [map segmentOutput].
  rewrite Hstamp, Hraw. unfold aligned.
  cbn [signAndDigits]. change (scanDigits 0 "40") with 40.
  replace (Z.to_nat (40 - Z.of_nat (utf8.RuneCountInString stamp)))
    with (40 - utf8.RuneCountInString stamp)%nat by lia.
  generalize (spaces (40 - utf8.RuneCountInString stamp) +:+ stamp).
  intros padded. cbn [String.concat]. rewrite !append_assoc. reflexivity.
Qed.

(** ** The order of the printed events, on examples *)

(** C3 fails as stated: an event without timestamp is printed before a
    timestamped one, not after it. *)
Lemma untimestamped_event_printed_first :
  @printed insertionSortSlice defaultPrinter
     (eventSnapshot [stamped 10; unstamped])
  = [unstamped; stamped 10] /\
  ~ StronglySorted claimedOrder
      (@printed insertionSortSlice defaultPrinter
         (eventSnapshot [stamped 10; unstamped])).
Proof.
  assert (Hout : @printed insertionSortSlice defaultPrinter
                   (eventSnapshot [stamped 10; unstamped])
                 = [unstamped; stamped 10]) by (vm_compute; reflexivity).
  split; [exact Hout|]. rewrite Hout. intros Hs.
  inversion Hs as [|? ? _ Hfirst]; subst.
  inversion Hfirst as [|? ? Hbad _]; subst.
  exact Hbad.
Qed.

Lemma timestamps_30_10_20 :
  @printed insertionSortSlice defaultPrinter
     (eventSnapshot [stamped 30; stamped 10; stamped 20])
  = [stamped 10; stamped 20; stamped 30].
Proof. vm_compute. reflexivity. Qed.

Lemma eventList_order_witness :
  StronglySorted inPrintOrder
    (@printed insertionSortSlice defaultPrinter
       (eventSnapshot [stamped 30; unstamped; stamped 10])).
Proof.
  refine (proj1 (@eventList_order insertionSortSlice defaultPrinter
                   (eventSnapshot [stamped 30; unstamped; stamped 10]) _)).
  repeat constructor; vm_compute; discriminate.
Defined.

(** ** The [search] command *)

Section SearchFacts.

Context `{SortSlice}.
Variables (Local : time.Location) (repo queryString : string)
          (ctxDone : option time.Time) (startMillis : Z).






End SearchFacts.

(** The function literal goes through the calls of the poller one after
    the other, as long as the search goes on. *)
Section SearchCalls.

Context `{SortSlice}.
Variables (Local : time.Location) (repo queryString : string)
          (ctxDone : option time.Time) (startMillis : Z) (fl : Flags).








End SearchCalls.




(** C8, on the code.  With [--json-progress] and [--live], a first poll
    that is [Done] gives one progress record; the next poll gives none, and
    its events are printed by the event printer. *)
Theorem json_progress_live_prints_events :
  exists record,
    @Run insertionSortSlice time.UTC "repo" "q" None 1700000002000
      (plainFlags true true) ("job", None) 1700000002000000000
      [answering (eventSnapshot [firstEvent]);
       answering (eventSnapshot [firstEvent; secondEvent])]
    = ([jsonLine record;
        eventLines (Some ("2023-11-14T22:13:20Z first" +:+ newline
                          +:+ "2023-11-14T22:13:21Z second" +:+ newline))],
       None).
Proof. eexists. vm_compute. reflexivity. Qed.

(** Without [--live], [--json-progress] does what its description says: the
    output consists of progress records alone (and the job is deleted). *)
Section JsonProgressOnly.

Context `{SortSlice}.
Variables (Local : time.Location) (repo queryString : string)
          (ctxDone : option time.Time) (startMillis : Z) (fl : Flags).
Hypothesis jsonProgress : flag_jsonProgress fl = true.
Hypothesis notLive : flag_live fl = false.

Lemma pollLoop_records envs :
  forall pr q now r,
    forallb isProgressRecord
      (fst (pollLoop repo queryString ctxDone startMillis fl None pr q now
              r envs)) = true.
Proof.
  induction envs as [|env envs IH]; intros pr q now r; simpl.
  - destruct (Done r).
    + unfold finish. rewrite jsonProgress, notLive. reflexivity.
    + rewrite jsonProgress. reflexivity.
  - destruct (Done r).
    + unfold finish. rewrite jsonProgress, notLive. reflexivity.
    + rewrite jsonProgress.
      destruct (err (WaitAndPollContext q ctxDone now env)); [reflexivity|].
      specialize (IH pr (poller (WaitAndPollContext q ctxDone now env))
                    (returned (WaitAndPollContext q ctxDone now env))
                    (result (WaitAndPollContext q ctxDone now env))).
      destruct (pollLoop _ _ _ _ _ _ _ _ _ _ envs) as [outs st].
      simpl in *. exact IH.
Qed.

Lemma json_progress_only_records created now envs :
  forallb isProgressRecord
    (fst (searchBody Local repo queryString ctxDone startMillis fl created
            now envs)) = true.
Proof.
  unfold searchBody. rewrite jsonProgress, orb_true_r. simpl.
  destruct created as [jobId [e|]]; [reflexivity|].
  destruct envs as [|env envs]; [reflexivity|].
  destruct (err (WaitAndPollContext (newPoller repo jobId) ctxDone now env));
    [reflexivity|].
  match goal with
  | |- context [pollLoop ?a ?b ?c ?d ?e ?f ?g ?h ?i ?j ?k] =>
      pose proof (pollLoop_records k g h i j) as Hq;
      destruct (pollLoop a b c d e f g h i j k) as [outs st]
  end.
  simpl in *. rewrite forallb_app, Hq. destruct st; reflexivity.
Qed.

End JsonProgressOnly.

(** With [--json-progress] the progress bar never shows, live or not. *)
Section JsonProgressNoBar.

Context `{SortSlice}.
Variables (Local : time.Location) (repo queryString : string)
          (ctxDone : option time.Time) (startMillis : Z) (fl : Flags).

Lemma print_no_bar pr r : isBar (snd (print pr r)) = false.
Proof.
  destruct pr as [p|p]; simpl.
  - destruct (aggregatePrinter_print p r). reflexivity.
  - destruct (eventListPrinter_print p r). reflexivity.
Qed.

Lemma liveLoop_no_bar envs :
  forall pr q now,
    existsb isBar (fst (liveLoop ctxDone pr q now envs)) = false.
Proof.
  induction envs as [|env envs IH]; intros pr q now; simpl; [reflexivity|].
  destruct (err (WaitAndPollContext q ctxDone now env)); [reflexivity|].
  pose proof (print_no_bar pr
                (result (WaitAndPollContext q ctxDone now env))) as Hp.
  destruct (print pr (result (WaitAndPollContext q ctxDone now env)))
    as [pr' out].
  specialize (IH pr' (poller (WaitAndPollContext q ctxDone now env))
                (returned (WaitAndPollContext q ctxDone now env))).
  destruct (liveLoop ctxDone pr' _ _ envs) as [outs st].
  simpl in *. rewrite Hp, IH. reflexivity.
Qed.

Lemma finish_no_bar pr q now r envs :
  existsb isBar
    (fst (finish repo queryString ctxDone startMillis fl None pr q now r
            envs)) = false.
Proof.
  unfold finish.
  destruct (negb (flag_jsonProgress fl)) eqn:Hjson.
  - pose proof (print_no_bar pr r) as Hp.
    destruct (print pr r) as [pr' out].
    pose proof (liveLoop_no_bar envs pr' q now) as Hl.
    destruct (flag_live fl);
      [destruct (liveLoop ctxDone pr' q now envs) as [outs st]|];
      simpl in *; rewrite !existsb_app; simpl;
      destruct (flag_jsonProgress fl); simpl; rewrite ?Hp, ?Hl; reflexivity.
  - pose proof (liveLoop_no_bar envs pr q now) as Hl.
    destruct (flag_live fl);
      [destruct (liveLoop ctxDone pr q now envs) as [outs st]|];
      simpl in *; rewrite !existsb_app; simpl;
      destruct (flag_jsonProgress fl); simpl; rewrite ?Hl; reflexivity.
Qed.

Lemma pollLoop_no_bar envs :
  forall pr q now r,
    existsb isBar
      (fst (pollLoop repo queryString ctxDone startMillis fl None pr q now r
              envs)) = false.
Proof.
  induction envs as [|env envs IH]; intros pr q now r; simpl.
  - destruct (Done r); [apply finish_no_bar|].
    destruct (flag_jsonProgress fl); reflexivity.
  - destruct (Done r); [apply finish_no_bar|].
    destruct (err (WaitAndPollContext q ctxDone now env)).
    + destruct (flag_jsonProgress fl); reflexivity.
    + specialize (IH pr (poller (WaitAndPollContext q ctxDone now env))
                    (returned (WaitAndPollContext q ctxDone now env))
                    (result (WaitAndPollContext q ctxDone now env))).
      destruct (pollLoop _ _ _ _ _ _ _ _ _ _ envs) as [outs st].
      simpl in *. rewrite !existsb_app, IH.
      destruct (flag_jsonProgress fl); reflexivity.
Qed.

Lemma json_progress_no_bar created now envs :
  flag_jsonProgress fl = true ->
  existsb isBar
    (fst (searchBody Local repo queryString ctxDone startMillis fl created
            now envs)) = false.
Proof.
  intros Hjson. unfold searchBody. rewrite Hjson, orb_true_r. simpl.
  destruct created as [jobId [e|]]; [reflexivity|].
  destruct envs as [|env envs]; [reflexivity|].
  destruct (err (WaitAndPollContext (newPoller repo jobId) ctxDone now env));
    [reflexivity|].
  match goal with
  | |- context [pollLoop ?a ?b ?c ?d ?e ?f ?g ?h ?i ?j ?k] =>
      pose proof (pollLoop_no_bar k g h i j) as Hq;
      destruct (pollLoop a b c d e f g h i j k) as [outs st]
  end.
  simpl in *. rewrite existsb_app, Hq. destruct st; reflexivity.
Qed.

End JsonProgressNoBar.

(** The contract of [sort.Slice] does not fix the order of events without
    timestamp: a sort within the contract prints two of them in reverse. *)
Lemma contract_allows_reordering :
  @printed reversingSortSlice defaultPrinter
     (eventSnapshot [unstampedNamed "one"; unstampedNamed "two"])
  = [unstampedNamed "two"; unstampedNamed "one"].
Proof. vm_compute. reflexivity. Qed.

(* ===================================================================== *)
(** * Further properties of the code *)
(* ===================================================================== *)

(** ** The poller over a run *)

(** X1.  The first call on a new poller does not wait: when the context is
    not cancelled, its one request goes out as soon as the timer channel
    delivers, with no delay of the poller's own. *)
Theorem first_poll_is_immediate (repo jobId : string) (now : time.Time)
    (env : PollEnv) :
  time.zero <= now ->
  requests (WaitAndPollContext (newPoller repo jobId) None now env)
  = [now + timerLag env].
Proof.
  intros Hnow. unfold WaitAndPollContext. simpl selectTimer. cbv iota.
  assert (Ht : timerReady (newPoller repo jobId) now env = now + timerLag env).
  { rewrite timerReady_value by (apply newPoller_schedulable; exact Hnow).
    unfold newPoller. simpl. lia. }
  rewrite Ht. destruct (pollReply env) as [res [e|]]; reflexivity.
Qed.

Lemma first_poll_is_immediate_witness :
  requests (WaitAndPollContext (newPoller "repo" "job") None
              1700000000000000000 promptReply)
  = [1700000000000000000].
Proof.
  refine (first_poll_is_immediate "repo" "job" 1700000000000000000
            promptReply _).
  unfold time.zero. lia.
Defined.

Lemma answered_after_request q ctxDone now env :
  sane env ->
  Forall (fun t => t <= returned (WaitAndPollContext q ctxDone now env))
         (requests (WaitAndPollContext q ctxDone now env)).
Proof.
  intros [_ Hlat]. unfold WaitAndPollContext.
  destruct (selectTimer q ctxDone now env); [|constructor].
  destruct (pollReply env) as [res [e|]]; simpl;
    (constructor; [lia|constructor]).
Qed.

Lemma pollSession_invariant (ctxDone : option time.Time)
    (envs : list PollEnv) :
  forall (q : queryJobPoller) (now : time.Time),
    schedulable q now -> List.Forall sane envs ->
    List.Forall (fun call =>
              schedulable (fst (fst call)) (snd (fst call)) /\
              List.Forall (fun t => nextPoll (fst (fst call)) <= t)
                     (requests (snd call)))
           (pollSession q ctxDone now envs) /\
    List.Forall (fun t => now <= t)
           (requestsOf (pollSession q ctxDone now envs)) /\
    StronglySorted Z.le (requestsOf (pollSession q ctxDone now envs)).
Proof.
  induction envs as [|env envs IH]; intros q now Hs Hsane; simpl.
  - unfold requestsOf. simpl. repeat constructor.
  - inversion Hsane as [|? ? Henv Henvs]; subst.
    pose proof (requests_after_nextPoll q ctxDone now env Hs Henv) as Hreq.
    pose proof (answered_after_request q ctxDone now env Henv) as Hans.
    pose proof (returned_monotone q ctxDone now env Hs Henv) as Hmono.
    assert (Hone : (exists t, requests (WaitAndPollContext q ctxDone now env)
                              = [t])
                   \/ requests (WaitAndPollContext q ctxDone now env) = []).
    { unfold WaitAndPollContext.
      destruct (selectTimer q ctxDone now env); [|right; reflexivity].
      destruct (pollReply env) as [res [e|]]; left; eexists; reflexivity. }
    assert (Hhere : schedulable q now /\
              List.Forall (fun t => nextPoll q <= t)
                (requests (WaitAndPollContext q ctxDone now env))).
    { split; [exact Hs|]. rewrite List.Forall_forall in Hreq |- *.
      intros t Ht. apply Hreq. exact Ht. }
    destruct (err (WaitAndPollContext q ctxDone now env)) eqn:Herr.
    + unfold requestsOf. simpl. rewrite app_nil_r.
      split; [repeat constructor; apply Hhere|].
      split.
      * rewrite List.Forall_forall in Hreq |- *. intros t Ht.
        apply Hreq. exact Ht.
      * destruct Hone as [[t ->]| ->]; repeat constructor.
    + destruct (IH (poller (WaitAndPollContext q ctxDone now env))
                  (returned (WaitAndPollContext q ctxDone now env)))
        as (Hcalls & Hlater & Hsorted);
        [apply schedulable_preserved; [exact Hs|exact Henv|lia]
        |exact Henvs|].
      split; [constructor; [exact Hhere|exact Hcalls]|].
      unfold requestsOf in *. simpl.
      split.
      * apply List.Forall_app. split.
        -- rewrite List.Forall_forall in Hreq |- *. intros t Ht.
           apply Hreq. exact Ht.
        -- rewrite List.Forall_forall in Hlater |- *. intros t Ht.
           specialize (Hlater t Ht). lia.
      * destruct Hone as [[t Ht]|Hnone]; rewrite ?Ht, ?Hnone in *; simpl.
        -- constructor; [exact Hsorted|].
           inversion Hans as [|? ? Hle _]; subst.
           rewrite List.Forall_forall in Hlater |- *. intros t' Ht'.
           specialize (Hlater t' Ht'). lia.
        -- exact Hsorted.
Qed.

(** X2.  In a run of polls that starts from a new poller, with a clock that
    shows a time of our era and a world that never answers before it is
    asked: every call finds a poller it can wait on exactly, no request of
    the run goes out before the [nextPoll] its call found, and the requests
    go out in the order of the calls, none before the run began. *)
Theorem poll_run_keeps_schedule (repo jobId : string)
    (ctxDone : option time.Time) (now : time.Time) (envs : list PollEnv) :
  time.zero <= now -> List.Forall sane envs ->
  let calls := pollSession (newPoller repo jobId) ctxDone now envs in
  List.Forall (fun call =>
            schedulable (fst (fst call)) (snd (fst call)) /\
            List.Forall (fun t => nextPoll (fst (fst call)) <= t)
                   (requests (snd call))) calls /\
  List.Forall (fun t => now <= t) (requestsOf calls) /\
  StronglySorted Z.le (requestsOf calls).
Proof.
  intros Hnow Hsane calls. subst calls.
  apply pollSession_invariant; [|exact Hsane].
  apply newPoller_schedulable. exact Hnow.
Qed.

Lemma poll_run_keeps_schedule_witness :
  StronglySorted Z.le
    (requestsOf (pollSession (newPoller "repo" "job") None
                   1700000000000000000 [promptReply; promptReply])).
Proof.
  refine (proj2 (proj2 (poll_run_keeps_schedule "repo" "job" None
                          1700000000000000000 [promptReply; promptReply]
                          _ _))).
  - unfold time.zero. lia.
  - repeat constructor; simpl; lia.
Defined.

(** ** The event-list printer: what a call prints *)

Lemma emit_complete (evs : list Event) :
  forall (ids : gmap string bool) (e : Event) (k : string),
    In e evs -> idOf e = Some k -> isPrinted ids k = false ->
    In k (omap idOf (fst (emit ids evs))).
Proof.
  induction evs as [|e' evs IH]; intros ids e k Hin Hid Hfresh;
    [destruct Hin|].
  simpl. destruct (idOf e') as [k'|] eqn:Hid'.
  - destruct (decide (k' = k)) as [->|Hne].
    + rewrite Hfresh. simpl.
      destruct (emit (<[k:=true]> ids) evs) as [out ids'']. simpl.
      rewrite Hid'. left. reflexivity.
    + assert (Hin' : In e evs).
      { destruct Hin as [->|Hin]; [congruence|exact Hin]. }
      destruct (isPrinted ids k') eqn:Hk'; simpl.
      * apply (IH ids e k Hin' Hid Hfresh).
      * assert (Hfresh' : isPrinted (<[k':=true]> ids) k = false).
        { destruct (isPrinted (<[k':=true]> ids) k) eqn:Hp; [|reflexivity].
          apply isPrinted_insert in Hp. destruct Hp; congruence. }
        pose proof (IH (<[k':=true]> ids) e k Hin' Hid Hfresh') as Hrec.
        destruct (emit (<[k':=true]> ids) evs) as [out ids'']. simpl in *.
        rewrite Hid'. right. exact Hrec.
  - assert (Hin' : In e evs).
    { destruct Hin as [->|Hin]; [congruence|exact Hin]. }
    pose proof (IH ids e k Hin' Hid Hfresh) as Hrec.
    destruct (emit ids evs) as [out ids'']. simpl in *.
    rewrite Hid'. exact Hrec.
Qed.

Lemma emit_all_printed (evs : list Event) (ids : gmap string bool) :
  (forall e k, In e evs -> idOf e = Some k -> isPrinted ids k = true) ->
  emit ids evs = (List.filter hasNoId evs, ids).
Proof.
  induction evs as [|e evs IH]; intros Hall; [reflexivity|].
  assert (Hrest : forall e' k, In e' evs -> idOf e' = Some k ->
                    isPrinted ids k = true).
  { intros e' k Hin. apply Hall. right. exact Hin. }
  simpl. unfold hasNoId at 1. destruct (idOf e) as [k|] eqn:Hid.
  - rewrite (Hall e k (or_introl eq_refl) Hid). simpl. apply IH, Hrest.
  - rewrite (IH Hrest). reflexivity.
Qed.

Lemma concat_lines_cons (x : string) (l : list string) :
  String.concat "" (x :: l) = x +:+ String.concat "" l.
Proof.
  destruct l as [|y l]; simpl; [rewrite append_nil_r|]; reflexivity.
Qed.

Lemma concat_lines_app (a b : list string) :
  String.concat "" (a ++ b) = String.concat "" a +:+ String.concat "" b.
Proof.
  induction a as [|x a IH]; [reflexivity|].
  change ((x :: a) ++ b) with (x :: (a ++ b)).
  rewrite !concat_lines_cons, IH, append_assoc. reflexivity.
Qed.

(** X3.  No event with a new identifier is lost: when a snapshot holds an
    event whose ["@id"] the printer has not printed yet, the call emits
    an event with that identifier, and the line of that event is part of
    the text the call writes. *)
Theorem new_identifier_is_printed `{SortSlice}
    (p : eventListPrinter) (r : QueryResult) (e : Event) (k : string) :
  In e (Events r) -> idOf e = Some k -> isPrinted (printedIds p) k = false ->
  exists e',
    In e' (printed p r) /\ idOf e' = Some k /\
    forall lines, linesOf (printEventFunc p) (printed p r) lines ->
      exists before line after,
        printEventFunc p e' = Some line /\
        snd (eventListPrinter_print p r)
        = Some (before +:+ line +:+ after).
Proof.
  intros Hin Hid Hfresh.
  assert (Hsorted : In e (sort_Slice lessByTimestamp (Events r))).
  { apply (Permutation_in e
             (Permutation_sym (sort_Slice_perm _ lessByTimestamp (Events r)))).
    exact Hin. }
  pose proof (emit_complete _ (printedIds p) e k Hsorted Hid Hfresh) as Hk.
  apply list_elem_of_In, list_elem_of_omap in Hk.
  destruct Hk as (e' & He' & Hid').
  exists e'. split; [apply list_elem_of_In; exact He'|].
  split; [exact Hid'|].
  intros lines Hlines.
  pose proof (writeAll_lines _ _ _ Hlines) as Htext.
  rewrite <- print_writes in Htext.
  apply list_elem_of_In, in_split in He'.
  destruct He' as (evs1 & evs2 & Hsplit).
  unfold linesOf, printed in Hlines. rewrite Hsplit in Hlines.
  apply Forall2_app_inv_l in Hlines.
  destruct Hlines as (lines1 & rest & _ & Hrest & ->).
  apply Forall2_cons_inv_l in Hrest.
  destruct Hrest as (line & lines2 & Hline & _ & ->).
  exists (String.concat "" lines1), line, (String.concat "" lines2).
  split; [exact Hline|].
  rewrite Htext, concat_lines_app, concat_lines_cons. reflexivity.
Qed.

Lemma new_identifier_is_printed_witness :
  exists e',
    In e' (@printed insertionSortSlice defaultPrinter
             (eventSnapshot [firstEvent; secondEvent])) /\
    idOf e' = Some "e2" /\
    forall lines,
      linesOf (printEventFunc defaultPrinter)
        (@printed insertionSortSlice defaultPrinter
           (eventSnapshot [firstEvent; secondEvent])) lines ->
      exists before line after,
        printEventFunc defaultPrinter e' = Some line /\
        snd (@eventListPrinter_print insertionSortSlice defaultPrinter
               (eventSnapshot [firstEvent; secondEvent]))
        = Some (before +:+ line +:+ after).
Proof.
  refine (@new_identifier_is_printed insertionSortSlice defaultPrinter
            (eventSnapshot [firstEvent; secondEvent]) secondEvent "e2"
            _ _ _).
  - simpl. right. left. reflexivity.
  - reflexivity.
  - reflexivity.
Defined.

(** X4.  Printing a snapshot a second time emits the events without
    identifier again and nothing else: the text the second call writes
    is their lines, one after the other; and the set of printed
    identifiers stays as it is. *)
Theorem second_print_repeats_only_unidentified `{SortSlice}
    (p : eventListPrinter) (r : QueryResult) :
  let p1 := fst (eventListPrinter_print p r) in
  let p2 := fst (eventListPrinter_print p1 r) in
  let again :=
    List.filter hasNoId (sort_Slice lessByTimestamp (Events r)) in
  printed p1 r = again /\
  (forall lines, linesOf (printEventFunc p) again lines ->
     snd (eventListPrinter_print p1 r) = Some (String.concat "" lines)) /\
  printedIds p2 = printedIds p1.
Proof.
  intros p1 p2 again. subst p1 p2 again.
  assert (Hall : forall e k,
            In e (sort_Slice lessByTimestamp (Events r)) ->
            idOf e = Some k ->
            isPrinted (printedIds (fst (eventListPrinter_print p r))) k
            = true).
  { intros e k Hin Hid. rewrite print_printedIds.
    apply (emit_records _ _ e); assumption. }
  assert (Hprinted : printed (fst (eventListPrinter_print p r)) r
                     = List.filter hasNoId
                         (sort_Slice lessByTimestamp (Events r))).
  { unfold printed. rewrite (emit_all_printed _ _ Hall). reflexivity. }
  split; [exact Hprinted|]. split.
  - intros lines Hlines.
    rewrite print_writes, print_keeps_printEventFunc, Hprinted.
    apply writeAll_lines, Hlines.
  - rewrite (print_printedIds (fst (eventListPrinter_print p r)) r).
    rewrite (emit_all_printed _ _ Hall). reflexivity.
Qed.

(** X5.  A call prints nothing that is not in the snapshot, and no event
    more often than the snapshot holds it. *)
Theorem printed_within_snapshot `{SortSlice}
    (p : eventListPrinter) (r : QueryResult) :
  printed p r ⊆+ Events r.
Proof.
  unfold printed.
  transitivity (sort_Slice lessByTimestamp (Events r)).
  - apply sublist_submseteq, emit_sublist.
  - apply Permutation_submseteq, sort_Slice_perm.
Qed.

(** X6.  On a snapshot without events the event printer writes nothing and
    stays as it is. *)
Theorem print_empty_snapshot `{SortSlice}
    (p : eventListPrinter) (r : QueryResult) :
  Events r = [] -> eventListPrinter_print p r = (p, Some "").
Proof.
  intros Hempty. unfold eventListPrinter_print. rewrite Hempty.
  assert (Hnil : sort_Slice lessByTimestamp ([] : list Event) = []).
  { apply Permutation_nil. symmetry. apply sort_Slice_perm. }
  rewrite Hnil. simpl. destruct p. reflexivity.
Qed.

Lemma print_empty_snapshot_witness :
  @eventListPrinter_print insertionSortSlice defaultPrinter stalledSnapshot
  = (defaultPrinter, Some "").
Proof.
  exact (@print_empty_snapshot insertionSortSlice defaultPrinter
           stalledSnapshot eq_refl).
Defined.

(** ** The [search] command: how a run ends and what it shows *)

Section SessionFacts.

Context `{SortSlice}.
Variables (Local : time.Location) (repo queryString : string)
          (ctxDone : option time.Time) (startMillis : Z) (fl : Flags).

Lemma liveLoop_never_nil envs :
  forall pr q now, snd (liveLoop ctxDone pr q now envs) <> returns None.
Proof.
  induction envs as [|env envs IH]; intros pr q now; simpl; [discriminate|].
  destruct (err (WaitAndPollContext q ctxDone now env)); [discriminate|].
  destruct (print pr (result (WaitAndPollContext q ctxDone now env)))
    as [pr' out].
  specialize (IH pr' (poller (WaitAndPollContext q ctxDone now env))
                (returned (WaitAndPollContext q ctxDone now env))).
  destruct (liveLoop ctxDone pr' _ _ envs) as [outs st]. exact IH.
Qed.

Lemma finish_live_never_nil progress pr q now r envs :
  flag_live fl = true ->
  snd (finish repo queryString ctxDone startMillis fl progress pr q now r
         envs) <> returns None.
Proof.
  intros Hlive. unfold finish. rewrite Hlive.
  destruct (negb (flag_jsonProgress fl)).
  - destruct (print pr r) as [pr' out].
    pose proof (liveLoop_never_nil envs pr' q now) as Hl.
    destruct (liveLoop ctxDone pr' q now envs) as [outs st]. exact Hl.
  - pose proof (liveLoop_never_nil envs pr q now) as Hl.
    destruct (liveLoop ctxDone pr q now envs) as [outs st]. exact Hl.
Qed.

Lemma pollLoop_live_never_nil envs :
  flag_live fl = true ->
  forall progress pr q now r,
    snd (pollLoop repo queryString ctxDone startMillis fl progress pr q now
           r envs) <> returns None.
Proof.
  intros Hlive.
  induction envs as [|env envs IH]; intros progress pr q now r; simpl.
  - destruct (Done r); [apply finish_live_never_nil, Hlive|discriminate].
  - destruct (Done r); [apply finish_live_never_nil, Hlive|].
    destruct (err (WaitAndPollContext q ctxDone now env)); [discriminate|].
    specialize (IH (option_map (fun b => Update b r) progress) pr
                  (poller (WaitAndPollContext q ctxDone now env))
                  (returned (WaitAndPollContext q ctxDone now env))
                  (result (WaitAndPollContext q ctxDone now env))).
    destruct (pollLoop _ _ _ _ _ _ _ _ _ _ envs) as [outs st]. exact IH.
Qed.

Lemma searchBody_live_never_nil created now envs :
  flag_live fl = true ->
  snd (searchBody Local repo queryString ctxDone startMillis fl created now
         envs) <> returns None.
Proof.
  intros Hlive. unfold searchBody.
  destruct created as [jobId [e|]]; [discriminate|].
  destruct envs as [|env envs]; [discriminate|].
  destruct (err (WaitAndPollContext (newPoller repo jobId) ctxDone now env));
    [discriminate|].
  match goal with
  | |- context [pollLoop ?a ?b ?c ?d ?e ?f ?g ?h ?i ?j ?k] =>
      pose proof (pollLoop_live_never_nil k Hlive f g h i j) as Hq;
      destruct (pollLoop a b c d e f g h i j k) as [outs st]
  end.
  exact Hq.
Qed.

(** Outputs of a kind that neither the bar, nor the progress records, nor
    the printers produce do not come from the loops. *)
Section LoopOutputs.

Variable P : Output -> bool.
Hypothesis P_barUpdate : forall b, P (barUpdate b) = false.
Hypothesis P_barFinish : P barFinish = false.
Hypothesis P_jsonLine : forall line, P (jsonLine line) = false.
Hypothesis P_print : forall pr r, P (snd (print pr r)) = false.

Lemma liveLoop_avoids envs :
  forall pr q now, existsb P (fst (liveLoop ctxDone pr q now envs)) = false.
Proof.
  induction envs as [|env envs IH]; intros pr q now; simpl; [reflexivity|].
  destruct (err (WaitAndPollContext q ctxDone now env)); [reflexivity|].
  pose proof (P_print pr (result (WaitAndPollContext q ctxDone now env)))
    as Hp.
  destruct (print pr (result (WaitAndPollContext q ctxDone now env)))
    as [pr' out].
  specialize (IH pr' (poller (WaitAndPollContext q ctxDone now env))
                (returned (WaitAndPollContext q ctxDone now env))).
  destruct (liveLoop ctxDone pr' _ _ envs) as [outs st].
  simpl in *. rewrite Hp, IH. reflexivity.
Qed.

Lemma finish_avoids progress pr q now r envs :
  existsb P
    (fst (finish repo queryString ctxDone startMillis fl progress pr q now r
            envs)) = false.
Proof.
  unfold finish.
  assert (Hbar : existsb P match progress with
                           | Some b => [barUpdate (Update b r); barFinish]
                           | None => []
                           end = false).
  { destruct progress; simpl; rewrite ?P_barUpdate, ?P_barFinish;
      reflexivity. }
  assert (Hjson : existsb P (if flag_jsonProgress fl
                             then [progressJson repo queryString startMillis
                                     r now]
                             else []) = false).
  { destruct (flag_jsonProgress fl); simpl;
      [unfold progressJson; rewrite P_jsonLine|]; reflexivity. }
  destruct (negb (flag_jsonProgress fl)).
  - pose proof (P_print pr r) as Hp.
    destruct (print pr r) as [pr' out].
    pose proof (liveLoop_avoids envs pr' q now) as Hl.
    destruct (flag_live fl);
      [destruct (liveLoop ctxDone pr' q now envs) as [outs st]|];
      simpl in *; rewrite !existsb_app, Hbar, Hjson; simpl;
      rewrite Hp, ?Hl; reflexivity.
  - pose proof (liveLoop_avoids envs pr q now) as Hl.
    destruct (flag_live fl);
      [destruct (liveLoop ctxDone pr q now envs) as [outs st]|];
      simpl in *; rewrite !existsb_app, Hbar, Hjson; simpl;
      rewrite ?Hl; reflexivity.
Qed.

Lemma pollLoop_avoids envs :
  forall progress pr q now r,
    existsb P
      (fst (pollLoop repo queryString ctxDone startMillis fl progress pr q
              now r envs)) = false.
Proof.
  assert (Hbar : forall progress r,
            existsb P match option_map (fun b => Update b r) progress with
                      | Some b => [barUpdate b]
                      | None => []
                      end = false).
  { intros [b|] r; simpl; rewrite ?P_barUpdate; reflexivity. }
  assert (Hjson : forall r now,
            existsb P (if flag_jsonProgress fl
                       then [progressJson repo queryString startMillis r now]
                       else []) = false).
  { intros r now. destruct (flag_jsonProgress fl); simpl;
      [unfold progressJson; rewrite P_jsonLine|]; reflexivity. }
  induction envs as [|env envs IH]; intros progress pr q now r;
    cbn [pollLoop].
  - destruct (Done r); [apply finish_avoids|].
    cbn [fst]. rewrite existsb_app, Hbar, Hjson. reflexivity.
  - destruct (Done r); [apply finish_avoids|].
    destruct (err (WaitAndPollContext q ctxDone now env)).
    + cbn [fst]. rewrite existsb_app, Hbar, Hjson. reflexivity.
    + specialize (IH (option_map (fun b => Update b r) progress) pr
                    (poller (WaitAndPollContext q ctxDone now env))
                    (returned (WaitAndPollContext q ctxDone now env))
                    (result (WaitAndPollContext q ctxDone now env))).
      destruct (pollLoop _ _ _ _ _ _ _ _ _ _ envs) as [outs st].
      cbn [fst] in *. rewrite !existsb_app, Hbar, Hjson, IH. reflexivity.
Qed.

End LoopOutputs.

Lemma print_not_jobDeleted pr r : isJobDeleted (snd (print pr r)) = false.
Proof.
  destruct pr as [p|p]; simpl.
  - destruct (aggregatePrinter_print p r). reflexivity.
  - destruct (eventListPrinter_print p r). reflexivity.
Qed.

End SessionFacts.

(** X7.  A live search does not end by itself: the function literal of
    [Run] never returns [nil] with [--live], so the command ends with
    status 0 only when the wait was cancelled. *)
Theorem live_search_ends_only_on_error `{SortSlice}
    (Local : time.Location) (repo queryString : string)
    (ctxDone : option time.Time) (startMillis : Z) (fl : Flags)
    (created : string * option error) (now : time.Time)
    (envs : list PollEnv) :
  flag_live fl = true ->
  snd (searchBody Local repo queryString ctxDone startMillis fl created now
         envs) <> returns None /\
  (snd (Run Local repo queryString ctxDone startMillis fl created now envs)
   = Some (exited 0) ->
   snd (searchBody Local repo queryString ctxDone startMillis fl created now
          envs) = returns (Some context_Canceled)).
Proof.
  intros Hlive.
  pose proof (searchBody_live_never_nil Local repo queryString ctxDone
                startMillis fl created now envs Hlive) as Hnil.
  split; [exact Hnil|].
  unfold Run.
  destruct (searchBody Local repo queryString ctxDone startMillis fl created
              now envs) as [outs st].
  simpl in *. destruct st as [[e|]|]; simpl.
  - destruct e; simpl; intros Hst; [reflexivity|discriminate|discriminate].
  - contradiction.
  - discriminate.
Qed.

Lemma live_search_ends_only_on_error_witness :
  snd (@searchBody insertionSortSlice time.UTC "repo" "q" None 1700000002000
         (plainFlags true false) ("job", None) 1700000002000000000
         [answering (eventSnapshot [firstEvent]); failingReply])
  <> returns None.
Proof.
  exact (proj1 (@live_search_ends_only_on_error insertionSortSlice time.UTC
                  "repo" "q" None 1700000002000 (plainFlags true false)
                  ("job", None) 1700000002000000000
                  [answering (eventSnapshot [firstEvent]); failingReply]
                  eq_refl)).
Defined.

Lemma searchBody_last_step `{SortSlice}
    (Local : time.Location) (repo queryString : string)
    (ctxDone : option time.Time) (startMillis : Z) (fl : Flags)
    (created : string * option error) (now : time.Time)
    (envs : list PollEnv) :
  let body := searchBody Local repo queryString ctxDone startMillis fl
                created now envs in
  match snd created, snd body with
  | Some _, _ => fst body = []
  | None, returns _ => last (fst body) = Some jobDeleted
  | None, waiting => True
  end.
Proof.
  unfold searchBody. destruct created as [jobId [e|]]; [reflexivity|].
  cbn [snd].
  destruct envs as [|env envs]; [exact I|].
  destruct (err (WaitAndPollContext (newPoller repo jobId) ctxDone now
                   env)).
  { cbn [fst snd]. rewrite app_assoc. apply last_snoc. }
  destruct (pollLoop _ _ _ _ _ _ _ _ _ _ envs) as [outs st].
  cbn [fst snd]. destruct st; [|exact I].
  rewrite app_assoc. apply last_snoc.
Qed.

(** X8.  The deferred [Delete]: when the job could not be created nothing
    is shown and nothing is deleted; once it is created, the job is
    deleted exactly once, as the last thing the function literal does,
    however it returns; as long as it waits for a poll, no job is
    deleted. *)
Theorem job_deleted_once_on_return `{SortSlice}
    (Local : time.Location) (repo queryString : string)
    (ctxDone : option time.Time) (startMillis : Z) (fl : Flags)
    (created : string * option error) (now : time.Time)
    (envs : list PollEnv) :
  let body := searchBody Local repo queryString ctxDone startMillis fl
                created now envs in
  match snd created, snd body with
  | Some e, _ => body = ([], returns (Some e))
  | None, returns _ =>
      exists outs, fst body = outs ++ [jobDeleted] /\
                   existsb isJobDeleted outs = false
  | None, waiting => existsb isJobDeleted (fst body) = false
  end.
Proof.
  unfold searchBody. destruct created as [jobId [e|]]; simpl; [reflexivity|].
  set (bar := match (if negb (flag_noProgress fl || flag_jsonProgress fl)
                     then Some newQueryResultProgressBar else None) with
              | Some _ => [barStart]
              | None => []
              end).
  assert (Hbar : existsb isJobDeleted bar = false).
  { subst bar. destruct (negb _); reflexivity. }
  destruct envs as [|env envs].
  - simpl. rewrite app_nil_r. exact Hbar.
  - destruct (err (WaitAndPollContext (newPoller repo jobId) ctxDone now
                     env)).
    + simpl. exists bar. split; [reflexivity|exact Hbar].
    + match goal with
      | |- context [pollLoop ?a ?b ?c ?d ?e ?f ?g ?h ?i ?j ?k] =>
          pose proof (pollLoop_avoids a b c d e isJobDeleted
                        (fun _ => eq_refl) eq_refl (fun _ => eq_refl)
                        print_not_jobDeleted k f g h i j) as Hq;
          destruct (pollLoop a b c d e f g h i j k) as [outs st]
      end.
      simpl in *. destruct st as [e|].
      * exists (bar ++ outs). split.
        -- rewrite <- app_assoc. reflexivity.
        -- rewrite existsb_app, Hbar, Hq. reflexivity.
      * rewrite app_nil_r, existsb_app, Hbar, Hq. reflexivity.
Qed.

Section SessionResults.

Context `{SortSlice}.
Variables (Local : time.Location) (repo queryString : string)
          (ctxDone : option time.Time) (startMillis : Z) (fl : Flags).

Lemma print_isData pr r : isData (snd (print pr r)) = true.
Proof.
  destruct pr as [p|p]; simpl.
  - destruct (aggregatePrinter_print p r). reflexivity.
  - destruct (eventListPrinter_print p r). reflexivity.
Qed.

Lemma bar_no_data (progress : option queryResultProgressBar)
    (r : QueryResult) :
  List.filter isData match progress with
                     | Some b => [barUpdate (Update b r); barFinish]
                     | None => []
                     end = [].
Proof. destruct progress; reflexivity. Qed.

Lemma update_no_data (progress : option queryResultProgressBar)
    (r : QueryResult) :
  List.filter isData match option_map (fun b => Update b r) progress with
                     | Some b => [barUpdate b]
                     | None => []
                     end = [].
Proof. destruct progress; reflexivity. Qed.

Lemma json_no_data (r : QueryResult) (now : time.Time) :
  List.filter isData (if flag_jsonProgress fl
                      then [progressJson repo queryString startMillis r now]
                      else []) = [].
Proof. destruct (flag_jsonProgress fl); reflexivity. Qed.

(** What the end of the function literal shows of the results when the
    search is not live. *)
Lemma finish_data progress pr q now r envs :
  flag_live fl = false ->
  snd (finish repo queryString ctxDone startMillis fl progress pr q now r
         envs) = returns None /\
  List.filter isData
    (fst (finish repo queryString ctxDone startMillis fl progress pr q now
            r envs))
  = if flag_jsonProgress fl then [] else [snd (print pr r)].
Proof.
  intros Hlive. unfold finish. rewrite Hlive.
  pose proof (print_isData pr r) as Hp.
  destruct (flag_jsonProgress fl) eqn:Hjson; cbn [negb].
  - cbn [fst]. split; [reflexivity|].
    rewrite !List.filter_app, bar_no_data. reflexivity.
  - destruct (print pr r) as [pr' out]. cbn [fst snd] in *.
    split; [reflexivity|].
    rewrite !List.filter_app, bar_no_data. cbn. rewrite Hp. reflexivity.
Qed.

Lemma pollLoop_data_once envs :
  flag_live fl = false ->
  forall progress pr q now r,
    let run := pollLoop repo queryString ctxDone startMillis fl progress pr
                 q now r envs in
    (length (List.filter isData (fst run)) <= 1)%nat /\
    (snd run <> returns None -> List.filter isData (fst run) = []) /\
    (flag_jsonProgress fl = true -> List.filter isData (fst run) = []).
Proof.
  intros Hlive.
  induction envs as [|env envs IH]; intros progress pr q now r;
    cbn [pollLoop]; cbv zeta.
  - destruct (Done r).
    + destruct (finish_data progress pr q now r [] Hlive) as [Hst Hdata].
      rewrite Hdata, Hst.
      destruct (flag_jsonProgress fl); cbn; repeat split;
        try lia; try congruence.
    + cbn [fst snd]. rewrite List.filter_app, update_no_data, json_no_data.
      cbn. repeat split; lia || reflexivity.
  - destruct (Done r).
    + destruct (finish_data progress pr q now r (env :: envs) Hlive)
        as [Hst Hdata].
      rewrite Hdata, Hst.
      destruct (flag_jsonProgress fl); cbn; repeat split;
        try lia; try congruence.
    + destruct (err (WaitAndPollContext q ctxDone now env)).
      * cbn [fst snd]. rewrite List.filter_app, update_no_data, json_no_data.
        cbn. repeat split; lia || reflexivity.
      * specialize (IH (option_map (fun b => Update b r) progress) pr
                      (poller (WaitAndPollContext q ctxDone now env))
                      (returned (WaitAndPollContext q ctxDone now env))
                      (result (WaitAndPollContext q ctxDone now env))).
        cbv zeta in IH.
        destruct (pollLoop _ _ _ _ _ _ _ _ _ _ envs) as [outs st].
        cbn [fst snd] in *.
        rewrite !List.filter_app, update_no_data, json_no_data. exact IH.
Qed.

Lemma print_keeps_kind pr r :
  foreignTo (fst (print pr r)) = foreignTo pr /\
  foreignTo pr (snd (print pr r)) = false.
Proof.
  destruct pr as [p|p]; simpl.
  - destruct (aggregatePrinter_print p r). split; reflexivity.
  - destruct (eventListPrinter_print p r). split; reflexivity.
Qed.

Lemma liveLoop_kind envs :
  forall pr q now,
    existsb (foreignTo pr) (fst (liveLoop ctxDone pr q now envs)) = false.
Proof.
  induction envs as [|env envs IH]; intros pr q now; simpl; [reflexivity|].
  destruct (err (WaitAndPollContext q ctxDone now env)); [reflexivity|].
  destruct (print_keeps_kind pr
              (result (WaitAndPollContext q ctxDone now env)))
    as [Hkind Hout].
  destruct (print pr (result (WaitAndPollContext q ctxDone now env)))
    as [pr' out].
  specialize (IH pr' (poller (WaitAndPollContext q ctxDone now env))
                (returned (WaitAndPollContext q ctxDone now env))).
  destruct (liveLoop ctxDone pr' _ _ envs) as [outs st].
  cbn [fst snd] in *. rewrite Hkind in IH. cbn [existsb].
  rewrite Hout, IH. reflexivity.
Qed.

Lemma bar_kind pr (progress : option queryResultProgressBar)
    (r : QueryResult) :
  existsb (foreignTo pr) match progress with
                         | Some b => [barUpdate (Update b r); barFinish]
                         | None => []
                         end = false.
Proof. destruct pr, progress; reflexivity. Qed.

Lemma update_kind pr (progress : option queryResultProgressBar)
    (r : QueryResult) :
  existsb (foreignTo pr)
    match option_map (fun b => Update b r) progress with
    | Some b => [barUpdate b]
    | None => []
    end = false.
Proof. destruct pr, progress; reflexivity. Qed.

Lemma json_kind pr (r : QueryResult) (now : time.Time) :
  existsb (foreignTo pr)
    (if flag_jsonProgress fl
     then [progressJson repo queryString startMillis r now]
     else []) = false.
Proof. destruct pr, (flag_jsonProgress fl); reflexivity. Qed.

Lemma finish_kind progress pr q now r envs :
  existsb (foreignTo pr)
    (fst (finish repo queryString ctxDone startMillis fl progress pr q now r
            envs)) = false.
Proof.
  unfold finish.
  destruct (negb (flag_jsonProgress fl)).
  - destruct (print_keeps_kind pr r) as [Hkind Hout].
    destruct (print pr r) as [pr' out]. cbn [fst snd] in *.
    pose proof (liveLoop_kind envs pr' q now) as Hl. rewrite Hkind in Hl.
    destruct (flag_live fl);
      [destruct (liveLoop ctxDone pr' q now envs) as [outs st]|];
      cbn [fst snd] in *;
      rewrite !existsb_app, bar_kind, json_kind; cbn [existsb orb];
      rewrite Hout, ?Hl; reflexivity.
  - pose proof (liveLoop_kind envs pr q now) as Hl.
    destruct (flag_live fl);
      [destruct (liveLoop ctxDone pr q now envs) as [outs st]|];
      cbn [fst snd] in *;
      rewrite !existsb_app, bar_kind, json_kind; cbn [existsb orb app];
      rewrite ?Hl; reflexivity.
Qed.

Lemma pollLoop_kind envs :
  forall progress pr q now r,
    existsb (foreignTo pr)
      (fst (pollLoop repo queryString ctxDone startMillis fl progress pr q
              now r envs)) = false.
Proof.
  induction envs as [|env envs IH]; intros progress pr q now r;
    cbn [pollLoop].
  - destruct (Done r); [apply finish_kind|].
    cbn [fst]. rewrite existsb_app, update_kind, json_kind. reflexivity.
  - destruct (Done r); [apply finish_kind|].
    destruct (err (WaitAndPollContext q ctxDone now env)).
    + cbn [fst]. rewrite existsb_app, update_kind, json_kind. reflexivity.
    + specialize (IH (option_map (fun b => Update b r) progress) pr
                    (poller (WaitAndPollContext q ctxDone now env))
                    (returned (WaitAndPollContext q ctxDone now env))
                    (result (WaitAndPollContext q ctxDone now env))).
      destruct (pollLoop _ _ _ _ _ _ _ _ _ _ envs) as [outs st].
      cbn [fst] in *.
      rewrite !existsb_app, update_kind, json_kind, IH. reflexivity.
Qed.

(** A poll under a context that is never cancelled returns what
    [PollContext] returned. *)
Lemma poll_uncancelled q now env :
  result (WaitAndPollContext q None now env) = fst (pollReply env) /\
  err (WaitAndPollContext q None now env) = snd (pollReply env).
Proof.
  unfold WaitAndPollContext. cbn [selectTimer].
  destruct (pollReply env) as [res [e|]]; split; reflexivity.
Qed.

End SessionResults.

(** X9.  Without [--live] the results are written at most once: not at
    all with [--json-progress], and not at all when the function literal
    returns an error or is still waiting for a poll. *)
Theorem results_written_once_without_live `{SortSlice}
    (Local : time.Location) (repo queryString : string)
    (ctxDone : option time.Time) (startMillis : Z) (fl : Flags)
    (created : string * option error) (now : time.Time)
    (envs : list PollEnv) :
  flag_live fl = false ->
  let body := searchBody Local repo queryString ctxDone startMillis fl
                created now envs in
  (length (List.filter isData (fst body)) <= 1)%nat /\
  (snd body <> returns None -> List.filter isData (fst body) = []) /\
  (flag_jsonProgress fl = true -> List.filter isData (fst body) = []).
Proof.
  intros Hlive. unfold searchBody.
  destruct created as [jobId [e|]].
  { cbn. repeat split; lia || reflexivity. }
  set (bar := match (if negb (flag_noProgress fl || flag_jsonProgress fl)
                     then Some newQueryResultProgressBar else None) with
              | Some _ => [barStart]
              | None => []
              end).
  assert (Hbar : List.filter isData bar = []).
  { subst bar. destruct (negb _); reflexivity. }
  destruct envs as [|env envs].
  { cbn [fst snd]. rewrite !List.filter_app, Hbar. cbn.
    repeat split; lia || reflexivity. }
  destruct (err (WaitAndPollContext (newPoller repo jobId) ctxDone now env)).
  { cbn [fst snd]. rewrite !List.filter_app, Hbar. cbn.
    repeat split; lia || reflexivity. }
  match goal with
  | |- context [pollLoop ?a ?b ?c ?d ?e ?f ?g ?h ?i ?j ?k] =>
      pose proof (pollLoop_data_once a b c d e k Hlive f g h i j) as Hq;
      cbv zeta in Hq;
      destruct (pollLoop a b c d e f g h i j k) as [outs st]
  end.
  cbn [fst snd] in *. rewrite !List.filter_app, Hbar.
  assert (Htail : List.filter isData
                    match st with
                    | returns _ => [jobDeleted]
                    | waiting => []
                    end = []).
  { destruct st; reflexivity. }
  rewrite Htail, app_nil_r. exact Hq.
Qed.

Lemma results_written_once_without_live_witness :
  Nat.le
    (length (List.filter isData
       (fst (@searchBody insertionSortSlice time.UTC "repo" "q" None
               1700000002000 (plainFlags false false) ("job", None)
               1700000002000000000
               [answering pollAfter500;
                answering (eventSnapshot [firstEvent])]))))
    1%nat.
Proof.
  exact (proj1 (@results_written_once_without_live insertionSortSlice
                  time.UTC "repo" "q" None 1700000002000
                  (plainFlags false false) ("job", None)
                  1700000002000000000
                  [answering pollAfter500;
                   answering (eventSnapshot [firstEvent])] eq_refl)).
Defined.

(** X10.  The printer is chosen once, from the first snapshot: when that
    one is an aggregate, no event lines are ever written, and when it is
    not, no aggregate output is, whatever the later snapshots say of
    themselves. *)
Theorem printer_chosen_by_first_snapshot `{SortSlice}
    (Local : time.Location) (repo queryString jobId : string)
    (ctxDone : option time.Time) (startMillis : Z) (fl : Flags)
    (now : time.Time) (env : PollEnv) (envs : list PollEnv) :
  let first := WaitAndPollContext (newPoller repo jobId) ctxDone now env in
  err first = None ->
  existsb (if IsAggregate (Metadata (result first))
           then isEventLines else isAggregateText)
    (fst (searchBody Local repo queryString ctxDone startMillis fl
            (jobId, None) now (env :: envs))) = false.
Proof.
  intros first Hok. subst first. unfold searchBody. rewrite Hok.
  match goal with
  | |- context [pollLoop ?a ?b ?c ?d ?e ?f ?g ?h ?i ?j ?k] =>
      pose proof (pollLoop_kind a b c d e k f g h i j) as Hq;
      destruct (pollLoop a b c d e f g h i j k) as [outs st]
  end.
  cbn [fst] in *.
  destruct (IsAggregate
              (Metadata (result (WaitAndPollContext (newPoller repo jobId)
                                   ctxDone now env)))).
  - assert (Hq' : existsb isEventLines outs = false) by exact Hq.
    rewrite !existsb_app, Hq'. destruct (negb _), st; reflexivity.
  - assert (Hq' : existsb isAggregateText outs = false) by exact Hq.
    rewrite !existsb_app, Hq'. destruct (negb _), st; reflexivity.
Qed.

Lemma printer_chosen_by_first_snapshot_witness :
  existsb isAggregateText
    (fst (@searchBody insertionSortSlice time.UTC "repo" "q" None
            1700000002000 (plainFlags true false) ("job", None)
            1700000002000000000
            [answering (eventSnapshot [firstEvent]);
             answering (aggregateSnapshot [[("count", number 2)]])]))
  = false.
Proof.
  exact (@printer_chosen_by_first_snapshot insertionSortSlice time.UTC
           "repo" "q" "job" None 1700000002000 (plainFlags true false)
           1700000002000000000 (answering (eventSnapshot [firstEvent]))
           [answering (aggregateSnapshot [[("count", number 2)]])]
           eq_refl).
Defined.

Section SessionToTheEnd.

Context `{SortSlice}.
Variables (Local : time.Location) (repo queryString : string)
          (startMillis : Z) (fl : Flags).
Hypothesis notLive : flag_live fl = false.
Hypothesis notJson : flag_jsonProgress fl = false.

Lemma pollLoop_first_done envs (done : QueryResult) :
  forall progress pr q now r,
    firstDone r envs = Some done ->
    let run := pollLoop repo queryString None startMillis fl progress pr q
                 now r envs in
    List.filter isData (fst run) = [snd (print pr done)] /\
    snd run = returns None.
Proof.
  induction envs as [|env envs IH]; intros progress pr q now r Hdone;
    cbn [pollLoop firstDone] in *; cbv zeta.
  - destruct (Done r); [|discriminate].
    injection Hdone as <-.
    destruct (finish_data repo queryString None startMillis fl progress pr
                q now r [] notLive) as [Hst Hdata].
    rewrite Hdata, Hst, notJson. split; reflexivity.
  - destruct (Done r).
    + injection Hdone as <-.
      destruct (finish_data repo queryString None startMillis fl progress
                  pr q now r (env :: envs) notLive) as [Hst Hdata].
      rewrite Hdata, Hst, notJson. split; reflexivity.
    + destruct (poll_uncancelled q now env) as [Hres Herr].
      destruct (snd (pollReply env)) as [e|]; [discriminate|].
      rewrite Herr.
      specialize (IH (option_map (fun b => Update b r) progress) pr
                    (poller (WaitAndPollContext q None now env))
                    (returned (WaitAndPollContext q None now env))
                    (result (WaitAndPollContext q None now env))).
      rewrite Hres in IH. specialize (IH Hdone). cbv zeta in IH.
      rewrite <- Hres in IH.
      destruct (pollLoop _ _ _ _ _ _ _ _ _ _ envs) as [outs st].
      cbn [fst snd] in *.
      rewrite !List.filter_app, update_no_data, notJson. exact IH.
Qed.

End SessionToTheEnd.

(** X11.  A search without [--live] and [--json-progress], under a
    context that is not cancelled, ends as soon as a snapshot is [Done]:
    when no poll fails before, the results written are that snapshot
    alone, printed by the printer made for the first snapshot; the last
    thing done is the deletion of the job, and the exit status is 0.
    Replies that would come later are not asked for. *)
Theorem search_prints_first_done_snapshot `{SortSlice}
    (Local : time.Location) (repo queryString jobId : string)
    (startMillis : Z) (fl : Flags) (now : time.Time)
    (env : PollEnv) (envs : list PollEnv) (done : QueryResult) :
  flag_live fl = false ->
  flag_jsonProgress fl = false ->
  snd (pollReply env) = None ->
  firstDone (fst (pollReply env)) envs = Some done ->
  let run := Run Local repo queryString None startMillis fl (jobId, None)
               now (env :: envs) in
  List.filter isData (fst run)
  = [snd (print (printerFor Local fl (fst (pollReply env))) done)] /\
  last (fst run) = Some jobDeleted /\
  snd run = Some (exited 0).
Proof.
  intros Hlive Hjson Henv Hdone.
  unfold Run, searchBody.
  destruct (poll_uncancelled (newPoller repo jobId) now env) as [Hres Herr].
  rewrite Henv in Herr. rewrite Herr.
  rewrite <- Hres in Hdone.
  match goal with
  | |- context [pollLoop ?a ?b ?c ?d ?e ?f ?g ?h ?i ?j ?k] =>
      pose proof (pollLoop_first_done a b d e Hlive Hjson k done f g h i j
                    Hdone) as Hq;
      cbv zeta in Hq;
      destruct (pollLoop a b c d e f g h i j k) as [outs st]
  end.
  cbn [fst snd] in Hq. destruct Hq as [Hdata ->].
  cbn [exitOnError fst snd]. cbv zeta.
  unfold printerFor. rewrite <- Hres.
  rewrite !app_nil_r, !List.filter_app, Hdata, !app_assoc, last_snoc.
  destruct (negb (flag_noProgress fl || flag_jsonProgress fl)); cbn;
    repeat split; reflexivity.
Qed.

Lemma search_prints_first_done_snapshot_witness :
  snd (@Run insertionSortSlice time.UTC "repo" "q" None 1700000002000
         (plainFlags false false) ("job", None) 1700000002000000000
         [answering pollAfter500; answering (eventSnapshot [firstEvent]);
          failingReply])
  = Some (exited 0).
Proof.
  exact (proj2 (proj2
    (@search_prints_first_done_snapshot insertionSortSlice time.UTC "repo"
       "q" "job" 1700000002000 (plainFlags false false) 1700000002000000000
       (answering pollAfter500)
       [answering (eventSnapshot [firstEvent]); failingReply]
       (eventSnapshot [firstEvent]) eq_refl eq_refl eq_refl eq_refl))).
Defined.

(** X12.  With [--no-progress] the progress bar never shows: it is
    neither started, nor updated, nor finished, whatever the run does. *)
Theorem no_progress_hides_bar `{SortSlice}
    (Local : time.Location) (repo queryString : string)
    (ctxDone : option time.Time) (startMillis : Z) (fl : Flags)
    (created : string * option error) (now : time.Time)
    (envs : list PollEnv) :
  flag_noProgress fl = true ->
  existsb isBar
    (fst (Run Local repo queryString ctxDone startMillis fl created now
            envs)) = false.
Proof.
  intros Hno.
  assert (Hbody : existsb isBar
            (fst (searchBody Local repo queryString ctxDone startMillis fl
                    created now envs)) = false).
  { unfold searchBody. rewrite Hno. cbn [orb negb].
    destruct created as [jobId [e|]]; [reflexivity|].
    destruct envs as [|env envs]; [reflexivity|].
    destruct (err (WaitAndPollContext (newPoller repo jobId) ctxDone now
                     env)); [reflexivity|].
    match goal with
    | |- context [pollLoop ?a ?b ?c ?d ?e ?f ?g ?h ?i ?j ?k] =>
        pose proof (pollLoop_no_bar a b c d e k g h i j) as Hq;
        destruct (pollLoop a b c d e f g h i j k) as [outs st]
    end.
    cbn [fst app] in *. rewrite existsb_app, Hq. destruct st; reflexivity. }
  unfold Run.
  destruct (searchBody Local repo queryString ctxDone startMillis fl created
              now envs) as [outs st].
  cbn [fst] in Hbody.
  destruct st as [[[| msg | msg]|]|]; cbn;
    rewrite ?existsb_app, ?app_nil_r, Hbody; reflexivity.
Qed.

Lemma no_progress_hides_bar_witness :
  existsb isBar
    (fst (@Run insertionSortSlice time.UTC "repo" "q" None 1700000002000
            {| flag_start := "10m"; flag_end := ""; flag_live := false;
               flag_fmt := "{@rawstring}"; flag_noWrap := false;
               flag_noProgress := true; flag_jsonProgress := false |}
            ("job", None) 1700000002000000000
            [answering pollAfter500;
             answering (eventSnapshot [firstEvent])])) = false.
Proof.
  exact (@no_progress_hides_bar insertionSortSlice time.UTC "repo" "q" None
           1700000002000
           {| flag_start := "10m"; flag_end := ""; flag_live := false;
              flag_fmt := "{@rawstring}"; flag_noWrap := false;
              flag_noProgress := true; flag_jsonProgress := false |}
           ("job", None) 1700000002000000000
           [answering pollAfter500;
            answering (eventSnapshot [firstEvent])] eq_refl).
Defined.

(** ** The aggregate printer: columns and table *)

Lemma scanKeys_marks (ks : list string) :
  forall (st : list string * gmap string bool) (k : string),
    In k ks \/ isPrinted (snd st) k = true ->
    isPrinted (snd (fold_left scanKey ks st)) k = true.
Proof.
  induction ks as [|k' ks IH]; intros [f m] k Hk; simpl.
  - destruct Hk as [[]|Hk]. exact Hk.
  - apply IH. destruct Hk as [[->|Hin]|Hseen].
    + right. unfold scanKey. destruct (isPrinted m k) eqn:Hm; simpl.
      * exact Hm.
      * apply isPrinted_insert. left. reflexivity.
    + left. exact Hin.
    + right. unfold scanKey. destruct (isPrinted m k'); simpl.
      * exact Hseen.
      * apply isPrinted_insert. right. exact Hseen.
Qed.

Lemma scanEvents_marks (evs : list Event) :
  forall (st : list string * gmap string bool) (k : string),
    (exists e, In e evs /\ In k (map fst e)) \/
    isPrinted (snd st) k = true ->
    isPrinted
      (snd (fold_left (fun st e => fold_left scanKey (map fst e) st) evs st))
      k = true.
Proof.
  induction evs as [|e evs IH]; intros st k Hk; simpl.
  - destruct Hk as [(e & [] & _)|Hk]. exact Hk.
  - apply IH. destruct Hk as [(e' & [->|Hin] & Hkey)|Hseen].
    + right. apply scanKeys_marks. left. exact Hkey.
    + left. exists e'. split; assumption.
    + right. apply scanKeys_marks. right. exact Hseen.
Qed.

Lemma scanEvents_seen (evs : list Event) :
  forall st, columnsSeen st ->
    columnsSeen
      (fold_left (fun st e => fold_left scanKey (map fst e) st) evs st).
Proof.
  induction evs as [|e evs IH]; intros st Hst; simpl; [exact Hst|].
  apply IH, scanKeys_seen, Hst.
Qed.

Lemma columnsSeen_empty : columnsSeen ([], (∅ : gmap string bool)).
Proof.
  split; [constructor|].
  intros k. unfold isPrinted. simpl. rewrite lookup_empty. simpl.
  split; [discriminate|intros []].
Qed.

Lemma deriveColumns_covers (evs : list Event) (e : Event) (k : string) :
  In e evs -> In k (map fst e) -> In k (deriveColumns [] evs).
Proof.
  intros He Hk. unfold deriveColumns.
  apply (proj2 (scanEvents_seen evs _ columnsSeen_empty) k).
  apply scanEvents_marks. left. exists e. split; assumption.
Qed.

(** X13.  Without a field order in the metadata, [print] keeps the
    columns it knows in front, in their order, and every key of every
    event of the snapshot is a column afterwards. *)
Theorem aggregate_columns_cover_keys (p : aggregatePrinter)
    (r : QueryResult) :
  FieldOrder (Metadata r) = [] ->
  columns p `prefix_of` columns (fst (aggregatePrinter_print p r)) /\
  forall e k, In e (Events r) -> In k (map fst e) ->
              In k (columns (fst (aggregatePrinter_print p r))).
Proof.
  intros Hnone.
  assert (Hcols : columns (fst (aggregatePrinter_print p r))
                  = columns p ++ deriveColumns [] (Events r)).
  { unfold aggregatePrinter_print. rewrite Hnone.
    rewrite <- deriveColumns_known.
    destruct (deriveColumns (columns p) (Events r)) as [|c [|c' cs]];
      [reflexivity| |reflexivity].
    destruct (Events r) as [|e [|e' evs]]; reflexivity. }
  rewrite Hcols. split.
  - apply prefix_app_r. reflexivity.
  - intros e k He Hk. apply in_or_app. right.
    apply (deriveColumns_covers _ e); assumption.
Qed.

Lemma aggregate_columns_cover_keys_witness :
  In "b"
    (columns (fst (aggregatePrinter_print
                     {| columns := ["a"]; noWrap := false |}
                     (aggregateSnapshot
                        [[("a", number 1); ("b", number 2)]])))).
Proof.
  exact (proj2 (aggregate_columns_cover_keys
                  {| columns := ["a"]; noWrap := false |}
                  (aggregateSnapshot [[("a", number 1); ("b", number 2)]])
                  eq_refl)
           [("a", number 1); ("b", number 2)] "b"
           (or_introl eq_refl) (or_intror (or_introl eq_refl))).
Defined.

(** X14.  What [print] writes is decided by the columns it has after the
    update and by the number of events: nothing without columns; the bare
    value exactly for one column and one event; else a table whose header
    is the columns, with one row per event, every row as long as the
    header, wrapped unless [noWrap] is set.  The flag [noWrap] is never
    changed. *)
Theorem aggregate_output_shape (p : aggregatePrinter) (r : QueryResult) :
  let p' := fst (aggregatePrinter_print p r) in
  noWrap p' = noWrap p /\
  match snd (aggregatePrinter_print p r) with
  | nothing => columns p' = []
  | bareValue line =>
      exists c e, columns p' = [c] /\ Events r = [e] /\
                  line = Sprint (at_key e c) +:+ newline
  | table header autoWrap rows =>
      header = columns p' /\ header <> [] /\
      ~ (length header = 1%nat /\ length (Events r) = 1%nat) /\
      autoWrap = negb (noWrap p) /\
      length rows = length (Events r) /\
      List.Forall (fun row => length row = length header) rows
  end.
Proof.
  unfold aggregatePrinter_print.
  set (cols := match FieldOrder (Metadata r) with
               | [] => deriveColumns (columns p) (Events r)
               | _ :: _ => FieldOrder (Metadata r)
               end).
  assert (Hrows : forall cs evs,
            length (map (tableRow cs) evs) = length evs /\
            List.Forall (fun row => length row = length cs)
              (map (tableRow cs) evs)).
  { intros cs evs. split; [apply length_map|].
    apply List.Forall_forall. intros row Hrow.
    apply in_map_iff in Hrow. destruct Hrow as (e & <- & _).
    unfold tableRow. apply length_map. }
  destruct cols as [|c [|c' cs]]; cbn [fst snd columns noWrap].
  - split; reflexivity.
  - destruct (Events r) as [|e [|e' evs]]; cbn [fst snd columns noWrap].
    + split; [reflexivity|].
      repeat split; try discriminate; try reflexivity.
      * intros [_ Hlen]. discriminate Hlen.
      * constructor.
    + split; [reflexivity|]. exists c, e. repeat split; reflexivity.
    + split; [reflexivity|].
      destruct (Hrows [c] (e :: e' :: evs)) as [Hlen Hall].
      repeat split; try discriminate; try assumption.
      intros [_ Hone]. discriminate Hone.
  - split; [reflexivity|].
    destruct (Hrows (c :: c' :: cs) (Events r)) as [Hlen Hall].
    repeat split; try discriminate; try assumption.
    intros [Hone _]. discriminate Hone.
Qed.

(** ** The format string: what is no reference, and what a field is *)

Lemma compileFrom_unclosed (template : string) :
  lacks "}" template = true ->
  forall open,
    compileFrom open template
    = (match open with
       | None => template
       | Some inner => String "{" (inner +:+ template)
       end, []).
Proof.
  induction template as [|c template IH]; intros Hlacks open.
  - destruct open as [inner|]; simpl; [rewrite append_nil_r|]; reflexivity.
  - simpl lacks in Hlacks. apply andb_prop in Hlacks as [Hc Hrest].
    apply negb_true_iff in Hc. cbn [compileFrom].
    destruct open as [inner|].
    + rewrite Hc, (IH Hrest). cbv iota beta. rewrite append_assoc.
      reflexivity.
    + destruct (Ascii.eqb_spec c "{") as [->|Hne].
      * rewrite (IH Hrest). reflexivity.
      * rewrite (IH Hrest). reflexivity.
Qed.

Lemma splitField_clean (inner : string) :
  lacks "}" inner = true ->
  lacks ":" (fst (splitField inner)) = true /\
  lacks "}" (fst (splitField inner)) = true.
Proof.
  induction inner as [|c inner IH]; simpl; [intros _; split; reflexivity|].
  intros [Hc Hrest]%andb_prop.
  destruct (Ascii.eqb_spec c ":") as [->|Hne]; [split; reflexivity|].
  destruct (IH Hrest) as [Hcolon Hbrace].
  destruct (splitField inner) as [field arg]. simpl in *.
  rewrite Hcolon, Hbrace, Hc.
  destruct (Ascii.eqb_spec c ":"); [contradiction|]. split; reflexivity.
Qed.

Lemma compileFrom_fields_clean (template : string) :
  forall open,
    match open with
    | Some inner => lacks "}" inner = true
    | None => True
    end ->
    List.Forall (fun field => lacks ":" field = true /\
                              lacks "}" field = true)
      (snd (compileFrom open template)).
Proof.
  induction template as [|c template IH]; intros open Hopen.
  - destruct open; constructor.
  - cbn [compileFrom]. destruct open as [inner|].
    + destruct (Ascii.eqb_spec c "}") as [->|Hne].
      * specialize (IH None I).
        destruct (compileFrom None template) as [f fields].
        destruct inner as [|c' inner]; [exact IH|].
        pose proof (splitField_clean (String c' inner) Hopen) as Hclean.
        destruct (splitField (String c' inner)) as [field arg].
        cbn [fst snd] in *. constructor; assumption.
      * apply IH. rewrite lacks_append, Hopen. simpl.
        destruct (Ascii.eqb_spec c "}"); [contradiction|reflexivity].
    + destruct (Ascii.eqb c "{").
      * apply IH. reflexivity.
      * specialize (IH None I).
        destruct (compileFrom None template) as [f fields]. exact IH.
Qed.

(** X15.  A template without opening brace, or without closing brace, has
    no reference: it is the compiled format as it stands and no field is
    recorded; when it has no percent sign either, the printer writes it,
    followed by a line feed, for every event. *)
Theorem template_without_references (Local : time.Location)
    (template : string) (e : Event) :
  lacks "{" template = true \/ lacks "}" template = true ->
  compileFormat template = (template, []) /\
  (lacks "%" template = true ->
   printEventFunc (newEventListPrinter Local template) e
   = Some (template +:+ newline)).
Proof.
  intros Hnone.
  assert (Hcompiled : compileFormat template = (template, [])).
  { unfold compileFormat. destruct Hnone as [Hopen|Hclose].
    - pose proof (compileFrom_literal template "" Hopen) as Hlit.
      rewrite append_nil_r in Hlit. rewrite Hlit. simpl.
      rewrite append_nil_r. reflexivity.
    - apply (compileFrom_unclosed template Hclose None). }
  split; [exact Hcompiled|].
  intros Hpercent. unfold newEventListPrinter. rewrite Hcompiled.
  cbn [printEventFunc]. unfold initPrintFunc, Sprintf. cbn [map].
  pose proof (Sprintf_literal (template +:+ newline) "" []) as Hlit.
  rewrite append_nil_r in Hlit. rewrite Hlit.
  - simpl. rewrite append_nil_r. reflexivity.
  - rewrite lacks_append, Hpercent. reflexivity.
Qed.

Lemma template_without_references_witness :
  compileFormat "an {unclosed reference" = ("an {unclosed reference", []).
Proof.
  exact (proj1 (template_without_references time.UTC
                  "an {unclosed reference" sampleEvent
                  (or_intror eq_refl))).
Defined.

(** X16.  Whatever the template, a field name the compiler records has
    no colon and no closing brace in it. *)
Theorem recorded_fields_are_clean (Local : time.Location)
    (template : string) :
  List.Forall (fun field => lacks ":" field = true /\
                            lacks "}" field = true)
    (printFields (newEventListPrinter Local template)).
Proof.
  unfold newEventListPrinter.
  pose proof (compileFrom_fields_clean template None I) as Hclean.
  fold (compileFormat template) in Hclean.
  destruct (compileFormat template) as [compiled fields]. exact Hclean.
Qed.

(** ** The printers of the fields *)

(** X17.  Only a number under ["@timestamp"] is transformed: every other
    field, and a ["@timestamp"] that is no number, is printed as
    [fmt.Sprint] prints the value. *)
Theorem only_timestamp_numbers_are_transformed (Local : time.Location)
    (f : string) (e : Event) :
  f <> "@timestamp" \/ asFloat64 (at_key e f) = None ->
  fieldPrinter Local f e = Sprint (at_key e f).
Proof.
  intros Hplain. unfold fieldPrinter, fieldPrinters.
  rewrite lookup_singleton.
  destruct (decide ("@timestamp" = f)) as [<-|Hne]; [|reflexivity].
  destruct Hplain as [Hne|Hnum]; [contradiction|].
  unfold timestampPrinter. rewrite Hnum. reflexivity.
Qed.

Lemma only_timestamp_numbers_are_transformed_witness :
  fieldPrinter time.UTC "@timestamp"
    [("@timestamp", VString "yesterday")] = "yesterday".
Proof.
  exact (only_timestamp_numbers_are_transformed time.UTC "@timestamp"
           [("@timestamp", VString "yesterday")] (or_intror eq_refl)).
Defined.

(** X18.  A field the event does not have is printed as [<nil>], also
    ["@timestamp"]. *)
Theorem missing_field_prints_nil (Local : time.Location)
    (f : string) (e : Event) :
  index e f = None -> fieldPrinter Local f e = "<nil>".
Proof.
  intros Hmissing.
  assert (Hnil : at_key e f = VNil).
  { unfold at_key. rewrite Hmissing. reflexivity. }
  unfold fieldPrinter, fieldPrinters. rewrite lookup_singleton.
  destruct (decide ("@timestamp" = f)) as [<-|Hne].
  - unfold timestampPrinter. rewrite Hnil. reflexivity.
  - rewrite Hnil. reflexivity.
Qed.

Lemma missing_field_prints_nil_witness :
  fieldPrinter time.UTC "@timestamp" unstamped = "<nil>".
Proof.
  exact (missing_field_prints_nil time.UTC "@timestamp" unstamped eq_refl).
Defined.

(** X19.  The printer of ["@timestamp"] splits the milliseconds into
    seconds and a rest and loses nothing by it, before and after 1970:
    the instant it formats is [int64(fv)] milliseconds after the epoch,
    so the fraction of a millisecond is cut off. *)
Theorem timestamp_instant (Local : time.Location) (fv : spec_float) :
  timestampPrinter Local (VFloat fv)
  = Some (time.FormatRFC3339Nano Local (int64_of_float64 fv * 1000000)).
Proof.
  unfold timestampPrinter, time.Unix. cbn [asFloat64]. do 2 f_equal.
  pose proof (Z.quot_rem' (int64_of_float64 fv) 1000). lia.
Qed.

(** * The migration of legacy alerts *)

Section AlertsFacts.
Import alerts.

(** ** [getClosest] *)

Lemma absDiff_exact (x y : Z) :
  Z.abs (x - y) <= maxInt64 -> absDiff x y = Z.abs (x - y).
Proof.
  intros Hfits. unfold absDiff, sub.
  assert (Hmin : minInt64 <= 0) by (unfold minInt64; lia).
  destruct (Z.ltb_spec x y); rewrite wrap64_id; unfold inInt64; lia.
Qed.

Section Closest.

Variables (n : Z) (input : list Z).

Lemma closer_leading (k curr : nat) :
  (k < length input)%nat -> leading n input k curr ->
  leading n input (S k) (closer n input curr k).
Proof.
  intros Hk [Hcurr Hmin]. unfold closer.
  destruct (input !! k) as [a|] eqn:Ha.
  2:{ apply lookup_ge_None in Ha. lia. }
  destruct (input !! curr) as [b|] eqn:Hb.
  2:{ apply lookup_ge_None in Hb. lia. }
  destruct (Z.ltb_spec (absDiff n a) (absDiff n b)) as [Hlt|Hge].
  - split; [lia|]. intros c Hc j v Hj Hv.
    rewrite Ha in Hc. injection Hc as <-.
    destruct (decide (j = k)) as [->|Hne].
    + rewrite Ha in Hv. injection Hv as <-. split; lia.
    + destruct (Hmin b eq_refl j v ltac:(lia) Hv) as [Hle _]. split; lia.
  - split; [lia|]. intros c Hc j v Hj Hv.
    rewrite Hb in Hc. injection Hc as <-.
    destruct (decide (j = k)) as [->|Hne].
    + rewrite Ha in Hv. injection Hv as <-. split; lia.
    + apply (Hmin b eq_refl j v ltac:(lia) Hv).
Qed.

Lemma loop_leading (k : nat) :
  (k <= length input)%nat ->
  leading n input k (fold_left (closer n input) (seq 0 k) 0%nat).
Proof.
  induction k as [|k IH]; intros Hk.
  - simpl. split; [lia|]. intros c _ j v Hj. lia.
  - rewrite seq_S, fold_left_app. simpl.
    apply closer_leading; [lia|]. apply IH. lia.
Qed.

End Closest.

(** X20.  [getClosest] returns the element of a slice that is closest
    to [n], and among several such the first, as long as no distance
    overflows an [int]. *)
Theorem getClosest_is_first_closest (n : Z) (input : list Z) :
  input <> [] ->
  List.Forall (fun v => Z.abs (n - v) <= maxInt64) input ->
  exists (i : nat) (c : Z),
    getClosest n input = Some c /\
    input !! i = Some c /\
    forall j v, input !! j = Some v ->
      Z.abs (n - c) <= Z.abs (n - v) /\
      ((j < i)%nat -> Z.abs (n - c) < Z.abs (n - v)).
Proof.
  intros Hne Hfits.
  destruct (loop_leading n input (length input) (Nat.le_refl _))
    as [Hcurr Hmin].
  set (curr := fold_left (closer n input) (seq 0 (length input)) 0%nat)
    in *.
  assert (Hlen : (0 < length input)%nat).
  { destruct input; [contradiction|simpl; lia]. }
  destruct (input !! curr) as [c|] eqn:Hc.
  2:{ apply lookup_ge_None in Hc. lia. }
  exists curr, c. split; [exact Hc|]. split; [exact Hc|].
  assert (Hin : forall j v, input !! j = Some v ->
                  Z.abs (n - v) <= maxInt64).
  { intros j v Hv. rewrite List.Forall_forall in Hfits.
    apply Hfits. apply list_elem_of_In. eapply list_elem_of_lookup_2, Hv. }
  intros j v Hv.
  destruct (Hmin c eq_refl j v (lookup_lt_Some _ _ _ Hv) Hv) as [Hle Hlt].
  rewrite !absDiff_exact in Hle, Hlt by eauto.
  split; assumption.
Qed.

Lemma getClosest_is_first_closest_witness :
  exists (i : nat) (c : Z),
    getClosest 90 [60; 120; 180] = Some c /\
    [60; 120; 180] !! i = Some c /\
    forall j v, [60; 120; 180] !! j = Some v ->
      Z.abs (90 - c) <= Z.abs (90 - v) /\
      ((j < i)%nat -> Z.abs (90 - c) < Z.abs (90 - v)).
Proof.
  apply (getClosest_is_first_closest 90 [60; 120; 180]).
  - discriminate.
  - repeat constructor; vm_compute; discriminate.
Defined.

(** ** [getSecondsFromQueryStart] *)

Lemma spanDigits_append (ds rest : string) :
  allDigits ds = true ->
  match rest with
  | EmptyString => True
  | String c _ => isDigit c = false
  end ->
  spanDigits (ds +:+ rest) = (ds, rest).
Proof.
  intros Hds Hrest. induction ds as [|d ds IH]; simpl in *.
  - destruct rest as [|c rest]; [reflexivity|]. simpl. rewrite Hrest.
    reflexivity.
  - apply andb_prop in Hds as [Hd Hds]. rewrite Hd, (IH Hds). reflexivity.
Qed.

Lemma unit_head (u : string) :
  In u unitTexts ->
  exists c rest, u = String c rest /\ isDigit c = false /\ c <> " "%char.
Proof.
  intros Hin. unfold unitTexts in Hin.
  repeat (destruct Hin as [<-|Hin];
          [eexists _, _; split; [reflexivity|]; split;
           [reflexivity|discriminate]|]).
  destruct Hin.
Qed.

Lemma containsString_In (strings : list string) (s : string) :
  containsString strings s = true <-> In s strings.
Proof.
  unfold containsString. rewrite existsb_exists. split.
  - intros (s' & Hin & Heq). apply String.eqb_eq in Heq. subst. exact Hin.
  - intros Hin. exists s. split; [exact Hin|apply String.eqb_refl].
Qed.

Lemma find_unit (ds u : string) (b : bool) :
  ds <> EmptyString -> allDigits ds = true -> In u unitTexts ->
  FindStringSubmatch (ds +:+ blank b +:+ u) = Some (ds, u).
Proof.
  intros Hne Hds Hu.
  destruct (unit_head u Hu) as (c & rest & -> & Hc & Hspace).
  unfold FindStringSubmatch.
  assert (Hfound : containsString unitTexts (String c rest) = true).
  { apply containsString_In, Hu. }
  destruct b; simpl blank.
  - change (" " +:+ String c rest) with (String " " (String c rest)).
    rewrite spanDigits_append by (exact Hds || reflexivity).
    destruct ds as [|d ds]; [contradiction|].
    cbv beta iota zeta. rewrite Hfound. reflexivity.
  - change ("" +:+ String c rest) with (String c rest).
    rewrite spanDigits_append by assumption.
    destruct ds as [|d ds]; [contradiction|].
    assert (Hkeep : match String c rest with
                    | String " " rest' => rest'
                    | _ => String c rest
                    end = String c rest).
    { destruct c as [[] [] [] [] [] [] [] []]; try reflexivity.
      contradiction Hspace. reflexivity. }
    cbv beta iota zeta. rewrite Hkeep, Hfound. reflexivity.
Qed.

Lemma Atoi_numeral (ds : string) :
  numeral ds -> Atoi ds = (valueOf 0 ds, None).
Proof.
  intros (_ & _ & Hfits). unfold Atoi.
  destruct (Z.leb_spec (valueOf 0 ds) maxInt64); [reflexivity|lia].
Qed.

Lemma mul_wrap (a b : Z) : mul (wrap64 a) b = wrap64 (a * b).
Proof.
  unfold mul, wrap64. f_equal.
  rewrite <- (Zplus_mod_idemp_l (((a + 2 ^ 63) mod 2 ^ 64 - 2 ^ 63) * b)).
  rewrite <- (Zplus_mod_idemp_l (a * b)). f_equal. f_equal.
  rewrite <- Zmult_mod_idemp_l.
  rewrite <- (Zmult_mod_idemp_l a b). f_equal. f_equal.
  rewrite Zminus_mod_idemp_l. f_equal. lia.
Qed.

(** X21.  A query start in seconds, minutes, hours, days, weeks, months,
    quarters or years, under any spelling of the unit and with or without
    a blank before it, gives the number times the seconds in the unit,
    wrapped around as the product of [int]s is. *)
Theorem query_start_in_whole_units (ds u : string) (k : Z) (b : bool) :
  numeral ds -> In (u, k) secondsIn ->
  getSecondsFromQueryStart (ds +:+ blank b +:+ u)
  = (wrap64 (valueOf 0 ds * k), None).
Proof.
  intros Hnum Hin.
  assert (Hu : In u unitTexts).
  { unfold secondsIn in Hin.
    repeat (destruct Hin as [Heq|Hin];
            [injection Heq as <- <-; apply containsString_In;
             reflexivity|]).
    destruct Hin. }
  destruct Hnum as (Hne & Hds & Hfits).
  unfold getSecondsFromQueryStart.
  rewrite (find_unit ds u b Hne Hds Hu).
  rewrite (Atoi_numeral ds (conj Hne (conj Hds Hfits))).
  assert (Hone : valueOf 0 ds = wrap64 (valueOf 0 ds * 1)).
  { rewrite Z.mul_1_r, wrap64_id; [reflexivity|].
    split; [|exact Hfits].
    assert (Hpos : forall s acc, 0 <= acc -> allDigits s = true ->
                     0 <= valueOf acc s).
    { induction s as [|c s IH]; intros acc Hacc Hs; simpl; [exact Hacc|].
      simpl in Hs. apply andb_prop in Hs as [Hc Hs]. apply IH; [|exact Hs].
      unfold isDigit in Hc. lia. }
    pose proof (Hpos ds 0 ltac:(lia) Hds). unfold minInt64. lia. }
  assert (Hnest : forall a x y, mul (mul a x) y = mul a (x * y)).
  { intros a x y. unfold mul at 2. rewrite mul_wrap. unfold mul.
    f_equal. lia. }
  unfold secondsIn in Hin.
  repeat (destruct Hin as [Heq|Hin];
          [injection Heq as <- <-;
           cbn [containsString existsb String.eqb Ascii.eqb Bool.eqb orb
                andb];
           f_equal; first [exact Hone | rewrite ?Hnest; reflexivity]|]).
  destruct Hin.
Qed.

Lemma query_start_in_whole_units_witness :
  getSecondsFromQueryStart "15 minutes" = (900, None).
Proof.
  refine (query_start_in_whole_units "15" "minutes" 60 true _ _).
  - split; [discriminate|]. split; [reflexivity|]. vm_compute.
    discriminate.
  - unfold secondsIn. do 5 right. left. reflexivity.
Defined.

(** X22.  The expression accepts the unit [hrs], but no list of units
    holds it: such a query start is matched and then refused as an
    unexpected match. *)
Theorem hrs_is_matched_but_not_converted (ds : string) (b : bool) :
  numeral ds ->
  FindStringSubmatch (ds +:+ blank b +:+ "hrs") = Some (ds, "hrs") /\
  getSecondsFromQueryStart (ds +:+ blank b +:+ "hrs")
  = (0, Some (otherError "unexpected matching")).
Proof.
  intros Hnum.
  assert (Hu : In "hrs" unitTexts).
  { apply containsString_In. reflexivity. }
  assert (Hfound := find_unit ds "hrs" b (proj1 Hnum) (proj1 (proj2 Hnum))
                      Hu).
  split; [exact Hfound|].
  unfold getSecondsFromQueryStart.
  rewrite Hfound, (Atoi_numeral ds Hnum). reflexivity.
Qed.

Lemma hrs_is_matched_but_not_converted_witness :
  getSecondsFromQueryStart "2hrs"
  = (0, Some (otherError "unexpected matching")).
Proof.
  refine (proj2 (hrs_is_matched_but_not_converted "2" false _)).
  split; [discriminate|]. split; [reflexivity|]. vm_compute. discriminate.
Defined.

Lemma valueOf_nonneg (s : string) :
  forall acc, 0 <= acc -> allDigits s = true -> 0 <= valueOf acc s.
Proof.
  induction s as [|c s IH]; intros acc Hacc Hs; simpl; [exact Hacc|].
  simpl in Hs. apply andb_prop in Hs as [Hc Hs]. apply IH; [|exact Hs].
  unfold isDigit in Hc. lia.
Qed.

(** X23.  A query start in milliseconds is cut down to whole seconds,
    and refused below one second. *)
Theorem milliseconds_are_cut_to_seconds (ds u : string) (b : bool) :
  numeral ds ->
  In u ["milliseconds"; "millisecond"; "milli"; "ms"] ->
  let n := valueOf 0 ds in
  let answer := getSecondsFromQueryStart (ds +:+ blank b +:+ u) in
  (n < 1000 ->
   answer = (0, Some (otherError
                        "queryStart must be larger than 1000 milliseconds")))
  /\
  (1000 <= n ->
   snd answer = None /\
   1 <= fst answer /\ 1000 * fst answer <= n < 1000 * (fst answer + 1)).
Proof.
  intros Hnum Hin n answer. subst n answer.
  assert (Hu : In u unitTexts).
  { repeat (destruct Hin as [<-|Hin];
            [apply containsString_In; reflexivity|]).
    destruct Hin. }
  pose proof (valueOf_nonneg ds 0 ltac:(lia) (proj1 (proj2 Hnum))) as Hpos.
  unfold getSecondsFromQueryStart.
  rewrite (find_unit ds u b (proj1 Hnum) (proj1 (proj2 Hnum)) Hu).
  rewrite (Atoi_numeral ds Hnum).
  assert (Hms : containsString
                  ["milliseconds"; "millisecond"; "milli"; "ms"] u = true).
  { apply containsString_In, Hin. }
  rewrite Hms.
  destruct (Z.ltb_spec (valueOf 0 ds) 1000) as [Hlt|Hge].
  - split; [reflexivity|lia].
  - split; [lia|]. intros _. cbn [fst snd].
    rewrite Z.quot_div_nonneg by lia.
    pose proof (Z.div_mod (valueOf 0 ds) 1000 ltac:(lia)).
    pose proof (Z.mod_pos_bound (valueOf 0 ds) 1000 ltac:(lia)).
    split; [reflexivity|]. split; [|lia].
    apply Z.div_le_lower_bound; lia.
Qed.

Lemma milliseconds_are_cut_to_seconds_witness :
  snd (getSecondsFromQueryStart "90500 ms") = None /\
  1 <= fst (getSecondsFromQueryStart "90500 ms") /\
  1000 * fst (getSecondsFromQueryStart "90500 ms") <= 90500
  < 1000 * (fst (getSecondsFromQueryStart "90500 ms") + 1).
Proof.
  refine (proj2 (milliseconds_are_cut_to_seconds "90500" "ms" true _ _) _).
  - split; [discriminate|]. split; [reflexivity|]. vm_compute.
    discriminate.
  - do 3 right. left. reflexivity.
  - vm_compute. discriminate.
Defined.

(** X24.  What is no query start: a number without a unit (also no
    text at all) cannot be parsed; a number beyond the largest [int] is
    refused with the error of [strconv.Atoi], whatever its unit. *)
Theorem query_start_refused (ds u : string) (b : bool) :
  allDigits ds = true ->
  getSecondsFromQueryStart ds
  = (0, Some (otherError "cannot parse query start")) /\
  (ds <> EmptyString -> maxInt64 < valueOf 0 ds -> In u unitTexts ->
   getSecondsFromQueryStart (ds +:+ blank b +:+ u)
   = (0, snd (Atoi ds)) /\ snd (Atoi ds) <> None).
Proof.
  intros Hds. split.
  - unfold getSecondsFromQueryStart, FindStringSubmatch.
    pose proof (spanDigits_append ds "" Hds I) as Hspan.
    rewrite append_nil_r in Hspan. rewrite Hspan.
    destruct ds; reflexivity.
  - intros Hne Hbig Hu. unfold getSecondsFromQueryStart.
    rewrite (find_unit ds u b Hne Hds Hu). unfold Atoi.
    destruct (Z.leb_spec (valueOf 0 ds) maxInt64); [lia|].
    split; [reflexivity|discriminate].
Qed.

Lemma query_start_refused_witness :
  getSecondsFromQueryStart "24"
  = (0, Some (otherError "cannot parse query start")).
Proof.
  exact (proj1 (query_start_refused "24" "h" false eq_refl)).
Defined.

(** ** The parts of [migrateLegacyAlert] *)

Lemma firstBytes_length (n : nat) (s : string) :
  String.length (firstBytes n s) = Nat.min n (String.length s).
Proof.
  revert s. induction n as [|n IH]; intros [|c s]; simpl; try reflexivity.
  rewrite IH. reflexivity.
Qed.

Lemma length_append (s t : string) :
  String.length (s +:+ t) = (String.length s + String.length t)%nat.
Proof. induction s as [|c s IH]; simpl; [|rewrite IH]; reflexivity. Qed.

Lemma firstBytes_split (n : nat) (s : string) :
  (n <= String.length s)%nat ->
  exists rest, s = firstBytes n s +:+ rest.
Proof.
  revert s. induction n as [|n IH]; intros s Hn.
  - exists s. destruct s; reflexivity.
  - destruct s as [|c s]; [simpl in Hn; lia|].
    destruct (IH s ltac:(simpl in Hn; lia)) as [rest Hrest].
    exists rest. simpl. rewrite <- Hrest. reflexivity.
Qed.

(** X25.  The short name in front of every line: the name itself when
    it has fewer than twenty bytes; for a name of twenty bytes or more,
    its first seventeen bytes followed by three dots, twenty bytes in
    all. *)
Theorem shortName_length (name : string) :
  String.length (shortNameOf name) = Nat.min (String.length name) 20 /\
  (String.length name < 20 -> shortNameOf name = name)%nat /\
  firstBytes 17 (shortNameOf name) = firstBytes 17 name /\
  (20 <= String.length name ->
   exists front rest,
     name = front +:+ rest /\ String.length front = 17 /\
     shortNameOf name = front +:+ "...")%nat.
Proof.
  unfold shortNameOf.
  assert (Hidem : forall n s, firstBytes n (firstBytes n s +:+ "...")
                              = firstBytes n s
                              \/ (String.length s < n)%nat).
  { induction n as [|n IH]; intros [|c s]; simpl.
    - left. reflexivity.
    - left. reflexivity.
    - right. lia.
    - destruct (IH s) as [->|Hshort]; [left; reflexivity|right; lia]. }
  destruct (Z.leb_spec 20 (Z.of_nat (String.length name))) as [Hlong|Hshort].
  - rewrite length_append, firstBytes_length. simpl String.length.
    split; [lia|]. split; [lia|]. split.
    + destruct (Hidem 17%nat name) as [->|Hlt]; [reflexivity|lia].
    + intros _.
      destruct (firstBytes_split 17 name ltac:(lia)) as [rest Hrest].
      exists (firstBytes 17 name), rest.
      split; [exact Hrest|]. split; [|reflexivity].
      rewrite firstBytes_length. lia.
  - split; [lia|]. split; [reflexivity|]. split; [reflexivity|]. lia.
Qed.

Lemma getClosest_member (n : Z) (input : list Z) :
  input <> [] -> exists c, getClosest n input = Some c /\ In c input.
Proof.
  intros Hne.
  destruct (loop_leading n input (length input) (Nat.le_refl _))
    as [Hcurr _].
  assert (Hlen : (0 < length input)%nat).
  { destruct input; [contradiction|simpl; lia]. }
  unfold getClosest.
  destruct (input !! _) as [c|] eqn:Hc.
  - exists c. split; [reflexivity|].
    apply list_elem_of_In. eapply list_elem_of_lookup_2, Hc.
  - apply lookup_ge_None in Hc. lia.
Qed.

Lemma validIntervals_range (v : Z) :
  In v getValidSearchIntervalSeconds ->
  60 <= v <= 86400 /\ v mod 60 = 0.
Proof.
  intros Hin.
  assert (Hall : forallb (fun v => (60 <=? v) && (v <=? 86400)
                                   && (v mod 60 =? 0))
                   getValidSearchIntervalSeconds = true).
  { vm_compute. reflexivity. }
  rewrite forallb_forall in Hall. specialize (Hall v Hin). lia.
Qed.

Lemma validIntervals_kept (n : Z) :
  In n getValidSearchIntervalSeconds ->
  getClosest n getValidSearchIntervalSeconds = Some n.
Proof.
  intros Hin.
  assert (Hall : forallb (fun v =>
                   match getClosest v getValidSearchIntervalSeconds with
                   | Some c => c =? v
                   | None => false
                   end) getValidSearchIntervalSeconds = true).
  { vm_compute. reflexivity. }
  rewrite forallb_forall in Hall. specialize (Hall n Hin).
  destruct (getClosest n getValidSearchIntervalSeconds) as [c|];
    [|discriminate].
  f_equal. lia.
Qed.

Lemma throttleSeconds_range (millis : Z) :
  throttleSeconds millis = 0 \/ 60 <= throttleSeconds millis <= 86400.
Proof.
  unfold throttleSeconds.
  destruct (Z.eqb_spec millis 0); [left; reflexivity|]. cbn [negb].
  destruct (Z.ltb_spec (24 * 60 * 60 * 1000) millis); [right; lia|].
  destruct (Z.ltb_spec millis (60 * 1000)); [right; lia|].
  right. rewrite Z.quot_div_nonneg by lia.
  split.
  - apply Z.div_le_lower_bound; lia.
  - apply Z.div_le_upper_bound; lia.
Qed.

Section MigrationFacts.

Variables (Payload Mode : Type) (noMode : Mode).
Variables (legacyAlert : Alert Payload) (client : Client Payload Mode)
          (viewName : string) (i size nowMillis : Z).

(** X26.  The requests of a migration.  There is none when the query
    start cannot be read, and none when it is no valid search interval
    and differs from the throttle time.  In every other case the service
    is asked to create the migrated alert, with the valid interval
    closest to the query start, and with the throttle time of the legacy
    alert (brought between a minute and a day) when the query start is
    that interval, with the interval as throttle time when it is not;
    only when that went well is the service asked to delete the legacy
    alert; and only when that went well, to give the created alert the
    name of the legacy one.  No request is made twice and nothing else is
    asked for. *)
Theorem migration_requests_in_order :
  let requests :=
    List.filter isRequest
      (migrateLegacyAlert noMode legacyAlert client viewName
         i size nowMillis) in
  let answer := getSecondsFromQueryStart (QueryStart legacyAlert) in
  let migratable :=
    In (fst answer) getValidSearchIntervalSeconds \/
    fst answer = Z.quot (ThrottleTimeMillis legacyAlert) 1000 in
  (snd answer <> None \/ ~ migratable -> requests = []) /\
  (snd answer = None -> migratable ->
   exists a,
     migrated legacyAlert nowMillis a /\
     getClosest (fst answer) getValidSearchIntervalSeconds
     = Some (SearchIntervalSeconds a) /\
     ThrottleTimeSeconds a
     = (if fst answer =? SearchIntervalSeconds a
        then throttleSeconds (ThrottleTimeMillis legacyAlert)
        else SearchIntervalSeconds a) /\
     let create := callCreate viewName a in
     let delete := callDelete viewName (Name legacyAlert) in
     (requests = [create] /\ snd (Create client viewName a) <> None) \/
     (snd (Create client viewName a) = None /\
      ((requests = [create; delete] /\
        Delete client viewName (Name legacyAlert) <> None) \/
       (Delete client viewName (Name legacyAlert) = None /\
        exists u,
          requests = [create; delete; callUpdate viewName u] /\
          agg_ID u = agg_ID (fst (Create client viewName a)) /\
          agg_Name u = Name legacyAlert)))).
Proof.
  cbv zeta. unfold migrateLegacyAlert.
  destruct (getSecondsFromQueryStart (QueryStart legacyAlert))
    as [seconds [e|]] eqn:Hseconds.
  { split; [reflexivity|]. intros Hnone. discriminate Hnone. }
  cbn [fst snd].
  destruct (getClosest_member seconds getValidSearchIntervalSeconds)
    as (interval & Hclosest & Hvalid); [discriminate|].
  rewrite Hclosest.
  set (tempName := Name legacyAlert +:+ "-" +:+ strconv.Itoa nowMillis).
  assert (Hstays : In seconds getValidSearchIntervalSeconds ->
                   seconds = interval).
  { intros Hin. rewrite (validIntervals_kept seconds Hin) in Hclosest.
    congruence. }
  assert (Hrequests :
    forall throttle,
      (throttle = 0 \/ 60 <= throttle <= 86400) ->
      let a := {| agg_ID := ""; agg_Name := tempName;
                  SearchIntervalSeconds := interval;
                  ThrottleTimeSeconds := throttle;
                  QueryTimestampType := "IngestTimestamp";
                  TriggerMode := noMode;
                  agg_handedOn := handedOn legacyAlert |} in
      migrated legacyAlert nowMillis a).
  { intros throttle Hthrottle. repeat split; try reflexivity; assumption. }
  destruct (Z.eqb_spec seconds interval) as [Heq|Hne]; cbn [negb].
  - split.
    { intros [Hnone|Hnot]; [contradiction Hnone; reflexivity|].
      contradiction Hnot. left. rewrite Heq. exact Hvalid. }
    intros _ _. eexists. split.
    { apply (Hrequests _ (throttleSeconds_range
                            (ThrottleTimeMillis legacyAlert))). }
    cbn [SearchIntervalSeconds ThrottleTimeSeconds].
    split; [reflexivity|].
    split; [rewrite Heq, Z.eqb_refl; reflexivity|].
    cbn [List.filter isRequest].
    destruct (Create client viewName _) as [create [e|]];
      cbn [List.filter isRequest snd fst].
    { left. split; [reflexivity|discriminate]. }
    right. split; [reflexivity|].
    destruct (Delete client viewName (Name legacyAlert)) as [e|];
      cbn [List.filter isRequest].
    { left. split; [reflexivity|discriminate]. }
    right. split; [reflexivity|].
    eexists. split.
    + destruct (Update client viewName _) as [update [e|]]; reflexivity.
    + split; reflexivity.
  - destruct (Z.eqb_spec seconds
                (Z.quot (ThrottleTimeMillis legacyAlert) 1000))
      as [Hsame|Hdiffers].
    + split.
      { intros [Hnone|Hnot]; [contradiction Hnone; reflexivity|].
        contradiction Hnot. right. exact Hsame. }
      intros _ _. eexists. split.
      { apply (Hrequests interval). right.
        apply validIntervals_range, Hvalid. }
      cbn [SearchIntervalSeconds ThrottleTimeSeconds].
      split; [reflexivity|].
      split.
      { destruct (Z.eqb_spec seconds interval); [contradiction|].
        reflexivity. }
      cbn [List.filter isRequest].
      destruct (Create client viewName _) as [create [e|]];
        cbn [List.filter isRequest snd fst].
      { left. split; [reflexivity|discriminate]. }
      right. split; [reflexivity|].
      destruct (Delete client viewName (Name legacyAlert)) as [e|];
        cbn [List.filter isRequest].
      { left. split; [reflexivity|discriminate]. }
      right. split; [reflexivity|].
      eexists. split.
      * destruct (Update client viewName _) as [update [e|]]; reflexivity.
      * split; reflexivity.
    + split; [intros _; reflexivity|].
      intros _ [Hin|Hsame]; [|contradiction].
      contradiction Hne. apply Hstays, Hin.
Qed.

(** X27.  A legacy alert whose query start is one of the valid search
    intervals is handed to the service with that interval, and with its
    own throttle time brought between a minute and a day (or none). *)
Theorem valid_query_start_is_kept (seconds : Z) :
  getSecondsFromQueryStart (QueryStart legacyAlert) = (seconds, None) ->
  In seconds getValidSearchIntervalSeconds ->
  In (callCreate viewName
        {| agg_ID := "";
           agg_Name := Name legacyAlert +:+ "-" +:+ strconv.Itoa nowMillis;
           SearchIntervalSeconds := seconds;
           ThrottleTimeSeconds :=
             throttleSeconds (ThrottleTimeMillis legacyAlert);
           QueryTimestampType := "IngestTimestamp";
           TriggerMode := noMode;
           agg_handedOn := handedOn legacyAlert |})
     (migrateLegacyAlert noMode legacyAlert client viewName
        i size nowMillis).
Proof.
  intros Hseconds Hvalid. unfold migrateLegacyAlert.
  rewrite Hseconds, (validIntervals_kept seconds Hvalid), Z.eqb_refl.
  cbn [negb]. right. left. reflexivity.
Qed.

End MigrationFacts.

Lemma valid_query_start_is_kept_witness :
  In (callCreate "ops"
        {| agg_ID := "";
           agg_Name := "disk full-1700000000000";
           SearchIntervalSeconds := 900;
           ThrottleTimeSeconds := 900;
           QueryTimestampType := "IngestTimestamp";
           TriggerMode := tt;
           agg_handedOn := tt |})
     (migrateLegacyAlert tt
        {| ID := "a1"; Name := "disk full"; QueryStart := "15m";
           ThrottleTimeMillis := 900000; handedOn := tt |}
        {| Create := fun _ a => (a, None);
           Delete := fun _ _ => None;
           Update := fun _ a => (a, None) |}
        "ops" 1 1 1700000000000).
Proof.
  refine (valid_query_start_is_kept unit unit tt
            {| ID := "a1"; Name := "disk full"; QueryStart := "15m";
               ThrottleTimeMillis := 900000; handedOn := tt |}
            {| Create := fun _ a => (a, None);
               Delete := fun _ _ => None;
               Update := fun _ a => (a, None) |}
            "ops" 1 1 1700000000000 900 _ _).
  - vm_compute. reflexivity.
  - vm_compute. do 14 right. left. reflexivity.
Defined.

End AlertsFacts.

(** * Configuration profiles *)

Section ProfilesFacts.
Import profiles.

Variables Address Token Username CACertificate Insecure : string.

(** X28.  The map [addAccount] builds for a profile is read back by
    [mapToLogin] as that profile: every field is written under the key,
    and as a value of the type, under which it is read.  The five keys
    are the constants of one map literal, hence different from one
    another.  This is the map as the function assigns it to
    [profiles[newName]]; what [viper.Set] keeps of it is not part of the
    sources. *)
Theorem profile_entry_is_read_back (profile : login) :
  NoDup [Address; Token; Username; CACertificate; Insecure] ->
  mapToLogin Address Token Username CACertificate Insecure
    (accountEntry Address Token Username CACertificate Insecure profile)
  = profile.
Proof.
  intros Hkeys.
  apply NoDup_cons in Hkeys as [Ha Hkeys].
  apply NoDup_cons in Hkeys as [Ht Hkeys].
  apply NoDup_cons in Hkeys as [Hu Hkeys].
  apply NoDup_cons in Hkeys as [Hc _].
  apply not_elem_of_cons in Ha as [Hat Ha].
  apply not_elem_of_cons in Ha as [Hau Ha].
  apply not_elem_of_cons in Ha as [Hac Ha].
  apply not_elem_of_cons in Ha as [Hai _].
  apply not_elem_of_cons in Ht as [Htu Ht].
  apply not_elem_of_cons in Ht as [Htc Ht].
  apply not_elem_of_cons in Ht as [Hti _].
  apply not_elem_of_cons in Hu as [Huc Hu].
  apply not_elem_of_cons in Hu as [Hui _].
  apply not_elem_of_cons in Hc as [Hci _].
  unfold mapToLogin, accountEntry, getMapKeyString, getMapKeyBool.
  destruct profile as [a t u c i].
  cbn [address token username caCertificate insecure].
  f_equal.
  - rewrite !lookup_insert_ne by congruence.
    rewrite lookup_insert_eq. reflexivity.
  - rewrite !lookup_insert_ne by congruence.
    rewrite lookup_insert_eq. reflexivity.
  - rewrite !lookup_insert_ne by congruence.
    rewrite lookup_insert_eq. reflexivity.
  - rewrite !lookup_insert_ne by congruence.
    rewrite lookup_insert_eq. reflexivity.
  - rewrite lookup_insert_eq. reflexivity.
Qed.

End ProfilesFacts.

Lemma profile_entry_is_read_back_witness :
  profiles.mapToLogin "address" "token" "username" "ca_certificate"
    "insecure"
    (profiles.accountEntry "address" "token" "username" "ca_certificate"
       "insecure"
       {| profiles.address := "https://cloud.humio.com/";
          profiles.token := "secret";
          profiles.username := "ada";
          profiles.caCertificate := "";
          profiles.insecure := true |})
  = {| profiles.address := "https://cloud.humio.com/";
       profiles.token := "secret";
       profiles.username := "ada";
       profiles.caCertificate := "";
       profiles.insecure := true |}.
Proof.
  refine (profile_entry_is_read_back "address" "token" "username"
            "ca_certificate" "insecure" _ _).
  apply (bool_decide_unpack
           (NoDup ["address"; "token"; "username"; "ca_certificate";
                   "insecure"])).
  vm_compute. exact I.
Defined.

(** * The progress bar and the report of an error *)

Section BarFacts.

Context `{SortSlice}.
Variables (Local : time.Location) (repo queryString : string)
          (ctxDone : option time.Time) (startMillis : Z) (fl : Flags).

Lemma filter_none {A} (P : A -> bool) (l : list A) :
  existsb P l = false -> List.filter P l = [].
Proof.
  induction l as [|x l IH]; simpl; [reflexivity|].
  intros [Hx Hl]%orb_false_elim. rewrite Hx. apply IH, Hl.
Qed.

Lemma json_no_bar (r : QueryResult) (now : time.Time) :
  List.filter isBar (if flag_jsonProgress fl
                     then [progressJson repo queryString startMillis r now]
                     else []) = [].
Proof. destruct (flag_jsonProgress fl); reflexivity. Qed.

Lemma finish_bar b pr q now r envs :
  List.filter isBar
    (fst (finish repo queryString ctxDone startMillis fl (Some b) pr q now
            r envs))
  = [barUpdate (Update b r); barFinish].
Proof.
  unfold finish.
  destruct (negb (flag_jsonProgress fl)).
  - pose proof (print_no_bar pr r) as Hp.
    destruct (print pr r) as [pr' out]. cbn [snd] in Hp.
    pose proof (liveLoop_no_bar ctxDone envs pr' q now) as Hl.
    destruct (flag_live fl);
      [destruct (liveLoop ctxDone pr' q now envs) as [outs st]|];
      cbn [fst] in *; rewrite !List.filter_app, json_no_bar;
      cbn [List.filter isBar app]; rewrite Hp, ?(filter_none _ _ Hl);
      reflexivity.
  - pose proof (liveLoop_no_bar ctxDone envs pr q now) as Hl.
    destruct (flag_live fl);
      [destruct (liveLoop ctxDone pr q now envs) as [outs st]|];
      cbn [fst] in *; rewrite !List.filter_app, json_no_bar;
      cbn [List.filter isBar app]; rewrite ?(filter_none _ _ Hl);
      reflexivity.
Qed.

Lemma pollLoop_bar envs :
  forall b pr q now r,
    exists bs,
      List.filter isBar
        (fst (pollLoop repo queryString ctxDone startMillis fl (Some b) pr
                q now r envs))
      = map barUpdate bs ++ [barFinish] \/
      List.filter isBar
        (fst (pollLoop repo queryString ctxDone startMillis fl (Some b) pr
                q now r envs))
      = map barUpdate bs.
Proof.
  induction envs as [|env envs IH]; intros b pr q now r; cbn [pollLoop].
  - destruct (Done r).
    + exists [Update b r]. left. apply finish_bar.
    + exists [Update b r]. right. cbn [fst option_map].
      rewrite List.filter_app, json_no_bar. reflexivity.
  - destruct (Done r).
    + exists [Update b r]. left. apply finish_bar.
    + destruct (err (WaitAndPollContext q ctxDone now env)).
      * exists [Update b r]. right. cbn [fst option_map].
        rewrite List.filter_app, json_no_bar. reflexivity.
      * cbn [option_map].
        destruct (IH (Update b r) pr
                    (poller (WaitAndPollContext q ctxDone now env))
                    (returned (WaitAndPollContext q ctxDone now env))
                    (result (WaitAndPollContext q ctxDone now env)))
          as [bs Hbs].
        destruct (pollLoop _ _ _ _ _ _ _ _ _ _ envs) as [outs st].
        cbn [fst] in *. exists (Update b r :: bs).
        rewrite !List.filter_app, json_no_bar.
        cbn [List.filter isBar app map].
        destruct Hbs as [-> | ->]; [left|right]; reflexivity.
Qed.

End BarFacts.

(** X29.  The life of the progress bar, when it is not switched off and
    the job is created: it is started before anything else is shown,
    then updated, once per snapshot, and finished at most once, after
    which it is not touched again. *)
Theorem progress_bar_lifecycle `{SortSlice}
    (Local : time.Location) (repo queryString jobId : string)
    (ctxDone : option time.Time) (startMillis : Z) (fl : Flags)
    (now : time.Time) (envs : list PollEnv) :
  flag_noProgress fl = false ->
  flag_jsonProgress fl = false ->
  let outs := fst (searchBody Local repo queryString ctxDone startMillis fl
                     (jobId, None) now envs) in
  head outs = Some barStart /\
  exists bs,
    List.filter isBar outs = barStart :: map barUpdate bs ++ [barFinish] \/
    List.filter isBar outs = barStart :: map barUpdate bs.
Proof.
  intros Hno Hjson. unfold searchBody. rewrite Hno, Hjson. cbn [orb negb].
  destruct envs as [|env envs].
  { split; [reflexivity|]. exists []. right. reflexivity. }
  destruct (err (WaitAndPollContext (newPoller repo jobId) ctxDone now env)).
  { split; [reflexivity|]. exists []. right. reflexivity. }
  match goal with
  | |- context [pollLoop ?a ?b ?c ?d ?e (Some ?f) ?g ?h ?i ?j ?k] =>
      destruct (pollLoop_bar a b c d e k f g h i j) as [bs Hbs];
      destruct (pollLoop a b c d e (Some f) g h i j k) as [outs st]
  end.
  cbn [fst] in *. split; [reflexivity|]. exists bs.
  assert (Htail : List.filter isBar
                    match st with
                    | returns _ => [jobDeleted]
                    | waiting => []
                    end = []).
  { destruct st; reflexivity. }
  cbn [app List.filter isBar].
  rewrite List.filter_app, Htail, app_nil_r.
  destruct Hbs as [-> | ->]; [left|right]; reflexivity.
Qed.

Lemma progress_bar_lifecycle_witness :
  head (fst (@searchBody insertionSortSlice time.UTC "repo" "q" None
               1700000002000 (plainFlags false false) ("job", None)
               1700000002000000000
               [answering pollAfter500;
                answering (eventSnapshot [firstEvent])]))
  = Some barStart.
Proof.
  exact (proj1 (@progress_bar_lifecycle insertionSortSlice time.UTC "repo"
                  "q" "job" None 1700000002000 (plainFlags false false)
                  1700000002000000000
                  [answering pollAfter500;
                   answering (eventSnapshot [firstEvent])]
                  eq_refl eq_refl)).
Defined.

(** X30.  An error of the search other than a cancellation is reported
    as the last thing, after the job was deleted if there was one, and
    the process exits at once: for an error of the query string with its
    own text and status 1, for any other error through [exitOnError],
    with the status that is not zero. *)
Theorem error_reported_after_cleanup `{SortSlice}
    (Local : time.Location) (repo queryString : string)
    (ctxDone : option time.Time) (startMillis : Z) (fl : Flags)
    (created : string * option error) (now : time.Time)
    (envs : list PollEnv) (e : error) :
  snd (searchBody Local repo queryString ctxDone startMillis fl created now
         envs) = returns (Some e) ->
  e <> context_Canceled ->
  let shown := fst (searchBody Local repo queryString ctxDone startMillis
                      fl created now envs) in
  Run Local repo queryString ctxDone startMillis fl created now envs
  = match e with
    | QueryError msg => (shown ++ [queryErrorText msg], Some (exited 1))
    | _ => (shown ++ [errorText "error running search" e],
            Some exitedNonZero)
    end /\
  (snd created = None -> last shown = Some jobDeleted) /\
  (snd created <> None -> shown = []).
Proof.
  intros Hbody Hne.
  pose proof (searchBody_last_step Local repo queryString ctxDone
                startMillis fl created now envs) as Hlast.
  unfold Run. cbv zeta in *.
  destruct (searchBody Local repo queryString ctxDone startMillis fl created
              now envs) as [outs st].
  cbn [fst snd] in *. subst st.
  split; [destruct e; [contradiction|reflexivity|reflexivity]|].
  destruct (snd created) as [e'|].
  - split; [discriminate|]. intros _. exact Hlast.
  - split; [|congruence]. intros _. exact Hlast.
Qed.

Lemma error_reported_after_cleanup_witness :
  @Run insertionSortSlice time.UTC "repo" "q" None 1700000002000
    (plainFlags false false) ("job", None) 1700000002000000000
    [answering pollAfter500;
     {| timerLag := 0; timerWinsTie := true; pollLatency := 7000000;
        pollReply := (emptyResult, Some (QueryError "unknown function")) |}]
  = (fst (@searchBody insertionSortSlice time.UTC "repo" "q" None
            1700000002000 (plainFlags false false) ("job", None)
            1700000002000000000
            [answering pollAfter500;
             {| timerLag := 0; timerWinsTie := true; pollLatency := 7000000;
                pollReply :=
                  (emptyResult, Some (QueryError "unknown function")) |}])
     ++ [queryErrorText "unknown function"],
     Some (exited 1)).
Proof.
  refine (proj1 (@error_reported_after_cleanup insertionSortSlice time.UTC
                   "repo" "q" None 1700000002000 (plainFlags false false)
                   ("job", None) 1700000002000000000
                   [answering pollAfter500;
                    {| timerLag := 0; timerWinsTie := true;
                       pollLatency := 7000000;
                       pollReply :=
                         (emptyResult,
                          Some (QueryError "unknown function")) |}]
                   (QueryError "unknown function") _ _)).
  - vm_compute. reflexivity.
  - discriminate.
Defined.
